(** * Project7/Source.cpp: a record store over an embedded SQL engine

    The program opens one database file, creates the table [Users],
    inserts and updates rows through prepared statements and prints the
    table.  Its functions are embedded as computations over an explicit
    [World]: the files on disk, the open connection handles, the live
    prepared statements, the console, and a log of every engine call.

    The engine is a library the program links against.  Its part is
    given here as an executable model of the calls the program makes
    ([sqlite3_open], [sqlite3_prepare_v2], [sqlite3_bind_text],
    [sqlite3_bind_int], [sqlite3_step], [sqlite3_finalize],
    [sqlite3_exec], [sqlite3_close], [sqlite3_errmsg]) and of the four
    SQL statements that occur in the source. *)

From Stdlib Require Import ZArith String Ascii List DecimalString Lia.
From stdpp Require Import base option gmap strings list.

Open Scope string_scope.
Open Scope list_scope.
Open Scope Z_scope.

(** ** C strings *)

Module CString.

Definition NUL : ascii := Ascii.zero.

(** [s.c_str()]: the bytes of [s] followed by a terminator. *)
Definition c_str (s : string) : string := s +:+ String NUL EmptyString.

(** What a callee that scans for the terminator sees ([strlen]). *)
Fixpoint until_nul (z : string) : string :=
  match z with
  | EmptyString => EmptyString
  | String c z' =>
      if Ascii.eqb c NUL then EmptyString else String c (until_nul z')
  end.

Fixpoint prefix_bytes (n : nat) (z : string) : string :=
  match n, z with
  | O, _ => EmptyString
  | S _, EmptyString => EmptyString
  | S n', String c z' => String c (prefix_bytes n' z')
  end.

(** A text argument passed as pointer [z] and byte count [n]: a
    negative [n] means "up to the first terminator". *)
Definition text_arg (z : string) (n : Z) : string :=
  if n <? 0 then until_nul z else prefix_bytes (Z.to_nat n) z.

Fixpoint has_nul (s : string) : bool :=
  match s with
  | EmptyString => false
  | String c s' => Ascii.eqb c NUL || has_nul s'
  end.

End CString.
Export CString.

(** Decimal text of an integer, as the engine renders an INTEGER column. *)
Definition dec (z : Z) : string := NilZero.string_of_int (Z.to_int z).

(** ** The engine *)

Module Engine.

(** *** Result codes *)

Definition SQLITE_OK : Z := 0.
Definition SQLITE_ERROR : Z := 1.
Definition SQLITE_ABORT : Z := 4.
Definition SQLITE_BUSY : Z := 5.
Definition SQLITE_NOMEM : Z := 7.
Definition SQLITE_READONLY : Z := 8.
Definition SQLITE_IOERR : Z := 10.
Definition SQLITE_FULL : Z := 13.
Definition SQLITE_CANTOPEN : Z := 14.
Definition SQLITE_CONSTRAINT : Z := 19.
Definition SQLITE_MISMATCH : Z := 20.
Definition SQLITE_MISUSE : Z := 21.
Definition SQLITE_RANGE : Z := 25.
Definition SQLITE_ROW : Z := 100.
Definition SQLITE_DONE : Z := 101.

(** Failures that come from outside the program: another process holds
    the lock, memory or disk is exhausted, the file cannot be opened. *)
Inductive Fault := F_BUSY | F_NOMEM | F_READONLY | F_IOERR | F_FULL | F_CANTOPEN.

Definition fault_code (f : Fault) : Z :=
  match f with
  | F_BUSY => SQLITE_BUSY
  | F_NOMEM => SQLITE_NOMEM
  | F_READONLY => SQLITE_READONLY
  | F_IOERR => SQLITE_IOERR
  | F_FULL => SQLITE_FULL
  | F_CANTOPEN => SQLITE_CANTOPEN
  end.

Definition fault_msg (f : Fault) : string :=
  match f with
  | F_BUSY => "database is locked"
  | F_NOMEM => "out of memory"
  | F_READONLY => "attempt to write a readonly database"
  | F_IOERR => "disk I/O error"
  | F_FULL => "database or disk is full"
  | F_CANTOPEN => "unable to open database file"
  end.

(** *** Stored data *)

Record Row := { ID : Z; Name : string; Age : Z }.

(** The table [Users]: its rows in rowid order and the AUTOINCREMENT
    counter (the largest rowid ever handed out). *)
Record Table := { rows : list Row; seq : Z }.

(** A database file: the table [Users] exists or not. *)
Record Database := { users : option Table }.

Definition empty_db : Database := {| users := None |}.

Definition INT64_MAX : Z := 9223372036854775807.

(** *** Statements *)

Inductive Program := PCreateUsers | PInsertUser | PSelectUsers | PUpdateUser.

Inductive Value := VInt (n : Z) | VText (s : string).

Definition sql_create : string :=
  "CREATE TABLE IF NOT EXISTS Users (" +:+
  "ID INTEGER PRIMARY KEY AUTOINCREMENT, " +:+
  "Name TEXT NOT NULL, " +:+
  "Age INTEGER NOT NULL);".
Definition sql_insert : string := "INSERT INTO Users (Name, Age) VALUES (?, ?);".
Definition sql_select : string := "SELECT * FROM Users;".
Definition sql_update : string := "UPDATE Users SET Name = ?, Age = ? WHERE ID = ?;".

(** The statement texts the model understands are the four of the
    source; any other text is rejected as the parser rejects a text it
    cannot read. *)
Definition compile (sql : string) : option Program :=
  if String.eqb sql sql_create then Some PCreateUsers
  else if String.eqb sql sql_insert then Some PInsertUser
  else if String.eqb sql sql_select then Some PSelectUsers
  else if String.eqb sql sql_update then Some PUpdateUser
  else None.

(** Number of [?] placeholders. *)
Definition nparams (p : Program) : Z :=
  match p with
  | PCreateUsers => 0
  | PInsertUser => 2
  | PSelectUsers => 0
  | PUpdateUser => 3
  end.

(** Whether the statement needs the table to exist to be compiled. *)
Definition needs_table (p : Program) : bool :=
  match p with PCreateUsers => false | _ => true end.

Definition max_id (rs : list Row) : Z := fold_right (fun r m => Z.max (ID r) m) 0 rs.

Definition set_row (i : Z) (n : string) (a : Z) (r : Row) : Row :=
  if ID r =? i then {| ID := ID r; Name := n; Age := a |} else r.

Definition msg_no_table : string := "no such table: Users".
Definition msg_ok : string := "not an error".

(** One run of a statement to completion against a database, with the
    placeholders bound as in [b] (an unbound placeholder is NULL).
    Yields the result code, the database afterwards and the message.
    Each case is the meaning of the statement text in the source:
    - [CREATE TABLE IF NOT EXISTS] creates the empty table when there is
      none and is done without effect when there is one;
    - [INSERT] needs both values ([NOT NULL]) and appends one row whose
      id is one more than the largest id ever used ([AUTOINCREMENT]);
      past the largest 64-bit id it fails with [SQLITE_FULL];
    - [SELECT] used as a stepped statement reports a row when there is
      one;
    - [UPDATE ... WHERE ID = ?] rewrites the rows with that id; a NULL id
      matches nothing, and the [NOT NULL] columns are checked only when
      a row is rewritten.
    A statement that fails changes nothing.  Conversions between text
    and integer by column affinity are not modelled: the source binds
    text at position 1 and integers at positions 2 and 3 only, anything
    else is answered with [SQLITE_MISMATCH]. *)
Definition run (p : Program) (b : gmap Z Value) (d : Database) : Z * Database * string :=
  match p with
  | PCreateUsers =>
      match users d with
      | Some _ => (SQLITE_DONE, d, msg_ok)
      | None => (SQLITE_DONE, {| users := Some {| rows := []; seq := 0 |} |}, msg_ok)
      end
  | PInsertUser =>
      match users d with
      | None => (SQLITE_ERROR, d, msg_no_table)
      | Some t =>
          match b !! 1, b !! 2 with
          | None, _ => (SQLITE_CONSTRAINT, d, "NOT NULL constraint failed: Users.Name")
          | Some _, None => (SQLITE_CONSTRAINT, d, "NOT NULL constraint failed: Users.Age")
          | Some (VText n), Some (VInt a) =>
              let i := Z.max (seq t) (max_id (rows t)) + 1 in
              if INT64_MAX <? i then (SQLITE_FULL, d, "database or disk is full")
              else (SQLITE_DONE,
                    {| users := Some {| rows := rows t ++ [{| ID := i; Name := n; Age := a |}];
                                        seq := i |} |},
                    msg_ok)
          | Some _, Some _ => (SQLITE_MISMATCH, d, "datatype mismatch")
          end
      end
  | PSelectUsers =>
      match users d with
      | None => (SQLITE_ERROR, d, msg_no_table)
      | Some t =>
          match rows t with
          | [] => (SQLITE_DONE, d, msg_ok)
          | _ :: _ => (SQLITE_ROW, d, msg_ok)
          end
      end
  | PUpdateUser =>
      match users d with
      | None => (SQLITE_ERROR, d, msg_no_table)
      | Some t =>
          match b !! 3 with
          | None => (SQLITE_DONE, d, msg_ok)
          | Some (VText _) => (SQLITE_MISMATCH, d, "datatype mismatch")
          | Some (VInt i) =>
              if forallb (fun r => negb (ID r =? i)) (rows t) then (SQLITE_DONE, d, msg_ok)
              else
                match b !! 1, b !! 2 with
                | None, _ => (SQLITE_CONSTRAINT, d, "NOT NULL constraint failed: Users.Name")
                | Some _, None => (SQLITE_CONSTRAINT, d, "NOT NULL constraint failed: Users.Age")
                | Some (VText n), Some (VInt a) =>
                    (SQLITE_DONE,
                     {| users := Some {| rows := map (set_row i n a) (rows t); seq := seq t |} |},
                     msg_ok)
                | Some _, Some _ => (SQLITE_MISMATCH, d, "datatype mismatch")
                end
          end
      end
  end.

End Engine.
Export Engine.

(** ** The world the program runs in *)

Module Sys.

(** An open (or half-open) connection handle. *)
Record Conn := { path : string; usable : bool }.

(** A live prepared statement. *)
Record Stmt := { owner : nat; prog : Program; binds : gmap Z Value }.

(** Engine calls, in the order they were made, with their results.
    Handles are [option nat]; [None] is the null pointer. *)
Inductive Event :=
| EOpen (file : string) (rc : Z) (db : option nat)
| EClose (db : option nat) (rc : Z)
| EPrepare (db : option nat) (sql : string) (rc : Z) (stmt : option nat)
| EBindText (stmt : option nat) (idx : Z) (text : string) (rc : Z)
| EBindInt (stmt : option nat) (idx : Z) (n : Z) (rc : Z)
| EStep (stmt : option nat) (rc : Z)
| EFinalize (stmt : option nat) (rc : Z)
| EExec (db : option nat) (sql : string) (rc : Z).

Record World := mkWorld {
  disk : gmap string Database;   (* database files by path *)
  conns : gmap nat Conn;         (* connection handles not yet released *)
  errmsgs : gmap nat string;     (* latest message of each connection *)
  stmts : gmap nat Stmt;         (* statement handles not yet released *)
  faults : list (option Fault);  (* what the environment does to the next calls *)
  trace : list Event;
  cout : list string;
  cerr : list string
}.

Definition set_disk (d : gmap string Database) (w : World) : World :=
  mkWorld d (conns w) (errmsgs w) (stmts w) (faults w) (trace w) (cout w) (cerr w).
Definition set_conns (c : gmap nat Conn) (w : World) : World :=
  mkWorld (disk w) c (errmsgs w) (stmts w) (faults w) (trace w) (cout w) (cerr w).
Definition set_errmsgs (m : gmap nat string) (w : World) : World :=
  mkWorld (disk w) (conns w) m (stmts w) (faults w) (trace w) (cout w) (cerr w).
Definition set_stmts (s : gmap nat Stmt) (w : World) : World :=
  mkWorld (disk w) (conns w) (errmsgs w) s (faults w) (trace w) (cout w) (cerr w).
Definition set_faults (f : list (option Fault)) (w : World) : World :=
  mkWorld (disk w) (conns w) (errmsgs w) (stmts w) f (trace w) (cout w) (cerr w).
Definition log (e : Event) (w : World) : World :=
  mkWorld (disk w) (conns w) (errmsgs w) (stmts w) (faults w) (trace w ++ [e]) (cout w) (cerr w).
Definition print (s : string) (w : World) : World :=
  mkWorld (disk w) (conns w) (errmsgs w) (stmts w) (faults w) (trace w) (cout w ++ [s]) (cerr w).
Definition eprint (s : string) (w : World) : World :=
  mkWorld (disk w) (conns w) (errmsgs w) (stmts w) (faults w) (trace w) (cout w) (cerr w ++ [s]).

(** Each fallible engine call consumes one entry of the plan; [None]
    and an exhausted plan both mean the environment stays out of it. *)
Definition next_fault (w : World) : option Fault :=
  match faults w with
  | [] => None
  | f :: _ => f
  end.

Definition take_fault (w : World) : option Fault * World :=
  (next_fault w, set_faults (tl (faults w)) w).

Definition set_errmsg (h : nat) (m : string) (w : World) : World :=
  set_errmsgs (<[h := m]> (errmsgs w)) w.

(** The connection behind a handle the engine accepts for work. *)
Definition lookup_conn (db : option nat) (w : World) : option (nat * Conn) :=
  match db with
  | None => None
  | Some h =>
      match conns w !! h with
      | Some c => if usable c then Some (h, c) else None
      | None => None
      end
  end.

Definition lookup_stmt (stmt : option nat) (w : World) : option (nat * Stmt) :=
  match stmt with
  | None => None
  | Some s => match stmts w !! s with Some st => Some (s, st) | None => None end
  end.

Definition db_at (p : string) (w : World) : Database := default empty_db (disk w !! p).

Definition has_table (d : Database) : bool :=
  match users d with Some _ => true | None => false end.

Definition msg_misuse : string := "bad parameter or other API misuse".

(** *** The engine's entry points *)

(** The message of the latest failed call on the connection. *)
Definition sqlite3_errmsg (db : option nat) (w : World) : string :=
  match db with
  | None => "out of memory"
  | Some h => default msg_misuse (errmsgs w !! h)
  end.

(** A handle is handed back even when opening fails, unless there was
    no memory for the handle itself; the file is created when absent. *)
Definition sqlite3_open (filename : string) (w : World) : (Z * option nat) * World :=
  let p := until_nul filename in
  let (f, w) := take_fault w in
  match f with
  | Some F_NOMEM => ((SQLITE_NOMEM, None), log (EOpen p SQLITE_NOMEM None) w)
  | Some f =>
      let h := fresh (dom (conns w)) in
      let c := {| path := p; usable := false |} in
      ((fault_code f, Some h),
       log (EOpen p (fault_code f) (Some h))
           (set_errmsg h (fault_msg f) (set_conns (<[h := c]> (conns w)) w)))
  | None =>
      let h := fresh (dom (conns w)) in
      let c := {| path := p; usable := true |} in
      let d := match disk w !! p with
               | Some _ => disk w
               | None => <[p := empty_db]> (disk w)
               end in
      ((SQLITE_OK, Some h),
       log (EOpen p SQLITE_OK (Some h))
           (set_errmsg h msg_ok (set_disk d (set_conns (<[h := c]> (conns w)) w))))
  end.

Definition has_stmt_of (h : nat) (w : World) : bool :=
  existsb (fun '(_, st) => Nat.eqb (owner st) h) (map_to_list (stmts w)).

(** Closing releases the handle, unless statements of the connection
    are still live: then it is refused with [SQLITE_BUSY] and the
    connection stays open.  A null handle is a harmless no-op. *)
Definition sqlite3_close (db : option nat) (w : World) : Z * World :=
  match db with
  | None => (SQLITE_OK, log (EClose db SQLITE_OK) w)
  | Some h =>
      match conns w !! h with
      | None => (SQLITE_MISUSE, log (EClose db SQLITE_MISUSE) w)
      | Some _ =>
          if has_stmt_of h w
          then (SQLITE_BUSY,
                log (EClose db SQLITE_BUSY)
                    (set_errmsg h "unable to close due to unfinalized statements" w))
          else (SQLITE_OK,
                log (EClose db SQLITE_OK)
                    (set_errmsgs (delete h (errmsgs w)) (set_conns (delete h (conns w)) w)))
      end
  end.

(** Compiling a statement: on success a fresh statement handle with
    nothing bound; on any failure the handle returned is null and
    nothing has been allocated.  The text is read up to the first
    terminator. *)
Definition sqlite3_prepare_v2 (db : option nat) (zSql : string) (nByte : Z) (w : World)
  : (Z * option nat) * World :=
  let sql := until_nul (text_arg zSql nByte) in
  match lookup_conn db w with
  | None => ((SQLITE_MISUSE, None), log (EPrepare db sql SQLITE_MISUSE None) w)
  | Some (h, c) =>
      let (f, w) := take_fault w in
      match f with
      | Some f =>
          ((fault_code f, None),
           log (EPrepare db sql (fault_code f) None) (set_errmsg h (fault_msg f) w))
      | None =>
          match compile sql with
          | None =>
              ((SQLITE_ERROR, None),
               log (EPrepare db sql SQLITE_ERROR None) (set_errmsg h "syntax error" w))
          | Some p =>
              if needs_table p && negb (has_table (db_at (path c) w))
              then ((SQLITE_ERROR, None),
                    log (EPrepare db sql SQLITE_ERROR None) (set_errmsg h msg_no_table w))
              else
                let s := fresh (dom (stmts w)) in
                let st := {| owner := h; prog := p; binds := ∅ |} in
                ((SQLITE_OK, Some s),
                 log (EPrepare db sql SQLITE_OK (Some s))
                     (set_stmts (<[s := st]> (stmts w)) (set_errmsg h msg_ok w)))
          end
      end
  end.

(** Binding proper, shared by the typed entry points: the index must
    name a placeholder of the statement ([SQLITE_RANGE] otherwise); a
    bind that fails leaves the placeholder as it was. *)
Definition bind_value (stmt : option nat) (idx : Z) (v : Value) (w : World) : Z * World :=
  match lookup_stmt stmt w with
  | None => (SQLITE_MISUSE, w)
  | Some (s, st) =>
      let (f, w) := take_fault w in
      match f with
      | Some f => (fault_code f, w)
      | None =>
          if (1 <=? idx) && (idx <=? nparams (prog st))
          then (SQLITE_OK,
                set_stmts (<[s := {| owner := owner st; prog := prog st;
                                     binds := <[idx := v]> (binds st) |}]> (stmts w)) w)
          else (SQLITE_RANGE, w)
      end
  end.

(** The text bound is [n] bytes from [z], or the bytes up to the first
    terminator when [n] is negative. *)
Definition sqlite3_bind_text (stmt : option nat) (idx : Z) (z : string) (n : Z) (w : World)
  : Z * World :=
  let t := text_arg z n in
  let (rc, w) := bind_value stmt idx (VText t) w in
  (rc, log (EBindText stmt idx t rc) w).

Definition sqlite3_bind_int (stmt : option nat) (idx : Z) (v : Z) (w : World) : Z * World :=
  let (rc, w) := bind_value stmt idx (VInt v) w in
  (rc, log (EBindInt stmt idx v rc) w).

Definition step_msg (rc : Z) (m : string) : string :=
  if rc =? SQLITE_DONE then "no more rows available"
  else if rc =? SQLITE_ROW then "another row available"
  else m.

(** Running a prepared statement.  A failure of the environment or of
    the statement leaves the store alone; the statement stays live
    either way, until it is finalized. *)
Definition sqlite3_step (stmt : option nat) (w : World) : Z * World :=
  match lookup_stmt stmt w with
  | None => (SQLITE_MISUSE, log (EStep stmt SQLITE_MISUSE) w)
  | Some (s, st) =>
      match conns w !! owner st with
      | None => (SQLITE_MISUSE, log (EStep stmt SQLITE_MISUSE) w)
      | Some c =>
          let (f, w) := take_fault w in
          match f with
          | Some f =>
              (fault_code f,
               log (EStep stmt (fault_code f)) (set_errmsg (owner st) (fault_msg f) w))
          | None =>
              let '(rc, d, m) := run (prog st) (binds st) (db_at (path c) w) in
              (rc,
               log (EStep stmt rc)
                   (set_errmsg (owner st) (step_msg rc m)
                      (set_disk (<[path c := d]> (disk w)) w)))
          end
      end
  end.

(** Releasing a statement handle; a null handle is a harmless no-op. *)
Definition sqlite3_finalize (stmt : option nat) (w : World) : Z * World :=
  match stmt with
  | None => (SQLITE_OK, log (EFinalize stmt SQLITE_OK) w)
  | Some s =>
      match stmts w !! s with
      | None => (SQLITE_MISUSE, log (EFinalize stmt SQLITE_MISUSE) w)
      | Some _ => (SQLITE_OK, log (EFinalize stmt SQLITE_OK) (set_stmts (delete s (stmts w)) w))
      end
  end.

(** The row callback of [sqlite3_exec]: the column values as text (or
    null) and the column names; a non-zero return aborts the scan. *)
Definition Callback : Type := list (option string) -> list string -> World -> Z * World.

Definition col_names : list string := ["ID"; "Name"; "Age"].
Definition col_values (r : Row) : list (option string) :=
  [Some (dec (ID r)); Some (Name r); Some (dec (Age r))].

Fixpoint scan (cb : option Callback) (rs : list Row) (w : World) : Z * World :=
  match rs with
  | [] => (SQLITE_OK, w)
  | r :: rs' =>
      match cb with
      | None => scan cb rs' w
      | Some f =>
          let (x, w) := f (col_values r) col_names w in
          if x =? 0 then scan cb rs' w else (SQLITE_ABORT, w)
      end
  end.

(** Prepare, step to completion and finalize in one call; the
    statement it uses never outlives the call. *)
Definition sqlite3_exec (db : option nat) (zSql : string) (cb : option Callback) (w : World)
  : (Z * string) * World :=
  let sql := until_nul zSql in
  match lookup_conn db w with
  | None => ((SQLITE_MISUSE, msg_misuse), log (EExec db sql SQLITE_MISUSE) w)
  | Some (h, c) =>
      let (f, w) := take_fault w in
      match f with
      | Some f =>
          ((fault_code f, fault_msg f),
           log (EExec db sql (fault_code f)) (set_errmsg h (fault_msg f) w))
      | None =>
          match compile sql with
          | None =>
              ((SQLITE_ERROR, "syntax error"),
               log (EExec db sql SQLITE_ERROR) (set_errmsg h "syntax error" w))
          | Some PSelectUsers =>
              match users (db_at (path c) w) with
              | None =>
                  ((SQLITE_ERROR, msg_no_table),
                   log (EExec db sql SQLITE_ERROR) (set_errmsg h msg_no_table w))
              | Some t =>
                  let (rc, w) := scan cb (rows t) w in
                  let m := if rc =? SQLITE_OK then msg_ok else "query aborted" in
                  ((rc, m), log (EExec db sql rc) (set_errmsg h m w))
              end
          | Some p =>
              let '(rc, d, m) := run p ∅ (db_at (path c) w) in
              let rc' := if rc =? SQLITE_DONE then SQLITE_OK else rc in
              ((rc', m),
               log (EExec db sql rc')
                   (set_errmsg h m (set_disk (<[path c := d]> (disk w)) w)))
          end
      end
  end.

End Sys.
Export Sys.

(** ** Exceptions and the computation monad of the program *)

Module Cpp.

Inductive exn :=
| runtime_error (msg : string)
| invalid_argument (msg : string).

Definition what (e : exn) : string :=
  match e with runtime_error m => m | invalid_argument m => m end.

(** A function either returns or leaves by a thrown exception. *)
Inductive result (A : Type) :=
| Ok (a : A)
| Throw (e : exn).
Arguments Ok {A} a.
Arguments Throw {A} e.

(** Effects done before a throw stay done. *)
Definition M (A : Type) : Type := World -> result A * World.

#[export] Instance M_ret : MRet M := fun A a w => (Ok a, w).
#[export] Instance M_bind : MBind M := fun A B k m w =>
  match m w with
  | (Ok a, w') => k a w'
  | (Throw e, w') => (Throw e, w')
  end.

Definition throw {A : Type} (e : exn) : M A := fun w => (Throw e, w).

(** A call into the engine: it changes the world and cannot throw. *)
Definition call {A : Type} (f : World -> A * World) : M A :=
  fun w => let (a, w') := f w in (Ok a, w').

Definition peek {A : Type} (f : World -> A) : M A := fun w => (Ok (f w), w).

Definition lift {A : Type} (r : result A) : M A := fun w => (r, w).

(** One line written to [std::cout] / [std::cerr]. *)
Definition cout_line (s : string) : M unit := fun w => (Ok tt, print s w).
Definition cerr_line (s : string) : M unit := fun w => (Ok tt, eprint s w).

(** [try { body } catch (const std::exception& e) { handler }]. *)
Definition try_catch (body : M unit) (handler : exn -> M unit) : M unit :=
  fun w =>
    match body w with
    | (Ok tt, w') => (Ok tt, w')
    | (Throw e, w') => handler e w'
    end.

End Cpp.
Export Cpp.

(** ** The program *)

(** *** [class DatabaseConnection] *)

Record DatabaseConnection := { db : option nat }.

(** Constructor.  When it throws, no object exists and the destructor
    will not run. *)
Definition DatabaseConnection_ctor (dbName : string) : M DatabaseConnection :=
  '(rc, h) ← call (sqlite3_open (c_str dbName));
  if negb (rc =? SQLITE_OK)
  then m ← peek (sqlite3_errmsg h);
       throw (runtime_error ("Failed to open database: " +:+ m))
  else cout_line "Database opened successfully!";;
       mret {| db := h |}.

(** Destructor. *)
Definition DatabaseConnection_dtor (this : DatabaseConnection) : M unit :=
  call (sqlite3_close (db this));;
  cout_line "Database closed successfully!".

Definition get (this : DatabaseConnection) : option nat := db this.

(** A block that declares a [DatabaseConnection] local and then runs
    [body]: the destructor runs when the block is left, by return or by
    exception, provided the constructor completed. *)
Definition with_DatabaseConnection {A : Type} (dbName : string)
    (body : DatabaseConnection -> M A) : M A :=
  fun w =>
    match DatabaseConnection_ctor dbName w with
    | (Throw e, w1) => (Throw e, w1)
    | (Ok dbConn, w1) =>
        let (r, w2) := body dbConn w1 in
        match DatabaseConnection_dtor dbConn w2 with
        | (_, w3) => (r, w3)
        end
    end.

(** *** Input validation *)

Definition err_age : exn := invalid_argument "Age must be between 0 and 150.".
Definition err_name : exn := invalid_argument "Name must be between 1 and 100 characters.".

Definition validateInput (name : string) (age : Z) : result unit :=
  if (age <? 0) || (age >? 150) then Throw err_age
  else if (String.length name =? 0)%nat || (100 <? String.length name)%nat then Throw err_name
  else Ok tt.

(** *** Prepared execution *)

Definition executePreparedSQL (db : option nat) (sql name : string) (age : Z) : M unit :=
  '(rc, stmt) ← call (sqlite3_prepare_v2 db (c_str sql) (-1));
  if negb (rc =? SQLITE_OK)
  then m ← peek (sqlite3_errmsg db);
       throw (runtime_error ("Failed to prepare statement: " +:+ m))
  else
    call (sqlite3_bind_text stmt 1 (c_str name) (-1));;
    call (sqlite3_bind_int stmt 2 age);;
    rc ← call (sqlite3_step stmt);
    if negb (rc =? SQLITE_DONE)
    then m ← peek (sqlite3_errmsg db);
         throw (runtime_error ("Failed to execute statement: " +:+ m))
    else
      call (sqlite3_finalize stmt);;
      cout_line "Operation completed successfully!".

Definition createTable (db : option nat) : M unit :=
  '(rc, errMsg) ← call (sqlite3_exec db (c_str sql_create) None);
  if negb (rc =? SQLITE_OK)
  then throw (runtime_error ("Failed to create table: " +:+ errMsg))
  else cout_line "Table created successfully!".

Definition insertData (dbConn : DatabaseConnection) (name : string) (age : Z) : M unit :=
  lift (validateInput name age);;
  executePreparedSQL (get dbConn) sql_insert name age.

(** *** Reading *)

Fixpoint column_lines (argv : list (option string)) (azColName : list string) : list string :=
  match argv, azColName with
  | v :: argv', c :: azColName' =>
      (c +:+ ": " +:+ default "NULL" v) :: column_lines argv' azColName'
  | _, _ => []
  end.

Definition row_lines (argv : list (option string)) (azColName : list string) : list string :=
  column_lines argv azColName ++ ["-----------------------"].

Definition callback : Callback :=
  fun argv azColName w => (0, fold_left (fun w l => print l w) (row_lines argv azColName) w).

Definition readData (dbConn : DatabaseConnection) : M unit :=
  '(rc, errMsg) ← call (sqlite3_exec (get dbConn) (c_str sql_select) (Some callback));
  if negb (rc =? SQLITE_OK)
  then throw (runtime_error ("Failed to read data: " +:+ errMsg))
  else mret tt.

(** *** Updating *)

Definition updateData (dbConn : DatabaseConnection) (id : Z) (name : string) (age : Z) : M unit :=
  lift (validateInput name age);;
  '(rc, stmt) ← call (sqlite3_prepare_v2 (get dbConn) (c_str sql_update) (-1));
  if negb (rc =? SQLITE_OK)
  then m ← peek (sqlite3_errmsg (get dbConn));
       throw (runtime_error ("Failed to prepare update statement: " +:+ m))
  else
    call (sqlite3_bind_text stmt 1 (c_str name) (-1));;
    call (sqlite3_bind_int stmt 2 age);;
    call (sqlite3_bind_int stmt 3 id);;
    rc ← call (sqlite3_step stmt);
    if negb (rc =? SQLITE_DONE)
    then m ← peek (sqlite3_errmsg (get dbConn));
         throw (runtime_error ("Failed to update data: " +:+ m))
    else
      call (sqlite3_finalize stmt);;
      cout_line "Record updated successfully!".

(** *** [main] *)

Definition main : M Z :=
  try_catch
    (with_DatabaseConnection "test.db" (fun dbConn =>
       createTable (get dbConn);;
       insertData dbConn "Alice" 25;;
       insertData dbConn "Bob" 30;;
       cout_line "Current Records:";;
       readData dbConn;;
       cout_line "Updating Bob's age to 35:";;
       updateData dbConn 2 "Bob" 35;;
       cout_line "Records After Update:";;
       readData dbConn))
    (fun e => cerr_line ("Error: " +:+ what e));;
  mret 0.

(** ** Vocabulary of the statements below *)

(** The environment stays out of every call still to come. *)
Definition calm (w : World) : Prop := Forall (fun f => f = None) (faults w).

(** What an engine call that is not a row scan leaves alone: the
    handles of the connections and the console; it adds one event. *)
Definition quiet_call (e : Event) (w w' : World) : Prop :=
  conns w' = conns w /\ cout w' = cout w /\ cerr w' = cerr w /\
  trace w' = trace w ++ [e] /\ (calm w -> calm w').

(** The console lines one stored row is shown as. *)
Definition show_row (r : Row) : list string := row_lines (col_values r) col_names.

(** ** Sample worlds *)

(** Nothing on disk, nothing open. *)
Definition world0 : World :=
  {| disk := ∅; conns := ∅; errmsgs := ∅; stmts := ∅; faults := [];
     trace := []; cout := []; cerr := [] |}.

(** The file [test.db] holding table [t], open as handle 0, nothing
    prepared, and [fs] as the environment's plan. *)
Definition ready (t : Table) (fs : list (option Fault)) : World :=
  {| disk := {[ "test.db" := {| users := Some t |} ]};
     conns := {[ 0%nat := {| path := "test.db"; usable := true |} ]};
     errmsgs := {[ 0%nat := msg_ok ]};
     stmts := ∅; faults := fs; trace := []; cout := []; cerr := [] |}.

Definition conn0 : DatabaseConnection := {| db := Some 0%nat |}.

Definition no_rows : Table := {| rows := []; seq := 0 |}.

Definition alice_bob : Table :=
  {| rows := [{| ID := 1; Name := "Alice"; Age := 25 |};
              {| ID := 2; Name := "Bob"; Age := 30 |}];
     seq := 2 |}.

(** A three-byte name with a zero byte in the middle. *)
Definition name_with_nul : string := String "A" (String NUL (String "B" EmptyString)).

(** ** Well-formed stores and bundled effects *)

(** A stored row within the bounds the validation lets through: the age
    in [0,150] and the name at most 100 bytes long. *)
Definition row_ok (r : Row) : Prop :=
  0 <= Age r <= 150 /\ (String.length (Name r) <= 100)%nat.

(** A table whose rows are within bounds, whose ids are pairwise
    distinct, and whose id counter is not below any id in use. *)
Definition table_ok (t : Table) : Prop :=
  Forall row_ok (rows t) /\
  NoDup (map ID (rows t)) /\
  Forall (fun r => ID r <= seq t) (rows t).

(** Every table on disk is well-formed. *)
Definition store_ok (w : World) : Prop :=
  forall p d t, disk w !! p = Some d -> users d = Some t -> table_ok t.

(** Every live statement belongs to a connection that is still held. *)
Definition owned_ok (w : World) : Prop :=
  forall s st, stmts w !! s = Some st -> is_Some (conns w !! owner st).

(** A computation that keeps a property of the world, however it leaves. *)
Definition preserves {A : Type} (P : World -> Prop) (m : M A) : Prop :=
  forall w r w', m w = (r, w') -> P w -> P w'.

(** What one undisturbed operation on the file at [p] amounts to: the
    file now holds [d], the lines were printed, the handles are the same
    and the environment is still calm. *)
Definition steps_to (p : string) (d : Database) (lines : list string) (w w' : World) : Prop :=
  disk w' = <[p := d]> (disk w) /\ conns w' = conns w /\ stmts w' = stmts w /\
  cout w' = cout w ++ lines /\ cerr w' = cerr w /\ calm w'.

(** The table after the sample run of [main] on a fresh file. *)
Definition alice_bob35 : Table :=
  {| rows := [{| ID := 1; Name := "Alice"; Age := 25 |};
              {| ID := 2; Name := "Bob"; Age := 35 |}];
     seq := 2 |}.

(** What the sample run of [main] prints. *)
Definition main_output : list string :=
  ["Database opened successfully!"; "Table created successfully!";
   "Operation completed successfully!"; "Operation completed successfully!";
   "Current Records:";
   "ID: 1"; "Name: Alice"; "Age: 25"; "-----------------------";
   "ID: 2"; "Name: Bob"; "Age: 30"; "-----------------------";
   "Updating Bob's age to 35:"; "Record updated successfully!";
   "Records After Update:";
   "ID: 1"; "Name: Alice"; "Age: 25"; "-----------------------";
   "ID: 2"; "Name: Bob"; "Age: 35"; "-----------------------";
   "Database closed successfully!"].

(** ** Proof steps that recur *)

(** The statement just written at its handle is the one found there. *)
Ltac live_after H := rewrite H; apply lookup_insert_eq.

(** Binding and then finalizing a fresh handle gives the map back. *)
Ltac released Hfresh :=
  rewrite !insert_insert_eq, delete_insert_id; [reflexivity | exact Hfresh].

(** ** Running the monad *)

Section Running.
Context {A B : Type}.

Lemma run_bind (m : M A) (k : A -> M B) (w : World) :
  (m ≫= k) w = match m w with
               | (Ok a, w') => k a w'
               | (Throw e, w') => (Throw e, w')
               end.
Proof. reflexivity. Qed.

Lemma run_call (f : World -> A * World) (k : A -> M B) (w : World) :
  (call f ≫= k) w = k (f w).1 (f w).2.
Proof. rewrite run_bind. unfold call. destruct (f w); reflexivity. Qed.

Lemma run_peek (f : World -> A) (k : A -> M B) (w : World) :
  (peek f ≫= k) w = k (f w) w.
Proof. reflexivity. Qed.

Lemma run_lift_ok (a : A) (k : A -> M B) (w : World) :
  (lift (Ok a) ≫= k) w = k a w.
Proof. reflexivity. Qed.

Lemma run_lift_throw (e : exn) (k : A -> M B) (w : World) :
  (lift (Throw e) ≫= k) w = (Throw e, w).
Proof. reflexivity. Qed.
End Running.

(** ** Validation *)

Lemma validateInput_cases (name : string) (age : Z) :
  validateInput name age = Ok tt \/
  validateInput name age = Throw err_age \/
  validateInput name age = Throw err_name.
Proof.
  unfold validateInput.
  destruct (_ || _); [auto |]. destruct (_ || _); auto.
Qed.

Lemma validateInput_ok (name : string) (age : Z) :
  validateInput name age = Ok tt ->
  0 <= age <= 150 /\ (1 <= String.length name <= 100)%nat.
Proof.
  unfold validateInput.
  destruct (age <? 0) eqn:H1; [discriminate |].
  destruct (age >? 150) eqn:H2; [discriminate |].
  destruct (String.length name =? 0)%nat eqn:H3; [discriminate |].
  destruct (100 <? String.length name)%nat eqn:H4; [discriminate |].
  intros _. apply Z.ltb_ge in H1. rewrite Z.gtb_ltb in H2. apply Z.ltb_ge in H2.
  apply Nat.eqb_neq in H3. apply Nat.ltb_ge in H4. lia.
Qed.

(** C3, as amended.  Inside both ranges validation passes; an age
    outside [0,150] is reported as the age error whatever the name is;
    a name that is empty or longer than 100 bytes is reported as the
    name error when the age is inside its range. *)
Theorem validateInput_spec (name : string) (age : Z) :
  (0 <= age <= 150 -> (1 <= String.length name <= 100)%nat ->
   validateInput name age = Ok tt) /\
  (age < 0 \/ 150 < age -> validateInput name age = Throw err_age) /\
  (0 <= age <= 150 -> (String.length name = 0 \/ 100 < String.length name)%nat ->
   validateInput name age = Throw err_name).
Proof.
  unfold validateInput. repeat split.
  - intros Ha Hn.
    replace (age <? 0) with false by (symmetry; apply Z.ltb_ge; lia).
    replace (age >? 150) with false by (symmetry; rewrite Z.gtb_ltb; apply Z.ltb_ge; lia).
    replace (String.length name =? 0)%nat with false by (symmetry; apply Nat.eqb_neq; lia).
    replace (100 <? String.length name)%nat with false by (symmetry; apply Nat.ltb_ge; lia).
    reflexivity.
  - intros [Ha | Ha].
    + replace (age <? 0) with true by (symmetry; apply Z.ltb_lt; lia). reflexivity.
    + replace (age >? 150) with true by (symmetry; rewrite Z.gtb_ltb; apply Z.ltb_lt; lia).
      rewrite orb_true_r. reflexivity.
  - intros Ha Hn.
    replace (age <? 0) with false by (symmetry; apply Z.ltb_ge; lia).
    replace (age >? 150) with false by (symmetry; rewrite Z.gtb_ltb; apply Z.ltb_ge; lia).
    simpl. destruct Hn as [Hn | Hn].
    + replace (String.length name =? 0)%nat with true by (symmetry; apply Nat.eqb_eq; lia).
      reflexivity.
    + replace (100 <? String.length name)%nat with true by (symmetry; apply Nat.ltb_lt; lia).
      rewrite orb_true_r. reflexivity.
Qed.

Lemma validateInput_spec_witness :
  validateInput "Alice" 25 = Ok tt /\
  validateInput "Alice" 151 = Throw err_age /\
  validateInput "" 25 = Throw err_name.
Proof.
  split; [| split].
  - apply (proj1 (validateInput_spec "Alice" 25)); simpl; lia.
  - apply (proj1 (proj2 (validateInput_spec "Alice" 151))); right; lia.
  - apply (proj2 (proj2 (validateInput_spec "" 25))); [lia | left; reflexivity].
Defined.

(** C3 as stated fails: an empty name with an age out of range is
    reported as the age error, not as the name error. *)
Lemma validateInput_empty_name_bad_age :
  String.length "" = 0%nat /\
  validateInput "" (-1) = Throw err_age /\
  validateInput "" (-1) <> Throw err_name.
Proof. repeat split. discriminate. Qed.

(** C4.  When validation rejects the input, [insertData] and
    [updateData] leave by that very exception and the world is the one
    they started in: no engine call was made (the trace is part of the
    world), nothing was prepared and no file changed. *)
Theorem invalid_input_no_effect
    (dbConn : DatabaseConnection) (id : Z) (name : string) (age : Z) (e : exn) (w : World) :
  validateInput name age = Throw e ->
  (e = err_age \/ e = err_name) /\
  insertData dbConn name age w = (Throw e, w) /\
  updateData dbConn id name age w = (Throw e, w).
Proof.
  intros H. split; [| split].
  - destruct (validateInput_cases name age) as [H' | [H' | H']];
      rewrite H' in H; inversion H; auto.
  - unfold insertData. rewrite H. apply run_lift_throw.
  - unfold updateData. rewrite H. apply run_lift_throw.
Qed.

Lemma invalid_input_no_effect_witness :
  insertData {| db := Some 0%nat |} "Methuselah" 969 world0 = (Throw err_age, world0) /\
  updateData {| db := Some 0%nat |} 1 "" 30 world0 = (Throw err_name, world0).
Proof.
  split.
  - apply (invalid_input_no_effect {| db := Some 0%nat |} 1 "Methuselah" 969 err_age world0).
    reflexivity.
  - apply (invalid_input_no_effect {| db := Some 0%nat |} 1 "" 30 err_name world0).
    reflexivity.
Defined.

(** ** Facts about the engine model *)

Section EngineFacts.

Lemma fault_code_not_ok (f : Fault) : (fault_code f =? SQLITE_OK) = false.
Proof. destruct f; reflexivity. Qed.

Lemma fault_code_not_done (f : Fault) : (fault_code f =? SQLITE_DONE) = false.
Proof. destruct f; reflexivity. Qed.

Lemma until_nul_c_str (s : string) : has_nul s = false -> until_nul (c_str s) = s.
Proof.
  unfold c_str. induction s as [| c s IH]; simpl; [reflexivity |].
  destruct (Ascii.eqb c NUL); simpl; [discriminate |].
  intros H. rewrite IH; auto.
Qed.

Lemma calm_next (w : World) : calm w -> next_fault w = None.
Proof.
  unfold calm, next_fault. destruct (faults w); [reflexivity |].
  intros H. inversion H; assumption.
Qed.

Lemma calm_tl (w w' : World) : faults w' = tl (faults w) -> calm w -> calm w'.
Proof.
  unfold calm. intros ->. destruct (faults w); simpl; [auto |].
  intros H. inversion H; assumption.
Qed.

Lemma quiet_call_intro (e : Event) (w w' : World) :
  conns w' = conns w -> cout w' = cout w -> cerr w' = cerr w ->
  trace w' = trace w ++ [e] ->
  (faults w' = faults w \/ faults w' = tl (faults w)) ->
  quiet_call e w w'.
Proof.
  intros H1 H2 H3 H4 H5. repeat split; auto.
  destruct H5 as [H5 | H5]; [unfold calm; rewrite H5; auto | apply calm_tl; auto].
Qed.

Lemma lookup_conn_Some (db : option nat) (w : World) (h : nat) (c : Conn) :
  lookup_conn db w = Some (h, c) ->
  db = Some h /\ conns w !! h = Some c /\ usable c = true.
Proof.
  unfold lookup_conn. destruct db as [h' |]; [| discriminate].
  destruct (conns w !! h') as [c' |] eqn:E; [| discriminate].
  destruct (usable c') eqn:U; [| discriminate].
  intros H. inversion H; subst. auto.
Qed.

Lemma lookup_conn_same (db : option nat) (w w' : World) :
  conns w' = conns w -> lookup_conn db w' = lookup_conn db w.
Proof. unfold lookup_conn. intros ->. reflexivity. Qed.

(** *** [sqlite3_prepare_v2] *)

Lemma prepare_frame db z n w rc stmt w1 :
  sqlite3_prepare_v2 db z n w = ((rc, stmt), w1) ->
  disk w1 = disk w /\
  quiet_call (EPrepare db (until_nul (text_arg z n)) rc stmt) w w1.
Proof.
  unfold sqlite3_prepare_v2, take_fault.
  destruct (lookup_conn db w) as [[h c] |].
  2:{ intros H; inversion H; subst. split; [| apply quiet_call_intro]; auto. }
  destruct (next_fault w) as [f |].
  { intros H; inversion H; subst. split; [| apply quiet_call_intro]; auto. }
  destruct (compile _) as [p |].
  2:{ intros H; inversion H; subst. split; [| apply quiet_call_intro]; auto. }
  simpl. destruct (needs_table p && _);
    intros H; inversion H; subst; (split; [| apply quiet_call_intro]); auto.
Qed.

Lemma prepare_ok db z n w stmt w1 :
  sqlite3_prepare_v2 db z n w = ((SQLITE_OK, stmt), w1) ->
  exists h c p s,
    lookup_conn db w = Some (h, c) /\
    next_fault w = None /\
    compile (until_nul (text_arg z n)) = Some p /\
    (needs_table p = true -> has_table (db_at (path c) w) = true) /\
    stmt = Some s /\
    stmts w !! s = None /\
    stmts w1 = <[s := {| owner := h; prog := p; binds := ∅ |}]> (stmts w).
Proof.
  unfold sqlite3_prepare_v2, take_fault.
  destruct (lookup_conn db w) as [[h c] |] eqn:Hc; [| discriminate].
  destruct (next_fault w) as [f |] eqn:Hf.
  { intros H. inversion H as [[H1 H2 H3]]. destruct f; discriminate. }
  destruct (compile _) as [p |] eqn:Hp; [| discriminate].
  simpl.
  destruct (needs_table p && _) eqn:Ht; [discriminate |].
  intros H. inversion H; subst.
  exists h, c, p, (fresh (dom (stmts w))). simpl. repeat split; auto.
  - intros Hn. rewrite Hn in Ht. simpl in Ht. apply negb_false_iff in Ht. exact Ht.
  - apply not_elem_of_dom. apply is_fresh.
Qed.

Lemma prepare_fail db z n w rc stmt w1 :
  sqlite3_prepare_v2 db z n w = ((rc, stmt), w1) ->
  rc <> SQLITE_OK ->
  stmt = None /\ stmts w1 = stmts w.
Proof.
  unfold sqlite3_prepare_v2, take_fault.
  destruct (lookup_conn db w) as [[h c] |].
  2:{ intros H; inversion H; subst. auto. }
  destruct (next_fault w) as [f |].
  { intros H; inversion H; subst. auto. }
  destruct (compile _) as [p |].
  2:{ intros H; inversion H; subst. auto. }
  simpl. destruct (needs_table p && _); intros H; inversion H; subst; auto.
  intros Hrc. contradiction.
Qed.

(** *** Binding *)

Lemma bind_value_spec s st idx v w rc w' :
  stmts w !! s = Some st ->
  bind_value (Some s) idx v w = (rc, w') ->
  disk w' = disk w /\ conns w' = conns w /\ cout w' = cout w /\ cerr w' = cerr w /\
  trace w' = trace w /\ faults w' = tl (faults w) /\
  exists b,
    stmts w' = <[s := {| owner := owner st; prog := prog st; binds := b |}]> (stmts w) /\
    ((rc = SQLITE_OK /\ b = <[idx := v]> (binds st)) \/
     (rc <> SQLITE_OK /\ b = binds st)).
Proof.
  intros Hs. unfold bind_value, lookup_stmt, take_fault. rewrite Hs.
  assert (Hid : <[s := {| owner := owner st; prog := prog st; binds := binds st |}]> (stmts w)
                = stmts w).
  { apply insert_id. rewrite Hs. destruct st; reflexivity. }
  destruct (next_fault w) as [f |].
  { intros H; inversion H; subst. simpl. repeat split; auto.
    exists (binds st). split; [auto |]. right. split; [| auto].
    destruct f; discriminate. }
  destruct (_ && _); intros H; inversion H; subst; simpl; repeat split; auto.
  - eexists; split; [reflexivity |]. left; auto.
  - exists (binds st). split; [auto |]. right. split; [discriminate | auto].
Qed.

Lemma bind_text_spec s st idx z n w rc w' :
  stmts w !! s = Some st ->
  sqlite3_bind_text (Some s) idx z n w = (rc, w') ->
  disk w' = disk w /\
  quiet_call (EBindText (Some s) idx (text_arg z n) rc) w w' /\
  exists b,
    stmts w' = <[s := {| owner := owner st; prog := prog st; binds := b |}]> (stmts w) /\
    ((rc = SQLITE_OK /\ b = <[idx := VText (text_arg z n)]> (binds st)) \/
     (rc <> SQLITE_OK /\ b = binds st)).
Proof.
  intros Hs. unfold sqlite3_bind_text.
  destruct (bind_value _ _ _ w) as [rc0 w0] eqn:Hb.
  intros H; inversion H; subst.
  destruct (bind_value_spec _ _ _ _ _ _ _ Hs Hb) as (H1 & H2 & H3 & H4 & H5 & H6 & H7).
  simpl. split; [auto |]. split; [| auto].
  apply quiet_call_intro; simpl; auto. rewrite H5; reflexivity.
Qed.

Lemma bind_int_spec s st idx v w rc w' :
  stmts w !! s = Some st ->
  sqlite3_bind_int (Some s) idx v w = (rc, w') ->
  disk w' = disk w /\
  quiet_call (EBindInt (Some s) idx v rc) w w' /\
  exists b,
    stmts w' = <[s := {| owner := owner st; prog := prog st; binds := b |}]> (stmts w) /\
    ((rc = SQLITE_OK /\ b = <[idx := VInt v]> (binds st)) \/
     (rc <> SQLITE_OK /\ b = binds st)).
Proof.
  intros Hs. unfold sqlite3_bind_int.
  destruct (bind_value _ _ _ w) as [rc0 w0] eqn:Hb.
  intros H; inversion H; subst.
  destruct (bind_value_spec _ _ _ _ _ _ _ Hs Hb) as (H1 & H2 & H3 & H4 & H5 & H6 & H7).
  simpl. split; [auto |]. split; [| auto].
  apply quiet_call_intro; simpl; auto. rewrite H5; reflexivity.
Qed.

(** On a calm, live statement a bind inside the placeholder range
    succeeds. *)
Lemma bind_value_calm s st idx v w rc w' :
  stmts w !! s = Some st -> calm w -> 1 <= idx <= nparams (prog st) ->
  bind_value (Some s) idx v w = (rc, w') -> rc = SQLITE_OK.
Proof.
  intros Hs Hc Hi. unfold bind_value, lookup_stmt, take_fault. rewrite Hs.
  rewrite (calm_next _ Hc).
  replace (1 <=? idx) with true by (symmetry; apply Z.leb_le; lia).
  replace (idx <=? nparams (prog st)) with true by (symmetry; apply Z.leb_le; lia).
  simpl. intros H; inversion H; reflexivity.
Qed.

(** *** [sqlite3_step] *)

Lemma step_spec s st c w rc w' :
  stmts w !! s = Some st -> conns w !! owner st = Some c ->
  sqlite3_step (Some s) w = (rc, w') ->
  stmts w' = stmts w /\
  quiet_call (EStep (Some s) rc) w w' /\
  errmsgs w' !! owner st = Some (sqlite3_errmsg (Some (owner st)) w') /\
  ((exists f, next_fault w = Some f /\ rc = fault_code f /\ disk w' = disk w) \/
   (next_fault w = None /\
    exists d m, run (prog st) (binds st) (db_at (path c) w) = (rc, d, m) /\
                disk w' = <[path c := d]> (disk w))).
Proof.
  intros Hs Hc. unfold sqlite3_step, lookup_stmt, take_fault. rewrite Hs, Hc.
  destruct (next_fault w) as [f |] eqn:Hf.
  - intros H; inversion H; subst. simpl. split; [auto |].
    split; [apply quiet_call_intro; auto |].
    split; [rewrite lookup_insert_eq; reflexivity |].
    left. eauto.
  - simpl. destruct (run _ _ _) as [[rc0 d] m] eqn:Hr.
    intros H; inversion H; subst. simpl. split; [auto |].
    split; [apply quiet_call_intro; auto |].
    split; [rewrite lookup_insert_eq; reflexivity |].
    right. split; [auto |]. exists d, m. auto.
Qed.

(** *** [sqlite3_finalize] *)

Lemma finalize_spec s st w rc w' :
  stmts w !! s = Some st ->
  sqlite3_finalize (Some s) w = (rc, w') ->
  rc = SQLITE_OK /\ disk w' = disk w /\ stmts w' = delete s (stmts w) /\
  quiet_call (EFinalize (Some s) SQLITE_OK) w w'.
Proof.
  intros Hs. unfold sqlite3_finalize. rewrite Hs.
  intros H; inversion H; subst. simpl.
  split; [reflexivity |]. split; [reflexivity |]. split; [reflexivity |].
  apply quiet_call_intro; auto.
Qed.

(** Calm preparation of a statement the schema supports succeeds. *)
Lemma prepare_calm db z n w h c p rc stmt w1 :
  lookup_conn db w = Some (h, c) -> calm w ->
  compile (until_nul (text_arg z n)) = Some p ->
  (needs_table p = true -> has_table (db_at (path c) w) = true) ->
  sqlite3_prepare_v2 db z n w = ((rc, stmt), w1) ->
  rc = SQLITE_OK.
Proof.
  intros Hc Hcalm Hp Ht. unfold sqlite3_prepare_v2, take_fault.
  rewrite Hc, (calm_next _ Hcalm), Hp.
  change (db_at (path c) (set_faults (tail (faults w)) w)) with (db_at (path c) w).
  destruct (needs_table p); simpl.
  - rewrite Ht by reflexivity. simpl. intros H; inversion H; reflexivity.
  - intros H; inversion H; reflexivity.
Qed.

Lemma bind_text_calm s st idx z n w rc w' :
  stmts w !! s = Some st -> calm w -> 1 <= idx <= nparams (prog st) ->
  sqlite3_bind_text (Some s) idx z n w = (rc, w') -> rc = SQLITE_OK.
Proof.
  intros Hs Hc Hi. unfold sqlite3_bind_text.
  destruct (bind_value _ _ _ w) as [rc0 w0] eqn:Hb.
  intros H; inversion H; subst. eapply bind_value_calm; eauto.
Qed.

Lemma bind_int_calm s st idx v w rc w' :
  stmts w !! s = Some st -> calm w -> 1 <= idx <= nparams (prog st) ->
  sqlite3_bind_int (Some s) idx v w = (rc, w') -> rc = SQLITE_OK.
Proof.
  intros Hs Hc Hi. unfold sqlite3_bind_int.
  destruct (bind_value _ _ _ w) as [rc0 w0] eqn:Hb.
  intros H; inversion H; subst. eapply bind_value_calm; eauto.
Qed.

End EngineFacts.

(** ** Facts about one run of a statement *)

Section RunFacts.

Lemma run_insert_done b d d' m :
  run PInsertUser b d = (SQLITE_DONE, d', m) ->
  exists t n a,
    users d = Some t /\ b !! 1 = Some (VText n) /\ b !! 2 = Some (VInt a) /\
    Z.max (seq t) (max_id (rows t)) + 1 <= INT64_MAX /\
    d' = {| users := Some {| rows := rows t ++ [{| ID := Z.max (seq t) (max_id (rows t)) + 1;
                                                   Name := n; Age := a |}];
                             seq := Z.max (seq t) (max_id (rows t)) + 1 |} |}.
Proof.
  unfold run. destruct (users d) as [t |]; [| discriminate].
  destruct (b !! 1) as [[n1 | n] |]; [| | discriminate];
    (destruct (b !! 2) as [[a | a2] |]; try discriminate).
  destruct (INT64_MAX <? _) eqn:Hi; [discriminate |].
  intros H; inversion H; subst. exists t, n, a. repeat split; auto.
  apply Z.ltb_ge in Hi. exact Hi.
Qed.

Lemma run_update_done b d d' m :
  run PUpdateUser b d = (SQLITE_DONE, d', m) ->
  exists t,
    users d = Some t /\
    (d' = d \/
     exists i n a,
       b !! 3 = Some (VInt i) /\ b !! 1 = Some (VText n) /\ b !! 2 = Some (VInt a) /\
       d' = {| users := Some {| rows := map (set_row i n a) (rows t); seq := seq t |} |}).
Proof.
  unfold run. destruct (users d) as [t |]; [| discriminate].
  exists t. split; [reflexivity |].
  destruct (b !! 3) as [[i | i] |]; [| discriminate | inversion H; auto].
  destruct (forallb _ _); [inversion H; auto |].
  destruct (b !! 1) as [[n1 | n] |]; [| | discriminate];
    (destruct (b !! 2) as [[a | a2] |]; try discriminate).
  inversion H; subst. right. exists i, n, a. auto.
Qed.

Lemma run_update_absent b d t i :
  users d = Some t -> b !! 3 = Some (VInt i) ->
  Forall (fun r => ID r <> i) (rows t) ->
  exists m, run PUpdateUser b d = (SQLITE_DONE, d, m).
Proof.
  intros Hu Hb Hr. unfold run. rewrite Hu, Hb.
  replace (forallb _ (rows t)) with true; [eauto |].
  symmetry. apply forallb_forall. intros r Hin.
  rewrite Forall_forall in Hr. apply negb_true_iff, Z.eqb_neq, Hr.
  apply list_elem_of_In. exact Hin.
Qed.

Lemma map_set_row_absent (i : Z) (n : string) (a : Z) (rs : list Row) :
  forallb (fun r => negb (ID r =? i)) rs = true -> map (set_row i n a) rs = rs.
Proof.
  induction rs as [| r rs IH]; simpl; [reflexivity |].
  intros H. apply andb_true_iff in H as [H1 H2].
  unfold set_row at 1. apply negb_true_iff in H1. rewrite H1, IH by exact H2. reflexivity.
Qed.

(** With all three placeholders bound, the update rewrites the rows
    that carry the id (none, when no row does). *)
Lemma run_update_bound b d t i n a :
  users d = Some t ->
  b !! 1 = Some (VText n) -> b !! 2 = Some (VInt a) -> b !! 3 = Some (VInt i) ->
  exists m,
    run PUpdateUser b d =
      (SQLITE_DONE,
       {| users := Some {| rows := map (set_row i n a) (rows t); seq := seq t |} |}, m).
Proof.
  intros Hu H1 H2 H3. unfold run. rewrite Hu, H3, H1, H2.
  destruct (forallb _ (rows t)) eqn:E; [| eauto].
  rewrite (map_set_row_absent _ _ _ _ E).
  destruct d as [u]. simpl in Hu. subst u. destruct t. simpl. eauto.
Qed.

Lemma run_create b d :
  exists d', run PCreateUsers b d = (SQLITE_DONE, d', msg_ok) /\
             has_table d' = true /\
             (has_table d = true -> d' = d).
Proof.
  unfold run, has_table. destruct (users d) eqn:E.
  - exists d. rewrite E. auto.
  - eexists. split; [reflexivity |]. split; [reflexivity | discriminate].
Qed.

End RunFacts.

(** ** The control flow of the two writers *)

Section Flow.

(** The calls [executePreparedSQL] makes and how it leaves. *)
Lemma executePreparedSQL_flow db sql name age w r w' :
  executePreparedSQL db sql name age w = (r, w') ->
  exists rc stmt w1,
    sqlite3_prepare_v2 db (c_str sql) (-1) w = ((rc, stmt), w1) /\
    ((rc <> SQLITE_OK /\ w' = w1 /\
      r = Throw (runtime_error ("Failed to prepare statement: " +:+ sqlite3_errmsg db w1))) \/
     (rc = SQLITE_OK /\
      exists rc1 w2 rc2 w3 rc3 w4,
        sqlite3_bind_text stmt 1 (c_str name) (-1) w1 = (rc1, w2) /\
        sqlite3_bind_int stmt 2 age w2 = (rc2, w3) /\
        sqlite3_step stmt w3 = (rc3, w4) /\
        ((rc3 <> SQLITE_DONE /\ w' = w4 /\
          r = Throw (runtime_error
                       ("Failed to execute statement: " +:+ sqlite3_errmsg db w4))) \/
         (rc3 = SQLITE_DONE /\
          exists rc4 w5,
            sqlite3_finalize stmt w4 = (rc4, w5) /\
            w' = print "Operation completed successfully!" w5 /\
            r = Ok tt)))).
Proof.
  unfold executePreparedSQL. rewrite run_call.
  destruct (sqlite3_prepare_v2 _ _ _ w) as [[rc stmt] w1]. simpl.
  intros H. exists rc, stmt, w1. split; [reflexivity |].
  destruct (rc =? SQLITE_OK) eqn:Hrc; simpl in H.
  - apply Z.eqb_eq in Hrc. right. split; [exact Hrc |].
    rewrite run_call in H.
    destruct (sqlite3_bind_text _ _ _ _ w1) as [rc1 w2] eqn:E1. simpl in H.
    rewrite run_call in H.
    destruct (sqlite3_bind_int _ _ _ w2) as [rc2 w3] eqn:E2. simpl in H.
    rewrite run_call in H.
    destruct (sqlite3_step _ w3) as [rc3 w4] eqn:E3. simpl in H.
    exists rc1, w2, rc2, w3, rc3, w4. repeat (split; [first [reflexivity | assumption] |]).
    destruct (rc3 =? SQLITE_DONE) eqn:Hrc3; simpl in H.
    + apply Z.eqb_eq in Hrc3. right. split; [exact Hrc3 |].
      rewrite run_call in H.
      destruct (sqlite3_finalize _ w4) as [rc4 w5] eqn:E4. simpl in H.
      exists rc4, w5. inversion H; subst. auto.
    + apply Z.eqb_neq in Hrc3. left. inversion H; subst. auto.
  - apply Z.eqb_neq in Hrc. left. inversion H; subst. auto.
Qed.

(** The calls [updateData] makes once validation has passed. *)
Lemma updateData_flow dbConn id name age w r w' :
  validateInput name age = Ok tt ->
  updateData dbConn id name age w = (r, w') ->
  exists rc stmt w1,
    sqlite3_prepare_v2 (get dbConn) (c_str sql_update) (-1) w = ((rc, stmt), w1) /\
    ((rc <> SQLITE_OK /\ w' = w1 /\
      r = Throw (runtime_error
                   ("Failed to prepare update statement: " +:+
                    sqlite3_errmsg (get dbConn) w1))) \/
     (rc = SQLITE_OK /\
      exists rc1 w2 rc2 w3 rc3 w4 rc4 w5,
        sqlite3_bind_text stmt 1 (c_str name) (-1) w1 = (rc1, w2) /\
        sqlite3_bind_int stmt 2 age w2 = (rc2, w3) /\
        sqlite3_bind_int stmt 3 id w3 = (rc3, w4) /\
        sqlite3_step stmt w4 = (rc4, w5) /\
        ((rc4 <> SQLITE_DONE /\ w' = w5 /\
          r = Throw (runtime_error
                       ("Failed to update data: " +:+ sqlite3_errmsg (get dbConn) w5))) \/
         (rc4 = SQLITE_DONE /\
          exists rc5 w6,
            sqlite3_finalize stmt w5 = (rc5, w6) /\
            w' = print "Record updated successfully!" w6 /\
            r = Ok tt)))).
Proof.
  intros Hv. unfold updateData. rewrite Hv, run_lift_ok, run_call.
  destruct (sqlite3_prepare_v2 _ _ _ w) as [[rc stmt] w1]. simpl.
  intros H. exists rc, stmt, w1. split; [reflexivity |].
  destruct (rc =? SQLITE_OK) eqn:Hrc; simpl in H.
  - apply Z.eqb_eq in Hrc. right. split; [exact Hrc |].
    rewrite run_call in H.
    destruct (sqlite3_bind_text _ _ _ _ w1) as [rc1 w2] eqn:E5. simpl in H.
    rewrite run_call in H.
    destruct (sqlite3_bind_int _ _ _ w2) as [rc2 w3] eqn:E6. simpl in H.
    rewrite run_call in H.
    destruct (sqlite3_bind_int _ _ _ w3) as [rc3 w4] eqn:E7. simpl in H.
    rewrite run_call in H.
    destruct (sqlite3_step _ w4) as [rc4 w5] eqn:E8. simpl in H.
    exists rc1, w2, rc2, w3, rc3, w4, rc4, w5. repeat (split; [first [reflexivity | assumption] |]).
    destruct (rc4 =? SQLITE_DONE) eqn:Hrc4; simpl in H.
    + apply Z.eqb_eq in Hrc4. right. split; [exact Hrc4 |].
      rewrite run_call in H.
      destruct (sqlite3_finalize _ w5) as [rc5 w6] eqn:E9. simpl in H.
      exists rc5, w6. inversion H; subst. auto.
    + apply Z.eqb_neq in Hrc4. left. inversion H; subst. auto.
  - apply Z.eqb_neq in Hrc. left. inversion H; subst. auto.
Qed.

End Flow.

(** ** Inserting *)

Section Insert.

(** What a completed [insertData] has done, call by call. *)
Lemma insertData_ok_inv dbConn name age w w' :
  insertData dbConn name age w = (Ok tt, w') ->
  exists h c t s,
    lookup_conn (get dbConn) w = Some (h, c) /\
    users (db_at (path c) w) = Some t /\
    Z.max (seq t) (max_id (rows t)) + 1 <= INT64_MAX /\
    disk w' =
      <[path c :=
          {| users := Some {| rows := rows t ++
                                      [{| ID := Z.max (seq t) (max_id (rows t)) + 1;
                                          Name := until_nul (c_str name); Age := age |}];
                              seq := Z.max (seq t) (max_id (rows t)) + 1 |} |}]> (disk w) /\
    conns w' = conns w /\
    stmts w' = stmts w /\
    cout w' = cout w ++ ["Operation completed successfully!"] /\
    trace w' = trace w ++
      [EPrepare (get dbConn) sql_insert SQLITE_OK (Some s);
       EBindText (Some s) 1 (until_nul (c_str name)) SQLITE_OK;
       EBindInt (Some s) 2 age SQLITE_OK;
       EStep (Some s) SQLITE_DONE;
       EFinalize (Some s) SQLITE_OK].
Proof.
  unfold insertData. destruct (validateInput name age) as [[] | e]; [| discriminate].
  rewrite run_lift_ok. intros H.
  apply executePreparedSQL_flow in H as (rc & stmt & w1 & Hp & [(_ & _ & ?) | (-> & H)]);
    [discriminate |].
  destruct H as (rc1 & w2 & rc2 & w3 & rc3 & w4 & Hb1 & Hb2 & Hst & [(_ & _ & ?) | (-> & H)]);
    [discriminate |].
  destruct H as (rc4 & w5 & Hfin & -> & _).
  destruct (prepare_frame _ _ _ _ _ _ _ Hp) as (Hd1 & Hc1 & Ho1 & _ & Ht1 & _).
  apply prepare_ok in Hp as (h & c & p & s & Hc & _ & Hcomp & _ & -> & Hfresh & Hs1).
  vm_compute in Hcomp. inversion Hcomp; subst p; clear Hcomp.
  assert (Hl1 : stmts w1 !! s = Some {| owner := h; prog := PInsertUser; binds := ∅ |})
    by (live_after Hs1).
  destruct (bind_text_spec _ _ _ _ _ _ _ _ Hl1 Hb1)
    as (Hd2 & (Hc2 & Ho2 & _ & Ht2 & _) & b1 & Hs2 & Hv1).
  assert (Hl2 : stmts w2 !! s = Some {| owner := h; prog := PInsertUser; binds := b1 |})
    by (live_after Hs2).
  destruct (bind_int_spec _ _ _ _ _ _ _ Hl2 Hb2)
    as (Hd3 & (Hc3 & Ho3 & _ & Ht3 & _) & b2 & Hs3 & Hv2).
  assert (Hl3 : stmts w3 !! s = Some {| owner := h; prog := PInsertUser; binds := b2 |})
    by (live_after Hs3).
  destruct (lookup_conn_Some _ _ _ _ Hc) as (Hdb & Hch & _).
  assert (Hc3' : conns w3 !! h = Some c) by (rewrite Hc3, Hc2, Hc1; exact Hch).
  destruct (step_spec _ _ _ _ _ _ Hl3 Hc3' Hst)
    as (Hs4 & (Hc4 & Ho4 & _ & Ht4 & _) & _ & [(f & _ & Hf & _) | (_ & d & m & Hrun & Hd4)]).
  { destruct f; discriminate. }
  simpl in Hrun.
  apply run_insert_done in Hrun as (t & n & a & Hu & Hn & Ha & Hi & ->).
  assert (Hl4 : stmts w4 !! s = Some {| owner := h; prog := PInsertUser; binds := b2 |})
    by (rewrite Hs4; exact Hl3).
  destruct (finalize_spec _ _ _ _ _ Hl4 Hfin) as (-> & Hd5 & Hs5 & (Hc5 & Ho5 & _ & Ht5 & _)).
  (* both binds went through, or the step would have met a NULL *)
  assert (Hb : rc1 = SQLITE_OK /\ rc2 = SQLITE_OK /\
               n = until_nul (c_str name) /\ a = age).
  { destruct Hv1 as [(-> & ->) | (? & ->)]; destruct Hv2 as [(-> & ->) | (? & ->)];
      simplify_map_eq; auto. }
  destruct Hb as (-> & -> & -> & ->).
  unfold db_at in Hu. rewrite Hd3, Hd2, Hd1 in Hu.
  exists h, c, t, s. repeat split.
  - exact Hc.
  - exact Hu.
  - exact Hi.
  - simpl. rewrite Hd5, Hd4. unfold db_at. rewrite Hd3, Hd2, Hd1. reflexivity.
  - simpl. rewrite Hc5, Hc4, Hc3, Hc2, Hc1. reflexivity.
  - simpl. rewrite Hs5, Hs4, Hs3, Hs2, Hs1.
    released Hfresh.
  - simpl. rewrite Ho5, Ho4, Ho3, Ho2, Ho1. reflexivity.
  - simpl. rewrite Ht5, Ht4, Ht3, Ht2, Ht1, <- !app_assoc. reflexivity.
Qed.

End Insert.

(** ** Reading *)

Section Read.

Lemma print_lines_cout (ls : list string) (w : World) :
  cout (fold_left (fun w l => print l w) ls w) = cout w ++ ls /\
  disk (fold_left (fun w l => print l w) ls w) = disk w /\
  conns (fold_left (fun w l => print l w) ls w) = conns w /\
  stmts (fold_left (fun w l => print l w) ls w) = stmts w /\
  faults (fold_left (fun w l => print l w) ls w) = faults w /\
  trace (fold_left (fun w l => print l w) ls w) = trace w.
Proof.
  revert w. induction ls as [| l ls IH]; intros w; simpl.
  - rewrite app_nil_r. repeat split.
  - destruct (IH (print l w)) as (H1 & H2 & H3 & H4 & H5 & H6).
    rewrite H1, H2, H3, H4, H5, H6. simpl. rewrite <- app_assoc. repeat split.
Qed.

(** With the program's callback a scan never aborts and prints every
    row, in table order. *)
Lemma scan_callback (rs : list Row) (w : World) :
  exists w',
    scan (Some callback) rs w = (SQLITE_OK, w') /\
    cout w' = cout w ++ flat_map show_row rs /\
    disk w' = disk w /\ conns w' = conns w /\ stmts w' = stmts w /\
    faults w' = faults w /\ trace w' = trace w.
Proof.
  revert w. induction rs as [| r rs IH]; intros w; simpl.
  - exists w. rewrite app_nil_r. repeat split.
  - unfold callback at 1. simpl.
    destruct (print_lines_cout (row_lines (col_values r) col_names) w)
      as (H1 & H2 & H3 & H4 & H5 & H6).
    destruct (IH (fold_left (fun w l => print l w) (row_lines (col_values r) col_names) w))
      as (w' & E & G1 & G2 & G3 & G4 & G5 & G6).
    exists w'. split; [exact E |].
    rewrite G1, G2, G3, G4, G5, G6, H1, H2, H3, H4, H5, H6.
    unfold show_row at 2. rewrite <- app_assoc. repeat split.
Qed.

Lemma readData_ok_inv dbConn w w' :
  readData dbConn w = (Ok tt, w') ->
  exists h c t,
    lookup_conn (get dbConn) w = Some (h, c) /\
    users (db_at (path c) w) = Some t /\
    cout w' = cout w ++ flat_map show_row (rows t) /\
    disk w' = disk w /\ conns w' = conns w /\ stmts w' = stmts w.
Proof.
  unfold readData. rewrite run_call.
  unfold sqlite3_exec, take_fault.
  destruct (lookup_conn (get dbConn) w) as [[h c] |] eqn:Hc; [| discriminate].
  destruct (next_fault w) as [f |].
  { simpl. rewrite fault_code_not_ok. discriminate. }
  replace (compile (until_nul (c_str sql_select))) with (Some PSelectUsers)
    by (vm_compute; reflexivity).
  change (db_at (path c) (set_faults (tail (faults w)) w)) with (db_at (path c) w).
  destruct (users (db_at (path c) w)) as [t |] eqn:Hu; [| discriminate].
  destruct (scan_callback (rows t) (set_faults (tail (faults w)) w))
    as (w1 & E & G1 & G2 & G3 & G4 & G5 & G6).
  rewrite E. simpl. intros H; inversion H; subst. simpl.
  exists h, c, t. rewrite G1, G2, G3, G4. repeat split; auto.
Qed.

Lemma max_id_upper (rs : list Row) : Forall (fun r => ID r <= max_id rs) rs.
Proof.
  induction rs as [| r rs IH]; constructor; simpl.
  - lia.
  - eapply Forall_impl; [exact IH |]. simpl. intros; lia.
Qed.

End Read.

(** ** What an insert stores *)

(** C5, as amended.  A completed [insertData] has prepared the fixed
    text [sql_insert], whatever the name is, and has handed the name
    over as a text bind at position 1 and the age as an integer bind at
    position 2.  The table is still there, every row it held is kept in
    place, and one row is added whose name is the bound text: the bytes
    of the name before its first zero byte, so the name itself when it
    has none.  No other file changes. *)
Theorem insertData_binds_and_stores
    (dbConn : DatabaseConnection) (name : string) (age : Z) (w w' : World) :
  insertData dbConn name age w = (Ok tt, w') ->
  exists h c t s r,
    lookup_conn (get dbConn) w = Some (h, c) /\
    users (db_at (path c) w) = Some t /\
    trace w' = trace w ++
      [EPrepare (get dbConn) sql_insert SQLITE_OK (Some s);
       EBindText (Some s) 1 (Name r) SQLITE_OK;
       EBindInt (Some s) 2 (Age r) SQLITE_OK;
       EStep (Some s) SQLITE_DONE;
       EFinalize (Some s) SQLITE_OK] /\
    Name r = until_nul (c_str name) /\
    (has_nul name = false -> Name r = name) /\
    Age r = age /\
    disk w' = <[path c := {| users := Some {| rows := rows t ++ [r]; seq := ID r |} |}]> (disk w).
Proof.
  intros H.
  apply insertData_ok_inv in H as (h & c & t & s & Hc & Hu & _ & Hd & _ & _ & _ & Ht).
  exists h, c, t, s,
    {| ID := Z.max (seq t) (max_id (rows t)) + 1; Name := until_nul (c_str name); Age := age |}.
  simpl. repeat split; auto. apply until_nul_c_str.
Qed.

Lemma insertData_binds_and_stores_witness :
  exists w' h c t s r,
    insertData conn0 "Robert'); DROP TABLE Users;--" 30 (ready alice_bob []) = (Ok tt, w') /\
    lookup_conn (get conn0) (ready alice_bob []) = Some (h, c) /\
    users (db_at (path c) (ready alice_bob [])) = Some t /\
    trace w' = trace (ready alice_bob []) ++
      [EPrepare (get conn0) sql_insert SQLITE_OK (Some s);
       EBindText (Some s) 1 (Name r) SQLITE_OK;
       EBindInt (Some s) 2 (Age r) SQLITE_OK;
       EStep (Some s) SQLITE_DONE;
       EFinalize (Some s) SQLITE_OK] /\
    Name r = until_nul (c_str "Robert'); DROP TABLE Users;--") /\
    (has_nul "Robert'); DROP TABLE Users;--" = false -> Name r = "Robert'); DROP TABLE Users;--") /\
    Age r = 30 /\
    disk w' = <[path c := {| users := Some {| rows := rows t ++ [r]; seq := ID r |} |}]>
                (disk (ready alice_bob [])).
Proof.
  exists (insertData conn0 "Robert'); DROP TABLE Users;--" 30 (ready alice_bob [])).2.
  destruct (insertData_binds_and_stores conn0 "Robert'); DROP TABLE Users;--" 30
              (ready alice_bob [])
              (insertData conn0 "Robert'); DROP TABLE Users;--" 30 (ready alice_bob [])).2)
    as (h & c & t & s & r & H).
  - vm_compute. reflexivity.
  - exists h, c, t, s, r. split; [vm_compute; reflexivity | exact H].
Defined.

(** C5 as stated fails for a name with a zero byte in it: the name
    passes validation, the insert completes, and the stored text is
    only the part before that byte. *)
Lemma insertData_stops_at_nul :
  validateInput name_with_nul 30 = Ok tt /\
  (insertData conn0 name_with_nul 30 (ready no_rows [])).1 = Ok tt /\
  disk (insertData conn0 name_with_nul 30 (ready no_rows [])).2 !! "test.db" =
    Some {| users := Some {| rows := [{| ID := 1; Name := "A"; Age := 30 |}]; seq := 1 |} |} /\
  "A" <> name_with_nul.
Proof.
  split; [reflexivity |]. split; [vm_compute; reflexivity |].
  split; [vm_compute; reflexivity | discriminate].
Qed.

(** C7, as amended.  After a completed [insertData], a completed
    [readData] prints the rows the table held before, in their order,
    followed by exactly one more row.  That row carries the inserted age
    and the inserted name up to its first zero byte (the whole name when
    it has none); its id is larger than the id of every row already
    stored and larger than the counter of ids handed out so far.  A
    [readData] before the insert prints the earlier rows only. *)
Theorem insertData_then_readData
    (dbConn : DatabaseConnection) (name : string) (age : Z) (w w1 w2 : World) :
  insertData dbConn name age w = (Ok tt, w1) ->
  readData dbConn w1 = (Ok tt, w2) ->
  exists h c t r,
    lookup_conn (get dbConn) w = Some (h, c) /\
    users (db_at (path c) w) = Some t /\
    cout w2 = cout w1 ++ flat_map show_row (rows t) ++ show_row r /\
    Name r = until_nul (c_str name) /\
    (has_nul name = false -> Name r = name) /\
    Age r = age /\
    Forall (fun r0 => ID r0 < ID r) (rows t) /\
    seq t < ID r /\
    (forall w0, readData dbConn w = (Ok tt, w0) ->
                cout w0 = cout w ++ flat_map show_row (rows t)).
Proof.
  intros Hi Hr.
  apply insertData_ok_inv in Hi as (h & c & t & s & Hc & Hu & _ & Hd & Hcs & _ & _ & _).
  apply readData_ok_inv in Hr as (h1 & c1 & t1 & Hc1 & Hu1 & Ho & _).
  rewrite (lookup_conn_same _ _ _ Hcs), Hc in Hc1. inversion Hc1; subst h1 c1; clear Hc1.
  unfold db_at in Hu1. rewrite Hd, lookup_insert_eq in Hu1. simpl in Hu1.
  inversion Hu1; subst t1; clear Hu1. simpl in Ho.
  exists h, c, t,
    {| ID := Z.max (seq t) (max_id (rows t)) + 1; Name := until_nul (c_str name); Age := age |}.
  simpl. repeat split; auto.
  - rewrite Ho, flat_map_app. simpl. reflexivity.
  - apply until_nul_c_str.
  - eapply Forall_impl; [apply max_id_upper |]. simpl. intros; lia.
  - lia.
  - intros w0 H0.
    apply readData_ok_inv in H0 as (h0 & c0 & t0 & Hc0 & Hu0 & Ho0 & _).
    rewrite Hc in Hc0. inversion Hc0; subst h0 c0.
    rewrite Hu in Hu0. inversion Hu0; subst t0. exact Ho0.
Qed.

Lemma insertData_then_readData_witness :
  exists w1 w2 h c t r,
    insertData conn0 "Carol" 41 (ready alice_bob []) = (Ok tt, w1) /\
    readData conn0 w1 = (Ok tt, w2) /\
    lookup_conn (get conn0) (ready alice_bob []) = Some (h, c) /\
    users (db_at (path c) (ready alice_bob [])) = Some t /\
    cout w2 = cout w1 ++ flat_map show_row (rows t) ++ show_row r /\
    Name r = until_nul (c_str "Carol") /\
    (has_nul "Carol" = false -> Name r = "Carol") /\
    Age r = 41 /\
    Forall (fun r0 => ID r0 < ID r) (rows t) /\
    seq t < ID r /\
    (forall w0, readData conn0 (ready alice_bob []) = (Ok tt, w0) ->
                cout w0 = cout (ready alice_bob []) ++ flat_map show_row (rows t)).
Proof.
  exists (insertData conn0 "Carol" 41 (ready alice_bob [])).2.
  exists (readData conn0 (insertData conn0 "Carol" 41 (ready alice_bob [])).2).2.
  destruct (insertData_then_readData conn0 "Carol" 41 (ready alice_bob [])
              (insertData conn0 "Carol" 41 (ready alice_bob [])).2
              (readData conn0 (insertData conn0 "Carol" 41 (ready alice_bob [])).2).2)
    as (h & c & t & r & H).
  - vm_compute. reflexivity.
  - vm_compute. reflexivity.
  - exists h, c, t, r.
    split; [vm_compute; reflexivity |]. split; [vm_compute; reflexivity | exact H].
Defined.

(** C7 as stated fails for the same kind of name: the row that
    [readData] prints after the insert carries the name "A", not the
    three bytes that were inserted. *)
Lemma readData_shows_name_up_to_nul :
  (insertData conn0 name_with_nul 30 (ready no_rows [])).1 = Ok tt /\
  (readData conn0 (insertData conn0 name_with_nul 30 (ready no_rows [])).2).1 = Ok tt /\
  cout (readData conn0 (insertData conn0 name_with_nul 30 (ready no_rows [])).2).2 =
    ["Operation completed successfully!";
     "ID: 1"; "Name: A"; "Age: 30"; "-----------------------"] /\
  "Name: A" <> "Name: " +:+ name_with_nul.
Proof.
  split; [vm_compute; reflexivity |]. split; [vm_compute; reflexivity |].
  split; [vm_compute; reflexivity | discriminate].
Qed.

(** ** Updating *)

Section Update.

(** What a completed [updateData] has done to the store: nothing, or
    the rows with the given id now carry the bound name and age. *)
Lemma updateData_ok_inv dbConn id name age w w' :
  updateData dbConn id name age w = (Ok tt, w') ->
  exists h c t d',
    lookup_conn (get dbConn) w = Some (h, c) /\
    users (db_at (path c) w) = Some t /\
    disk w' = <[path c := d']> (disk w) /\
    (d' = db_at (path c) w \/
     d' = {| users := Some {| rows := map (set_row id (until_nul (c_str name)) age) (rows t);
                              seq := seq t |} |}) /\
    (calm w ->
     d' = {| users := Some {| rows := map (set_row id (until_nul (c_str name)) age) (rows t);
                              seq := seq t |} |}) /\
    conns w' = conns w /\
    stmts w' = stmts w.
Proof.
  intros H.
  assert (Hv : validateInput name age = Ok tt).
  { unfold updateData in H. destruct (validateInput name age) as [[] | e]; [reflexivity |].
    rewrite run_lift_throw in H. discriminate. }
  apply (updateData_flow _ _ _ _ _ _ _ Hv) in H
    as (rc & stmt & w1 & Hp & [(_ & _ & ?) | (-> & H)]); [discriminate |].
  destruct H as (rc1 & w2 & rc2 & w3 & rc3 & w4 & rc4 & w5 & Hb1 & Hb2 & Hb3 & Hst & H).
  destruct H as [(_ & _ & ?) | (-> & rc5 & w6 & Hfin & -> & _)]; [discriminate |].
  destruct (prepare_frame _ _ _ _ _ _ _ Hp) as (Hd1 & Hc1 & _ & _ & _ & Hk1).
  apply prepare_ok in Hp as (h & c & p & s & Hc & _ & Hcomp & _ & -> & Hfresh & Hs1).
  vm_compute in Hcomp. inversion Hcomp; subst p; clear Hcomp.
  assert (Hl1 : stmts w1 !! s = Some {| owner := h; prog := PUpdateUser; binds := ∅ |})
    by (live_after Hs1).
  destruct (bind_text_spec _ _ _ _ _ _ _ _ Hl1 Hb1)
    as (Hd2 & (Hc2 & _ & _ & _ & Hk2) & b1 & Hs2 & Hv1).
  assert (Hl2 : stmts w2 !! s = Some {| owner := h; prog := PUpdateUser; binds := b1 |})
    by (live_after Hs2).
  destruct (bind_int_spec _ _ _ _ _ _ _ Hl2 Hb2)
    as (Hd3 & (Hc3 & _ & _ & _ & Hk3) & b2 & Hs3 & Hv2).
  assert (Hl3 : stmts w3 !! s = Some {| owner := h; prog := PUpdateUser; binds := b2 |})
    by (live_after Hs3).
  destruct (bind_int_spec _ _ _ _ _ _ _ Hl3 Hb3) as (Hd4 & (Hc4 & _) & b3 & Hs4 & Hv3).
  assert (Hl4 : stmts w4 !! s = Some {| owner := h; prog := PUpdateUser; binds := b3 |})
    by (live_after Hs4).
  destruct (lookup_conn_Some _ _ _ _ Hc) as (_ & Hch & _).
  assert (Hc4' : conns w4 !! h = Some c) by (rewrite Hc4, Hc3, Hc2, Hc1; exact Hch).
  destruct (step_spec _ _ _ _ _ _ Hl4 Hc4' Hst)
    as (Hs5 & (Hc5 & _) & _ & [(f & _ & Hf & _) | (_ & d & m & Hrun & Hd5)]).
  { destruct f; discriminate. }
  cbn [prog binds] in Hrun.
  assert (Hdb : db_at (path c) w4 = db_at (path c) w)
    by (unfold db_at; rewrite Hd4, Hd3, Hd2, Hd1; reflexivity).
  rewrite Hdb in Hrun.
  destruct (run_update_done _ _ _ _ Hrun) as (t & Hu & Hd').
  assert (Hl5 : stmts w5 !! s = Some {| owner := h; prog := PUpdateUser; binds := b3 |})
    by (rewrite Hs5; exact Hl4).
  destruct (finalize_spec _ _ _ _ _ Hl5 Hfin) as (_ & Hd6 & Hs6 & (Hc6 & _)).
  exists h, c, t, d. simpl. repeat split.
  - exact Hc.
  - exact Hu.
  - rewrite Hd6, Hd5, Hd4, Hd3, Hd2, Hd1. reflexivity.
  - destruct Hd' as [-> | (i & n & a & H3 & H1 & H2 & ->)]; [left; reflexivity |].
    right.
    assert (Hb : i = id /\ n = until_nul (c_str name) /\ a = age).
    { destruct Hv1 as [(_ & ->) | (_ & ->)]; destruct Hv2 as [(_ & ->) | (_ & ->)];
        destruct Hv3 as [(_ & ->) | (_ & ->)]; simplify_map_eq; auto. }
    destruct Hb as (-> & -> & ->). reflexivity.
  - (* undisturbed, every bind goes through *)
    intros Hcalm.
    assert (rc1 = SQLITE_OK)
      by (eapply bind_text_calm; [exact Hl1 | | | exact Hb1]; [auto | simpl; lia]).
    assert (rc2 = SQLITE_OK)
      by (eapply bind_int_calm; [exact Hl2 | | | exact Hb2]; [auto | simpl; lia]).
    assert (rc3 = SQLITE_OK)
      by (eapply bind_int_calm; [exact Hl3 | | | exact Hb3]; [auto | simpl; lia]).
    destruct Hv1 as [(_ & ->) | (? & _)]; [| contradiction].
    destruct Hv2 as [(_ & ->) | (? & _)]; [| contradiction].
    destruct Hv3 as [(_ & ->) | (? & _)]; [| contradiction].
    destruct (run_update_bound
                (<[3 := VInt id]>
                   (<[2 := VInt age]> (<[1 := VText (text_arg (c_str name) (-1))]> ∅)))
                (db_at (path c) w) t id (until_nul (c_str name)) age Hu)
      as (m' & Hrun'); [simplify_map_eq; reflexivity .. |].
    pose proof (eq_trans (eq_sym Hrun) Hrun') as E. inversion E; reflexivity.
  - rewrite Hc6, Hc5, Hc4, Hc3, Hc2, Hc1. reflexivity.
  - rewrite Hs6, Hs5, Hs4, Hs3, Hs2, Hs1.
    released Hfresh.
Qed.

Lemma set_row_frame (i : Z) (n : string) (a : Z) (rs : list Row) :
  Forall2 (fun r r' => ID r' = ID r /\ (ID r <> i -> r' = r)) rs (map (set_row i n a) rs).
Proof.
  induction rs as [| r rs IH]; simpl; constructor; [| exact IH].
  unfold set_row. destruct (ID r =? i) eqn:E; simpl.
  - apply Z.eqb_eq in E. split; [reflexivity | intros; contradiction].
  - auto.
Qed.

Lemma same_rows_frame (i : Z) (rs : list Row) :
  Forall2 (fun r r' => ID r' = ID r /\ (ID r <> i -> r' = r)) rs rs.
Proof. induction rs; constructor; auto. Qed.

End Update.

(** C9.  A completed [updateData] leaves the table in place with the
    same rows in the same order and the same id counter: each row keeps
    its id, and a row whose id is not the given one is unchanged
    altogether.  Every other file is untouched (the store changes at the
    path of this connection only).  When the environment stayed out of
    the calls, the rows with the given id carry the bound name and the
    age afterwards. *)
Theorem updateData_changes_only_that_row
    (dbConn : DatabaseConnection) (id : Z) (name : string) (age : Z) (w w' : World) :
  updateData dbConn id name age w = (Ok tt, w') ->
  exists h c t t',
    lookup_conn (get dbConn) w = Some (h, c) /\
    users (db_at (path c) w) = Some t /\
    disk w' = <[path c := {| users := Some t' |}]> (disk w) /\
    seq t' = seq t /\
    Forall2 (fun r r' => ID r' = ID r /\ (ID r <> id -> r' = r)) (rows t) (rows t') /\
    (calm w -> rows t' = map (set_row id (until_nul (c_str name)) age) (rows t)).
Proof.
  intros H.
  apply updateData_ok_inv in H as (h & c & t & d' & Hc & Hu & Hd & Hd' & Hcalm & _).
  destruct Hd' as [-> | ->].
  - exists h, c, t, t.
    split; [exact Hc |]. split; [exact Hu |].
    split; [| split; [reflexivity | split; [apply same_rows_frame |]]].
    + rewrite Hd. destruct (db_at (path c) w) as [u]. simpl in Hu. subst u. reflexivity.
    + intros Hk. apply Hcalm in Hk. rewrite Hk in Hu. simpl in Hu.
      inversion Hu as [Ht]. rewrite <- Ht at 1. reflexivity.
  - exists h, c, t,
      {| rows := map (set_row id (until_nul (c_str name)) age) (rows t); seq := seq t |}.
    split; [exact Hc |]. split; [exact Hu |]. split; [exact Hd |]. split; [reflexivity |].
    simpl. split; [apply set_row_frame | reflexivity].
Qed.

Lemma updateData_changes_only_that_row_witness :
  exists w' h c t t',
    updateData conn0 2 "Bob" 35 (ready alice_bob []) = (Ok tt, w') /\
    lookup_conn (get conn0) (ready alice_bob []) = Some (h, c) /\
    users (db_at (path c) (ready alice_bob [])) = Some t /\
    disk w' = <[path c := {| users := Some t' |}]> (disk (ready alice_bob [])) /\
    seq t' = seq t /\
    Forall2 (fun r r' => ID r' = ID r /\ (ID r <> 2 -> r' = r)) (rows t) (rows t') /\
    (calm (ready alice_bob []) ->
     rows t' = map (set_row 2 (until_nul (c_str "Bob")) 35) (rows t)).
Proof.
  exists (updateData conn0 2 "Bob" 35 (ready alice_bob [])).2.
  destruct (updateData_changes_only_that_row conn0 2 "Bob" 35 (ready alice_bob [])
              (updateData conn0 2 "Bob" 35 (ready alice_bob [])).2)
    as (h & c & t & t' & H).
  - vm_compute. reflexivity.
  - exists h, c, t, t'. split; [vm_compute; reflexivity | exact H].
Defined.

(** The scenario of the sample run: after the update Bob is 35 and
    Alice's row is as it was. *)
Example update_bob_scenario :
  disk (updateData conn0 2 "Bob" 35 (ready alice_bob [])).2 !! "test.db" =
    Some {| users := Some {| rows := [{| ID := 1; Name := "Alice"; Age := 25 |};
                                     {| ID := 2; Name := "Bob"; Age := 35 |}];
                             seq := 2 |} |}.
Proof. vm_compute. reflexivity. Qed.

(** C8.  On an open connection whose file holds the table, with valid
    name and age, an id that no stored row has, and an environment that
    stays out of the calls, [updateData] returns normally and the store
    is the one it started with; so are the handles. *)
Theorem updateData_absent_id_no_effect
    (dbConn : DatabaseConnection) (id : Z) (name : string) (age : Z) (w : World)
    (h : nat) (c : Conn) (d : Database) (t : Table) :
  validateInput name age = Ok tt ->
  lookup_conn (get dbConn) w = Some (h, c) ->
  disk w !! path c = Some d ->
  users d = Some t ->
  Forall (fun r => ID r <> id) (rows t) ->
  calm w ->
  exists w',
    updateData dbConn id name age w = (Ok tt, w') /\
    disk w' = disk w /\ conns w' = conns w /\ stmts w' = stmts w.
Proof.
  intros Hv Hc Hdisk Hu Hrows Hcalm.
  assert (Hdb : db_at (path c) w = d) by (unfold db_at; rewrite Hdisk; reflexivity).
  destruct (updateData dbConn id name age w) as [r w'] eqn:H.
  exists w'.
  destruct (updateData_flow _ _ _ _ _ _ _ Hv H) as (rc & stmt & w1 & Hp & Hcases).
  assert (Hrc : rc = SQLITE_OK).
  { apply (prepare_calm (get dbConn) (c_str sql_update) (-1) w h c PUpdateUser rc stmt w1
             Hc Hcalm);
      [vm_compute; reflexivity | | exact Hp].
    intros _. rewrite Hdb. unfold has_table. rewrite Hu. reflexivity. }
  subst rc.
  destruct Hcases as [(Hne & _) | (_ & Hrest)]; [contradiction |].
  destruct Hrest as (rc1 & w2 & rc2 & w3 & rc3 & w4 & rc4 & w5 & Hb1 & Hb2 & Hb3 & Hst & Hend).
  destruct (prepare_frame _ _ _ _ _ _ _ Hp) as (Hd1 & Hc1 & _ & _ & _ & Hk1).
  destruct (prepare_ok _ _ _ _ _ _ Hp)
    as (h' & c' & p & s & Hc' & _ & Hcomp & _ & -> & Hfresh & Hs1).
  rewrite Hc in Hc'. inversion Hc'; subst h' c'; clear Hc'.
  vm_compute in Hcomp. inversion Hcomp; subst p; clear Hcomp.
  assert (Hl1 : stmts w1 !! s = Some {| owner := h; prog := PUpdateUser; binds := ∅ |})
    by (live_after Hs1).
  destruct (bind_text_spec _ _ _ _ _ _ _ _ Hl1 Hb1)
    as (Hd2 & (Hc2 & _ & _ & _ & Hk2) & b1 & Hs2 & _).
  assert (Hl2 : stmts w2 !! s = Some {| owner := h; prog := PUpdateUser; binds := b1 |})
    by (live_after Hs2).
  destruct (bind_int_spec _ _ _ _ _ _ _ Hl2 Hb2)
    as (Hd3 & (Hc3 & _ & _ & _ & Hk3) & b2 & Hs3 & _).
  assert (Hl3 : stmts w3 !! s = Some {| owner := h; prog := PUpdateUser; binds := b2 |})
    by (live_after Hs3).
  assert (Hrc3 : rc3 = SQLITE_OK).
  { eapply bind_int_calm; [exact Hl3 | | | exact Hb3]; [auto | simpl; lia]. }
  destruct (bind_int_spec _ _ _ _ _ _ _ Hl3 Hb3)
    as (Hd4 & (Hc4 & _ & _ & _ & Hk4) & b3 & Hs4 & Hv3).
  destruct Hv3 as [(_ & ->) | (Hne & _)]; [| contradiction].
  assert (Hl4 : stmts w4 !! s =
                Some {| owner := h; prog := PUpdateUser; binds := <[3 := VInt id]> b2 |})
    by (live_after Hs4).
  destruct (lookup_conn_Some _ _ _ _ Hc) as (_ & Hch & _).
  assert (Hc4' : conns w4 !! h = Some c) by (rewrite Hc4, Hc3, Hc2, Hc1; exact Hch).
  destruct (step_spec _ _ _ _ _ _ Hl4 Hc4' Hst)
    as (Hs5 & (Hc5 & _) & _ & [(f & Hf & _) | (_ & d' & m & Hrun & Hd5)]).
  { rewrite calm_next in Hf by auto. discriminate. }
  cbn [prog binds] in Hrun.
  assert (Hdb4 : db_at (path c) w4 = d)
    by (unfold db_at; rewrite Hd4, Hd3, Hd2, Hd1, Hdisk; reflexivity).
  rewrite Hdb4 in Hrun.
  destruct (run_update_absent (<[3 := VInt id]> b2) d t id Hu) as (m' & Hrun');
    [apply lookup_insert_eq | exact Hrows |].
  rewrite Hrun' in Hrun. inversion Hrun; subst rc4 d' m'; clear Hrun.
  destruct Hend as [(Hne & _) | (_ & rc5 & w6 & Hfin & -> & ->)]; [contradiction |].
  assert (Hl5 : stmts w5 !! s =
                Some {| owner := h; prog := PUpdateUser; binds := <[3 := VInt id]> b2 |})
    by (rewrite Hs5; exact Hl4).
  destruct (finalize_spec _ _ _ _ _ Hl5 Hfin) as (_ & Hd6 & Hs6 & (Hc6 & _)).
  simpl. repeat split.
  - rewrite Hd6, Hd5, Hd4, Hd3, Hd2, Hd1. apply insert_id. exact Hdisk.
  - rewrite Hc6, Hc5, Hc4, Hc3, Hc2, Hc1. reflexivity.
  - rewrite Hs6, Hs5, Hs4, Hs3, Hs2, Hs1.
    released Hfresh.
Qed.

Lemma updateData_absent_id_no_effect_witness :
  exists w',
    updateData conn0 7 "Bob" 35 (ready alice_bob []) = (Ok tt, w') /\
    disk w' = disk (ready alice_bob []) /\
    conns w' = conns (ready alice_bob []) /\
    stmts w' = stmts (ready alice_bob []).
Proof.
  apply (updateData_absent_id_no_effect conn0 7 "Bob" 35 (ready alice_bob [])
           0%nat {| path := "test.db"; usable := true |}
           {| users := Some alice_bob |} alice_bob).
  - reflexivity.
  - vm_compute. reflexivity.
  - vm_compute. reflexivity.
  - reflexivity.
  - repeat constructor; simpl; lia.
  - constructor.
Defined.

(** ** The result codes of the binds *)

(** C10.  Once the statement is prepared, [executePreparedSQL] makes
    exactly these engine calls: a text bind at position 1, an integer
    bind at position 2, the step, and the finalize when the step is
    done.  The codes [rc1] and [rc2] the engine gave for the binds (they
    are the ones in its log) are arbitrary and decide nothing: the step
    follows in every case, the function returns exactly when the step
    answers [SQLITE_DONE], and the only exception it can leave by is the
    one of the step.  [updateData] does the same with a third bind, the
    id at position 3. *)
Theorem bind_result_codes_are_dropped
    (dbConn : DatabaseConnection) (db : option nat) (sql : string)
    (id : Z) (name : string) (age : Z) (w : World) :
  (forall stmt w1,
     sqlite3_prepare_v2 db (c_str sql) (-1) w = ((SQLITE_OK, stmt), w1) ->
     exists rc1 rc2 rc3 w',
       executePreparedSQL db sql name age w =
         (if rc3 =? SQLITE_DONE then Ok tt
          else Throw (runtime_error
                        ("Failed to execute statement: " +:+ sqlite3_errmsg db w')),
          w') /\
       trace w' = trace w1 ++
         [EBindText stmt 1 (until_nul (c_str name)) rc1;
          EBindInt stmt 2 age rc2;
          EStep stmt rc3] ++
         (if rc3 =? SQLITE_DONE then [EFinalize stmt SQLITE_OK] else [])) /\
  (forall stmt w1,
     validateInput name age = Ok tt ->
     sqlite3_prepare_v2 (get dbConn) (c_str sql_update) (-1) w = ((SQLITE_OK, stmt), w1) ->
     exists rc1 rc2 rc3 rc4 w',
       updateData dbConn id name age w =
         (if rc4 =? SQLITE_DONE then Ok tt
          else Throw (runtime_error
                        ("Failed to update data: " +:+ sqlite3_errmsg (get dbConn) w')),
          w') /\
       trace w' = trace w1 ++
         [EBindText stmt 1 (until_nul (c_str name)) rc1;
          EBindInt stmt 2 age rc2;
          EBindInt stmt 3 id rc3;
          EStep stmt rc4] ++
         (if rc4 =? SQLITE_DONE then [EFinalize stmt SQLITE_OK] else [])).
Proof.
  split.
  - intros stmt w1 Hp.
    destruct (executePreparedSQL db sql name age w) as [r w'] eqn:H.
    apply executePreparedSQL_flow in H as (rc & stmt' & w1' & Hp' & Hcases).
    rewrite Hp in Hp'. inversion Hp'; subst rc stmt' w1'; clear Hp'.
    destruct Hcases as [(Hne & _) | (_ & Hrest)]; [contradiction |].
    destruct Hrest as (rc1 & w2 & rc2 & w3 & rc3 & w4 & Hb1 & Hb2 & Hst & Hend).
    destruct (prepare_frame _ _ _ _ _ _ _ Hp) as (_ & (Hc1 & _)).
    apply prepare_ok in Hp as (h & c & p & s & Hc & _ & _ & _ & -> & _ & Hs1).
    assert (Hl1 : stmts w1 !! s = Some {| owner := h; prog := p; binds := ∅ |})
      by (live_after Hs1).
    destruct (bind_text_spec _ _ _ _ _ _ _ _ Hl1 Hb1) as (_ & (Hc2 & _ & _ & Ht2 & _) & b1 & Hs2 & _).
    assert (Hl2 : stmts w2 !! s = Some {| owner := h; prog := p; binds := b1 |})
      by (live_after Hs2).
    destruct (bind_int_spec _ _ _ _ _ _ _ Hl2 Hb2) as (_ & (Hc3 & _ & _ & Ht3 & _) & b2 & Hs3 & _).
    assert (Hl3 : stmts w3 !! s = Some {| owner := h; prog := p; binds := b2 |})
      by (live_after Hs3).
    destruct (lookup_conn_Some _ _ _ _ Hc) as (_ & Hch & _).
    assert (Hc3' : conns w3 !! h = Some c) by (rewrite Hc3, Hc2, Hc1; exact Hch).
    destruct (step_spec _ _ _ _ _ _ Hl3 Hc3' Hst) as (Hs4 & (_ & _ & _ & Ht4 & _) & _).
    exists rc1, rc2, rc3, w'.
    destruct Hend as [(Hne & -> & ->) | (-> & rc4 & w5 & Hfin & -> & ->)].
    + apply Z.eqb_neq in Hne. rewrite Hne. split; [reflexivity |].
      rewrite Ht4, Ht3, Ht2, <- !app_assoc. reflexivity.
    + assert (Hl4 : stmts w4 !! s = Some {| owner := h; prog := p; binds := b2 |})
        by (rewrite Hs4; exact Hl3).
      destruct (finalize_spec _ _ _ _ _ Hl4 Hfin) as (_ & _ & _ & (_ & _ & _ & Ht5 & _)).
      split; [reflexivity |].
      simpl. rewrite Ht5, Ht4, Ht3, Ht2, <- !app_assoc. reflexivity.
  - intros stmt w1 Hv Hp.
    destruct (updateData dbConn id name age w) as [r w'] eqn:H.
    apply (updateData_flow _ _ _ _ _ _ _ Hv) in H as (rc & stmt' & w1' & Hp' & Hcases).
    rewrite Hp in Hp'. inversion Hp'; subst rc stmt' w1'; clear Hp'.
    destruct Hcases as [(Hne & _) | (_ & Hrest)]; [contradiction |].
    destruct Hrest as (rc1 & w2 & rc2 & w3 & rc3 & w4 & rc4 & w5 & Hb1 & Hb2 & Hb3 & Hst & Hend).
    destruct (prepare_frame _ _ _ _ _ _ _ Hp) as (_ & (Hc1 & _)).
    apply prepare_ok in Hp as (h & c & p & s & Hc & _ & _ & _ & -> & _ & Hs1).
    assert (Hl1 : stmts w1 !! s = Some {| owner := h; prog := p; binds := ∅ |})
      by (live_after Hs1).
    destruct (bind_text_spec _ _ _ _ _ _ _ _ Hl1 Hb1) as (_ & (Hc2 & _ & _ & Ht2 & _) & b1 & Hs2 & _).
    assert (Hl2 : stmts w2 !! s = Some {| owner := h; prog := p; binds := b1 |})
      by (live_after Hs2).
    destruct (bind_int_spec _ _ _ _ _ _ _ Hl2 Hb2) as (_ & (Hc3 & _ & _ & Ht3 & _) & b2 & Hs3 & _).
    assert (Hl3 : stmts w3 !! s = Some {| owner := h; prog := p; binds := b2 |})
      by (live_after Hs3).
    destruct (bind_int_spec _ _ _ _ _ _ _ Hl3 Hb3) as (_ & (Hc4 & _ & _ & Ht4 & _) & b3 & Hs4 & _).
    assert (Hl4 : stmts w4 !! s = Some {| owner := h; prog := p; binds := b3 |})
      by (live_after Hs4).
    destruct (lookup_conn_Some _ _ _ _ Hc) as (_ & Hch & _).
    assert (Hc3' : conns w4 !! h = Some c) by (rewrite Hc4, Hc3, Hc2, Hc1; exact Hch).
    destruct (step_spec _ _ _ _ _ _ Hl4 Hc3' Hst) as (Hs5 & (_ & _ & _ & Ht5 & _) & _).
    exists rc1, rc2, rc3, rc4, w'.
    destruct Hend as [(Hne & -> & ->) | (-> & rc5 & w6 & Hfin & -> & ->)].
    + apply Z.eqb_neq in Hne. rewrite Hne. split; [reflexivity |].
      rewrite Ht5, Ht4, Ht3, Ht2, <- !app_assoc. reflexivity.
    + assert (Hl5 : stmts w5 !! s = Some {| owner := h; prog := p; binds := b3 |})
        by (rewrite Hs5; exact Hl4).
      destruct (finalize_spec _ _ _ _ _ Hl5 Hfin) as (_ & _ & _ & (_ & _ & _ & Ht6 & _)).
      split; [reflexivity |].
      simpl. rewrite Ht6, Ht5, Ht4, Ht3, Ht2, <- !app_assoc. reflexivity.
Qed.

Lemma bind_result_codes_are_dropped_witness :
  (exists rc1 rc2 rc3 w',
     executePreparedSQL (Some 0%nat) sql_create "Alice" 25 (ready no_rows []) =
       (if rc3 =? SQLITE_DONE then Ok tt
        else Throw (runtime_error
                      ("Failed to execute statement: " +:+ sqlite3_errmsg (Some 0%nat) w')),
        w') /\
     trace w' =
       trace (sqlite3_prepare_v2 (Some 0%nat) (c_str sql_create) (-1) (ready no_rows [])).2 ++
       [EBindText (Some 0%nat) 1 (until_nul (c_str "Alice")) rc1;
        EBindInt (Some 0%nat) 2 25 rc2;
        EStep (Some 0%nat) rc3] ++
       (if rc3 =? SQLITE_DONE then [EFinalize (Some 0%nat) SQLITE_OK] else [])) /\
  (exists rc1 rc2 rc3 rc4 w',
     updateData conn0 2 "Bob" 35 (ready alice_bob [None; None; None; Some F_NOMEM]) =
       (if rc4 =? SQLITE_DONE then Ok tt
        else Throw (runtime_error
                      ("Failed to update data: " +:+ sqlite3_errmsg (get conn0) w')),
        w') /\
     trace w' =
       trace (sqlite3_prepare_v2 (get conn0) (c_str sql_update) (-1)
                (ready alice_bob [None; None; None; Some F_NOMEM])).2 ++
       [EBindText (Some 0%nat) 1 (until_nul (c_str "Bob")) rc1;
        EBindInt (Some 0%nat) 2 35 rc2;
        EBindInt (Some 0%nat) 3 2 rc3;
        EStep (Some 0%nat) rc4] ++
       (if rc4 =? SQLITE_DONE then [EFinalize (Some 0%nat) SQLITE_OK] else [])).
Proof.
  split.
  - apply (proj1 (bind_result_codes_are_dropped conn0 (Some 0%nat) sql_create 2 "Alice" 25
                    (ready no_rows []))).
    vm_compute. reflexivity.
  - apply (proj2 (bind_result_codes_are_dropped conn0 (Some 0%nat) sql_create 2 "Bob" 35
                    (ready alice_bob [None; None; None; Some F_NOMEM]))).
    + reflexivity.
    + vm_compute. reflexivity.
Defined.

(** The two runs above, spelled out.  The generic executor given a text
    without placeholders: both binds are refused with [SQLITE_RANGE] and
    the call still returns normally.  An update whose id bind fails for
    lack of memory: the step runs with the id unbound, matches no row,
    and the call returns normally with Bob's row as it was. *)
Example refused_binds_go_unnoticed :
  (executePreparedSQL (Some 0%nat) sql_create "Alice" 25 (ready no_rows [])).1 = Ok tt /\
  trace (executePreparedSQL (Some 0%nat) sql_create "Alice" 25 (ready no_rows [])).2 =
    [EPrepare (Some 0%nat) sql_create SQLITE_OK (Some 0%nat);
     EBindText (Some 0%nat) 1 "Alice" SQLITE_RANGE;
     EBindInt (Some 0%nat) 2 25 SQLITE_RANGE;
     EStep (Some 0%nat) SQLITE_DONE;
     EFinalize (Some 0%nat) SQLITE_OK] /\
  (updateData conn0 2 "Bob" 35 (ready alice_bob [None; None; None; Some F_NOMEM])).1 = Ok tt /\
  trace (updateData conn0 2 "Bob" 35 (ready alice_bob [None; None; None; Some F_NOMEM])).2 =
    [EPrepare (Some 0%nat) sql_update SQLITE_OK (Some 0%nat);
     EBindText (Some 0%nat) 1 "Bob" SQLITE_OK;
     EBindInt (Some 0%nat) 2 35 SQLITE_OK;
     EBindInt (Some 0%nat) 3 2 SQLITE_NOMEM;
     EStep (Some 0%nat) SQLITE_DONE;
     EFinalize (Some 0%nat) SQLITE_OK] /\
  disk (updateData conn0 2 "Bob" 35 (ready alice_bob [None; None; None; Some F_NOMEM])).2
    !! "test.db" = Some {| users := Some alice_bob |}.
Proof. repeat split; vm_compute; reflexivity. Qed.

(** ** Creating the table *)

(** A [createTable] the environment does not disturb. *)
Lemma createTable_calm db w h c :
  lookup_conn db w = Some (h, c) -> calm w ->
  exists d' w',
    createTable db w = (Ok tt, w') /\
    has_table d' = true /\
    (has_table (db_at (path c) w) = true -> d' = db_at (path c) w) /\
    disk w' = <[path c := d']> (disk w) /\
    conns w' = conns w /\ stmts w' = stmts w /\ calm w'.
Proof.
  intros Hc Hcalm. unfold createTable. rewrite run_call.
  unfold sqlite3_exec, take_fault. rewrite Hc, (calm_next _ Hcalm).
  replace (compile (until_nul (c_str sql_create))) with (Some PCreateUsers)
    by (vm_compute; reflexivity).
  change (db_at (path c) (set_faults (tail (faults w)) w)) with (db_at (path c) w).
  destruct (run_create ∅ (db_at (path c) w)) as (d' & Hrun & Ht & Hsame).
  rewrite Hrun. simpl.
  exists d'. eexists. split; [reflexivity |]. simpl.
  repeat split; auto.
  eapply calm_tl; [| exact Hcalm]. reflexivity.
Qed.

(** C6.  On an open connection, with an environment that stays out of
    the calls, two [createTable] calls in a row both return normally
    (neither throws "Failed to create table"), the table exists after
    the first, and the second leaves the store and the handles exactly
    as the first left them. *)
Theorem createTable_twice
    (db : option nat) (w : World) (h : nat) (c : Conn) :
  lookup_conn db w = Some (h, c) ->
  calm w ->
  exists w1 w2,
    createTable db w = (Ok tt, w1) /\
    createTable db w1 = (Ok tt, w2) /\
    has_table (db_at (path c) w1) = true /\
    disk w2 = disk w1 /\ conns w2 = conns w1 /\ stmts w2 = stmts w1.
Proof.
  intros Hc Hcalm.
  destruct (createTable_calm db w h c Hc Hcalm)
    as (d1 & w1 & H1 & Ht1 & _ & Hd1 & Hc1 & Hs1 & Hcalm1).
  assert (Hc' : lookup_conn db w1 = Some (h, c))
    by (rewrite (lookup_conn_same _ _ _ Hc1); exact Hc).
  assert (Hdb : db_at (path c) w1 = d1)
    by (unfold db_at; rewrite Hd1, lookup_insert_eq; reflexivity).
  destruct (createTable_calm db w1 h c Hc' Hcalm1)
    as (d2 & w2 & H2 & _ & Hsame & Hd2 & Hc2 & Hs2 & _).
  exists w1, w2. repeat split; auto.
  - rewrite Hdb. exact Ht1.
  - rewrite Hd2, Hsame by (rewrite Hdb; exact Ht1).
    rewrite Hdb, Hd1. apply insert_insert_eq.
Qed.

Lemma createTable_twice_witness :
  exists w1 w2,
    createTable (Some 0%nat) (ready alice_bob []) = (Ok tt, w1) /\
    createTable (Some 0%nat) w1 = (Ok tt, w2) /\
    has_table (db_at "test.db" w1) = true /\
    disk w2 = disk w1 /\ conns w2 = conns w1 /\ stmts w2 = stmts w1.
Proof.
  apply (createTable_twice (Some 0%nat) (ready alice_bob []) 0%nat
           {| path := "test.db"; usable := true |}).
  - vm_compute. reflexivity.
  - constructor.
Defined.

(** ** Releasing statements and connections *)

(** Where the statement of [executePreparedSQL] ends up, by the way the
    function leaves: released after a normal return, never allocated
    when preparation fails, and still live when the step fails. *)
Lemma executePreparedSQL_statement_fate db sql name age w r w' :
  executePreparedSQL db sql name age w = (r, w') ->
  (r = Ok tt -> stmts w' = stmts w) /\
  (forall m, r = Throw (runtime_error ("Failed to prepare statement: " +:+ m)) ->
             stmts w' = stmts w) /\
  (forall m, r = Throw (runtime_error ("Failed to execute statement: " +:+ m)) ->
             exists s, stmts w !! s = None /\ is_Some (stmts w' !! s)).
Proof.
  intros H.
  apply executePreparedSQL_flow in H as (rc & stmt & w1 & Hp & Hcases).
  destruct Hcases as [(Hne & -> & ->) | (-> & Hrest)].
  - destruct (prepare_fail _ _ _ _ _ _ _ Hp Hne) as (_ & Hs).
    split; [discriminate |]. split; [intros; exact Hs |].
    intros m Hm. simpl in Hm. discriminate.
  - destruct Hrest as (rc1 & w2 & rc2 & w3 & rc3 & w4 & Hb1 & Hb2 & Hst & Hend).
    destruct (prepare_frame _ _ _ _ _ _ _ Hp) as (_ & (Hc1 & _)).
    apply prepare_ok in Hp as (h & c & p & s & Hc & _ & _ & _ & -> & Hfresh & Hs1).
    assert (Hl1 : stmts w1 !! s = Some {| owner := h; prog := p; binds := ∅ |})
      by (live_after Hs1).
    destruct (bind_text_spec _ _ _ _ _ _ _ _ Hl1 Hb1) as (_ & (Hc2 & _) & b1 & Hs2 & _).
    assert (Hl2 : stmts w2 !! s = Some {| owner := h; prog := p; binds := b1 |})
      by (live_after Hs2).
    destruct (bind_int_spec _ _ _ _ _ _ _ Hl2 Hb2) as (_ & (Hc3 & _) & b2 & Hs3 & _).
    assert (Hl3 : stmts w3 !! s = Some {| owner := h; prog := p; binds := b2 |})
      by (live_after Hs3).
    destruct (lookup_conn_Some _ _ _ _ Hc) as (_ & Hch & _).
    assert (Hc3' : conns w3 !! h = Some c) by (rewrite Hc3, Hc2, Hc1; exact Hch).
    destruct (step_spec _ _ _ _ _ _ Hl3 Hc3' Hst) as (Hs4 & _).
    assert (Hl4 : stmts w4 !! s = Some {| owner := h; prog := p; binds := b2 |})
      by (rewrite Hs4; exact Hl3).
    destruct Hend as [(_ & -> & ->) | (_ & rc4 & w5 & Hfin & -> & ->)].
    + split; [discriminate |]. split; [intros m Hm; simpl in Hm; discriminate |].
      intros _ _. exists s. split; [exact Hfresh |]. rewrite Hl4. eauto.
    + destruct (finalize_spec _ _ _ _ _ Hl4 Hfin) as (_ & _ & Hs5 & _).
      split; [| split; discriminate].
      intros _. simpl. rewrite Hs5, Hs4, Hs3, Hs2, Hs1.
      released Hfresh.
Qed.

(** The same for [updateData], which in addition may leave by the
    exception of the validation before anything is prepared. *)
Lemma updateData_statement_fate dbConn id name age w r w' :
  updateData dbConn id name age w = (r, w') ->
  (r = Ok tt -> stmts w' = stmts w) /\
  (forall m, r = Throw (invalid_argument m) -> stmts w' = stmts w) /\
  (forall m, r = Throw (runtime_error ("Failed to prepare update statement: " +:+ m)) ->
             stmts w' = stmts w) /\
  (forall m, r = Throw (runtime_error ("Failed to update data: " +:+ m)) ->
             exists s, stmts w !! s = None /\ is_Some (stmts w' !! s)).
Proof.
  intros H.
  destruct (validateInput name age) as [[] | e] eqn:Hv.
  2:{ unfold updateData in H. rewrite Hv, run_lift_throw in H. inversion H; subst.
      split; [discriminate |]. split; [reflexivity |].
      destruct (validateInput_cases name age) as [E | [E | E]];
        rewrite E in Hv; inversion Hv; subst; split; discriminate. }
  apply (updateData_flow _ _ _ _ _ _ _ Hv) in H as (rc & stmt & w1 & Hp & Hcases).
  destruct Hcases as [(Hne & -> & ->) | (-> & Hrest)].
  - destruct (prepare_fail _ _ _ _ _ _ _ Hp Hne) as (_ & Hs).
    split; [discriminate |]. split; [discriminate |]. split; [intros; exact Hs |].
    intros m Hm. simpl in Hm. discriminate.
  - destruct Hrest as (rc1 & w2 & rc2 & w3 & rc3 & w4 & rc4 & w5 & Hb1 & Hb2 & Hb3 & Hst & Hend).
    destruct (prepare_frame _ _ _ _ _ _ _ Hp) as (_ & (Hc1 & _)).
    apply prepare_ok in Hp as (h & c & p & s & Hc & _ & _ & _ & -> & Hfresh & Hs1).
    assert (Hl1 : stmts w1 !! s = Some {| owner := h; prog := p; binds := ∅ |})
      by (live_after Hs1).
    destruct (bind_text_spec _ _ _ _ _ _ _ _ Hl1 Hb1) as (_ & (Hc2 & _) & b1 & Hs2 & _).
    assert (Hl2 : stmts w2 !! s = Some {| owner := h; prog := p; binds := b1 |})
      by (live_after Hs2).
    destruct (bind_int_spec _ _ _ _ _ _ _ Hl2 Hb2) as (_ & (Hc3 & _) & b2 & Hs3 & _).
    assert (Hl3 : stmts w3 !! s = Some {| owner := h; prog := p; binds := b2 |})
      by (live_after Hs3).
    destruct (bind_int_spec _ _ _ _ _ _ _ Hl3 Hb3) as (_ & (Hc4 & _) & b3 & Hs4 & _).
    assert (Hl4 : stmts w4 !! s = Some {| owner := h; prog := p; binds := b3 |})
      by (live_after Hs4).
    destruct (lookup_conn_Some _ _ _ _ Hc) as (_ & Hch & _).
    assert (Hc4' : conns w4 !! h = Some c) by (rewrite Hc4, Hc3, Hc2, Hc1; exact Hch).
    destruct (step_spec _ _ _ _ _ _ Hl4 Hc4' Hst) as (Hs5 & _).
    assert (Hl5 : stmts w5 !! s = Some {| owner := h; prog := p; binds := b3 |})
      by (rewrite Hs5; exact Hl4).
    destruct Hend as [(_ & -> & ->) | (_ & rc5 & w6 & Hfin & -> & ->)].
    + split; [discriminate |]. split; [discriminate |].
      split; [intros m Hm; simpl in Hm; discriminate |].
      intros _ _. exists s. split; [exact Hfresh |]. rewrite Hl5. eauto.
    + destruct (finalize_spec _ _ _ _ _ Hl5 Hfin) as (_ & _ & Hs6 & _).
      split; [| repeat split; discriminate].
      intros _. simpl. rewrite Hs6, Hs5, Hs4, Hs3, Hs2, Hs1. released Hfresh.
Qed.

(** The close calls of a block that owns a [DatabaseConnection]: none
    when the constructor throws, and exactly one, after the body, when
    it completes. *)
Lemma with_DatabaseConnection_close_calls {A : Type} dbName
    (body : DatabaseConnection -> M A) w r w' :
  with_DatabaseConnection dbName body w = (r, w') ->
  (exists e rc h,
     r = Throw e /\
     trace w' = trace w ++ [EOpen (until_nul (c_str dbName)) rc h] /\
     rc <> SQLITE_OK /\
     forall n, h = Some n -> conns w !! n = None /\ is_Some (conns w' !! n)) \/
  (exists dbConn w1 w2 rc,
     DatabaseConnection_ctor dbName w = (Ok dbConn, w1) /\
     body dbConn w1 = (r, w2) /\
     trace w' = trace w2 ++ [EClose (db dbConn) rc]).
Proof.
  unfold with_DatabaseConnection.
  destruct (DatabaseConnection_ctor dbName w) as [[dbConn | e] w1] eqn:Hctor.
  - destruct (body dbConn w1) as [r2 w2] eqn:Hb.
    unfold DatabaseConnection_dtor. rewrite run_call.
    destruct (sqlite3_close (db dbConn) w2) as [rc w3] eqn:Hcl. simpl.
    intros H; inversion H; subst. right.
    exists dbConn, w1, w2, rc. repeat split; auto.
    unfold sqlite3_close in Hcl.
    destruct (db dbConn) as [n |]; [| inversion Hcl; reflexivity].
    destruct (conns w2 !! n); [| inversion Hcl; reflexivity].
    destruct (has_stmt_of n w2); inversion Hcl; reflexivity.
  - intros H; inversion H; subst. left.
    unfold DatabaseConnection_ctor in Hctor. rewrite run_call in Hctor.
    unfold sqlite3_open, take_fault in Hctor.
    destruct (next_fault w) as [f |]; [| discriminate].
    exists e.
    destruct f; simpl in Hctor; inversion Hctor; subst; simpl;
      eexists; eexists; (split; [reflexivity |]); (split; [reflexivity |]);
      (split; [discriminate |]); intros n Hn; inversion Hn; subst;
      (split; [apply not_elem_of_dom, is_fresh | rewrite lookup_insert_eq; eauto]).
Qed.

(** C1 on the failing path.  The table is there, the connection is
    open, the statement prepares and binds, and the step is answered
    with [SQLITE_BUSY] because the file is locked.  [insertData] (through
    [executePreparedSQL]) and [updateData] leave by the exception of the
    step; no finalize call was made and the statement handle prepared by
    the call is still live afterwards. *)
Theorem step_failure_keeps_statement :
  stmts (ready alice_bob [None; None; None; Some F_BUSY]) !! 0%nat = None /\
  (insertData conn0 "Carol" 41 (ready alice_bob [None; None; None; Some F_BUSY])).1 =
    Throw (runtime_error "Failed to execute statement: database is locked") /\
  trace (insertData conn0 "Carol" 41 (ready alice_bob [None; None; None; Some F_BUSY])).2 =
    [EPrepare (Some 0%nat) sql_insert SQLITE_OK (Some 0%nat);
     EBindText (Some 0%nat) 1 "Carol" SQLITE_OK;
     EBindInt (Some 0%nat) 2 41 SQLITE_OK;
     EStep (Some 0%nat) SQLITE_BUSY] /\
  stmts (insertData conn0 "Carol" 41 (ready alice_bob [None; None; None; Some F_BUSY])).2
    !! 0%nat =
    Some {| owner := 0; prog := PInsertUser;
            binds := <[2 := VInt 41]> (<[1 := VText "Carol"]> ∅) |} /\
  (updateData conn0 2 "Bob" 35 (ready alice_bob [None; None; None; None; Some F_BUSY])).1 =
    Throw (runtime_error "Failed to update data: database is locked") /\
  trace (updateData conn0 2 "Bob" 35 (ready alice_bob [None; None; None; None; Some F_BUSY])).2 =
    [EPrepare (Some 0%nat) sql_update SQLITE_OK (Some 0%nat);
     EBindText (Some 0%nat) 1 "Bob" SQLITE_OK;
     EBindInt (Some 0%nat) 2 35 SQLITE_OK;
     EBindInt (Some 0%nat) 3 2 SQLITE_OK;
     EStep (Some 0%nat) SQLITE_BUSY] /\
  stmts (updateData conn0 2 "Bob" 35 (ready alice_bob [None; None; None; None; Some F_BUSY])).2
    !! 0%nat =
    Some {| owner := 0; prog := PUpdateUser;
            binds := <[3 := VInt 2]> (<[2 := VInt 35]> (<[1 := VText "Bob"]> ∅)) |}.
Proof. repeat split; vm_compute; reflexivity. Qed.

(** C2 on the failing paths.  First run of [main]: the file cannot be
    opened; the engine has handed out handle 0 all the same, the
    constructor throws, no close call is ever made and the handle is
    still held when [main] returns.  Second run: the first insert fails
    at its step and leaves its statement live, so the one close call the
    destructor makes is refused with [SQLITE_BUSY] and the handle is
    still held when [main] returns. *)
Theorem main_keeps_handle_after_failure :
  (main (set_faults [Some F_CANTOPEN] world0)).1 = Ok 0 /\
  trace (main (set_faults [Some F_CANTOPEN] world0)).2 =
    [EOpen "test.db" SQLITE_CANTOPEN (Some 0%nat)] /\
  conns (main (set_faults [Some F_CANTOPEN] world0)).2 !! 0%nat =
    Some {| path := "test.db"; usable := false |} /\
  cerr (main (set_faults [Some F_CANTOPEN] world0)).2 =
    ["Error: Failed to open database: unable to open database file"] /\
  (main (set_faults [None; None; None; None; None; Some F_BUSY] world0)).1 = Ok 0 /\
  trace (main (set_faults [None; None; None; None; None; Some F_BUSY] world0)).2 =
    [EOpen "test.db" SQLITE_OK (Some 0%nat);
     EExec (Some 0%nat) sql_create SQLITE_OK;
     EPrepare (Some 0%nat) sql_insert SQLITE_OK (Some 0%nat);
     EBindText (Some 0%nat) 1 "Alice" SQLITE_OK;
     EBindInt (Some 0%nat) 2 25 SQLITE_OK;
     EStep (Some 0%nat) SQLITE_BUSY;
     EClose (Some 0%nat) SQLITE_BUSY] /\
  conns (main (set_faults [None; None; None; None; None; Some F_BUSY] world0)).2 !! 0%nat =
    Some {| path := "test.db"; usable := true |} /\
  cerr (main (set_faults [None; None; None; None; None; Some F_BUSY] world0)).2 =
    ["Error: Failed to execute statement: database is locked"].
Proof. repeat split; vm_compute; reflexivity. Qed.

(** * Further properties of the program *)

(** ** What every engine call leaves alone *)

Section Frames.

Lemma bind_value_frame stmt idx v w rc w' :
  bind_value stmt idx v w = (rc, w') ->
  disk w' = disk w /\ conns w' = conns w /\ cout w' = cout w /\ cerr w' = cerr w /\
  trace w' = trace w /\ (faults w' = faults w \/ faults w' = tl (faults w)).
Proof.
  unfold bind_value, take_fault.
  destruct (lookup_stmt stmt w) as [[s st] |]; [| intros H; inversion H; subst; tauto].
  destruct (next_fault w); [intros H; inversion H; subst; simpl; tauto |].
  destruct (_ && _); intros H; inversion H; subst; simpl; tauto.
Qed.

Lemma bind_text_frame stmt idx z n w rc w' :
  sqlite3_bind_text stmt idx z n w = (rc, w') ->
  disk w' = disk w /\ quiet_call (EBindText stmt idx (text_arg z n) rc) w w'.
Proof.
  unfold sqlite3_bind_text. destruct (bind_value _ _ _ w) as [rc0 w0] eqn:Hb.
  intros H; inversion H; subst.
  destruct (bind_value_frame _ _ _ _ _ _ Hb) as (H1 & H2 & H3 & H4 & H5 & H6).
  split; [exact H1 |]. apply quiet_call_intro; simpl; auto. rewrite H5. reflexivity.
Qed.

Lemma bind_int_frame stmt idx v w rc w' :
  sqlite3_bind_int stmt idx v w = (rc, w') ->
  disk w' = disk w /\ quiet_call (EBindInt stmt idx v rc) w w'.
Proof.
  unfold sqlite3_bind_int. destruct (bind_value _ _ _ w) as [rc0 w0] eqn:Hb.
  intros H; inversion H; subst.
  destruct (bind_value_frame _ _ _ _ _ _ Hb) as (H1 & H2 & H3 & H4 & H5 & H6).
  split; [exact H1 |]. apply quiet_call_intro; simpl; auto. rewrite H5. reflexivity.
Qed.

Lemma step_frame stmt w rc w' :
  sqlite3_step stmt w = (rc, w') ->
  stmts w' = stmts w /\ quiet_call (EStep stmt rc) w w'.
Proof.
  unfold sqlite3_step, take_fault.
  destruct (lookup_stmt stmt w) as [[s st] |].
  2:{ intros H; inversion H; subst. split; [| apply quiet_call_intro]; auto. }
  destruct (conns w !! owner st).
  2:{ intros H; inversion H; subst. split; [| apply quiet_call_intro]; auto. }
  destruct (next_fault w).
  { intros H; inversion H; subst. split; [| apply quiet_call_intro]; auto. }
  simpl. destruct (run _ _ _) as [[rc0 d] m].
  intros H; inversion H; subst. split; [| apply quiet_call_intro]; auto.
Qed.

Lemma finalize_frame stmt w rc w' :
  sqlite3_finalize stmt w = (rc, w') ->
  disk w' = disk w /\ quiet_call (EFinalize stmt rc) w w'.
Proof.
  unfold sqlite3_finalize.
  destruct stmt as [s |].
  2:{ intros H; inversion H; subst. split; [| apply quiet_call_intro]; auto. }
  destruct (stmts w !! s);
    intros H; inversion H; subst; (split; [| apply quiet_call_intro]); auto.
Qed.

(** A run that is not done has changed nothing. *)
Lemma run_not_done p b d rc d' m :
  run p b d = (rc, d', m) -> rc <> SQLITE_DONE -> d' = d.
Proof.
  unfold run. intros H Hne.
  destruct p; destruct (users d) as [t |]; try (inversion H; subst; congruence).
  - destruct (b !! 1) as [[? | ?] |]; destruct (b !! 2) as [[? | ?] |];
      try (inversion H; subst; congruence).
    destruct (INT64_MAX <? _); inversion H; subst; congruence.
  - destruct (rows t); inversion H; subst; congruence.
  - destruct (b !! 3) as [[i | ?] |]; try (inversion H; subst; congruence).
    destruct (forallb _ _); [inversion H; subst; congruence |].
    destruct (b !! 1) as [[? | ?] |]; destruct (b !! 2) as [[? | ?] |];
      inversion H; subst; congruence.
Qed.

(** A statement that was compiled against an existing table finds the
    file of its connection on disk. *)
Lemma table_on_disk p w :
  has_table (db_at p w) = true -> disk w !! p = Some (db_at p w).
Proof.
  unfold db_at. destruct (disk w !! p); [reflexivity | discriminate].
Qed.

Lemma run_create_done b d rc d' m :
  run PCreateUsers b d = (rc, d', m) -> rc = SQLITE_DONE.
Proof. unfold run. destruct (users d); intros H; inversion H; reflexivity. Qed.

End Frames.

(** ** How the writers leave the world when they throw *)

Section WriterFrames.

Lemma executePreparedSQL_frame db sql name age w r w' :
  executePreparedSQL db sql name age w = (r, w') ->
  conns w' = conns w /\ cerr w' = cerr w /\ (calm w -> calm w') /\
  (r <> Ok tt -> disk w' = disk w /\ cout w' = cout w).
Proof.
  intros H.
  apply executePreparedSQL_flow in H as (rc & stmt & w1 & Hp & Hcases).
  destruct (prepare_frame _ _ _ _ _ _ _ Hp) as (Hd1 & Hc1 & Ho1 & He1 & _ & Hk1).
  destruct Hcases as [(Hne & -> & ->) | (-> & Hrest)].
  { repeat split; auto. }
  destruct Hrest as (rc1 & w2 & rc2 & w3 & rc3 & w4 & Hb1 & Hb2 & Hst & Hend).
  destruct (bind_text_frame _ _ _ _ _ _ _ Hb1) as (Hd2 & Hc2 & Ho2 & He2 & _ & Hk2).
  destruct (bind_int_frame _ _ _ _ _ _ Hb2) as (Hd3 & Hc3 & Ho3 & He3 & _ & Hk3).
  destruct (step_frame _ _ _ _ Hst) as (_ & Hc4 & Ho4 & He4 & _ & Hk4).
  destruct Hend as [(Hne & -> & ->) | (-> & rc4 & w5 & Hfin & -> & ->)].
  - split; [rewrite Hc4, Hc3, Hc2, Hc1; reflexivity |].
    split; [rewrite He4, He3, He2, He1; reflexivity |].
    split; [auto 10 |]. intros _.
    split; [| rewrite Ho4, Ho3, Ho2, Ho1; reflexivity].
    (* the failed step has not written *)
    apply prepare_ok in Hp as (h & c & p & s & Hc & _ & _ & Htab & -> & _ & Hs1).
    assert (Hl1 : stmts w1 !! s = Some {| owner := h; prog := p; binds := ∅ |})
      by (live_after Hs1).
    destruct (bind_text_spec _ _ _ _ _ _ _ _ Hl1 Hb1) as (_ & _ & b1 & Hs2 & _).
    assert (Hl2 : stmts w2 !! s = Some {| owner := h; prog := p; binds := b1 |})
      by (live_after Hs2).
    destruct (bind_int_spec _ _ _ _ _ _ _ Hl2 Hb2) as (_ & _ & b2 & Hs3 & _).
    assert (Hl3 : stmts w3 !! s = Some {| owner := h; prog := p; binds := b2 |})
      by (live_after Hs3).
    destruct (lookup_conn_Some _ _ _ _ Hc) as (_ & Hch & _).
    assert (Hc3' : conns w3 !! h = Some c) by (rewrite Hc3, Hc2, Hc1; exact Hch).
    destruct (step_spec _ _ _ _ _ _ Hl3 Hc3' Hst)
      as (_ & _ & _ & [(f & _ & _ & Hd4) | (_ & d & m & Hrun & Hd4)]).
    + rewrite Hd4, Hd3, Hd2, Hd1. reflexivity.
    + cbn [prog binds] in Hrun.
      assert (d = db_at (path c) w3) by (eapply run_not_done; eauto). subst d.
      assert (Hdb : db_at (path c) w3 = db_at (path c) w)
        by (unfold db_at; rewrite Hd3, Hd2, Hd1; reflexivity).
      rewrite Hd4, Hdb, Hd3, Hd2, Hd1. apply insert_id, table_on_disk.
      destruct (needs_table p) eqn:Hn; [auto |].
      destruct p; try discriminate.
      apply run_create_done in Hrun. contradiction.
  - destruct (finalize_frame _ _ _ _ Hfin) as (_ & Hc5 & _ & He5 & _ & Hk5).
    split; [simpl; rewrite Hc5, Hc4, Hc3, Hc2, Hc1; reflexivity |].
    split; [simpl; rewrite He5, He4, He3, He2, He1; reflexivity |].
    split; [intros Hk; unfold calm; simpl; apply Hk5; auto 10 |].
    intros Hne. contradiction.
Qed.

Lemma updateData_frame dbConn id name age w r w' :
  updateData dbConn id name age w = (r, w') ->
  conns w' = conns w /\ cerr w' = cerr w /\ (calm w -> calm w') /\
  (r <> Ok tt -> disk w' = disk w /\ cout w' = cout w).
Proof.
  intros H.
  destruct (validateInput name age) as [[] | e] eqn:Hv.
  2:{ unfold updateData in H. rewrite Hv, run_lift_throw in H. inversion H; subst.
      repeat split; auto. }
  apply (updateData_flow _ _ _ _ _ _ _ Hv) in H as (rc & stmt & w1 & Hp & Hcases).
  destruct (prepare_frame _ _ _ _ _ _ _ Hp) as (Hd1 & Hc1 & Ho1 & He1 & _ & Hk1).
  destruct Hcases as [(Hne & -> & ->) | (-> & Hrest)].
  { repeat split; auto. }
  destruct Hrest as (rc1 & w2 & rc2 & w3 & rc3 & w4 & rc4 & w5 & Hb1 & Hb2 & Hb3 & Hst & Hend).
  destruct (bind_text_frame _ _ _ _ _ _ _ Hb1) as (Hd2 & Hc2 & Ho2 & He2 & _ & Hk2).
  destruct (bind_int_frame _ _ _ _ _ _ Hb2) as (Hd3 & Hc3 & Ho3 & He3 & _ & Hk3).
  destruct (bind_int_frame _ _ _ _ _ _ Hb3) as (Hd4 & Hc4 & Ho4 & He4 & _ & Hk4).
  destruct (step_frame _ _ _ _ Hst) as (_ & Hc5 & Ho5 & He5 & _ & Hk5).
  destruct Hend as [(Hne & -> & ->) | (-> & rc5 & w6 & Hfin & -> & ->)].
  - split; [rewrite Hc5, Hc4, Hc3, Hc2, Hc1; reflexivity |].
    split; [rewrite He5, He4, He3, He2, He1; reflexivity |].
    split; [auto 10 |]. intros _.
    split; [| rewrite Ho5, Ho4, Ho3, Ho2, Ho1; reflexivity].
    apply prepare_ok in Hp as (h & c & p & s & Hc & _ & Hcomp & Htab & -> & _ & Hs1).
    vm_compute in Hcomp. inversion Hcomp; subst p; clear Hcomp.
    assert (Hl1 : stmts w1 !! s = Some {| owner := h; prog := PUpdateUser; binds := ∅ |})
      by (live_after Hs1).
    destruct (bind_text_spec _ _ _ _ _ _ _ _ Hl1 Hb1) as (_ & _ & b1 & Hs2 & _).
    assert (Hl2 : stmts w2 !! s = Some {| owner := h; prog := PUpdateUser; binds := b1 |})
      by (live_after Hs2).
    destruct (bind_int_spec _ _ _ _ _ _ _ Hl2 Hb2) as (_ & _ & b2 & Hs3 & _).
    assert (Hl3 : stmts w3 !! s = Some {| owner := h; prog := PUpdateUser; binds := b2 |})
      by (live_after Hs3).
    destruct (bind_int_spec _ _ _ _ _ _ _ Hl3 Hb3) as (_ & _ & b3 & Hs4 & _).
    assert (Hl4 : stmts w4 !! s = Some {| owner := h; prog := PUpdateUser; binds := b3 |})
      by (live_after Hs4).
    destruct (lookup_conn_Some _ _ _ _ Hc) as (_ & Hch & _).
    assert (Hc4' : conns w4 !! h = Some c) by (rewrite Hc4, Hc3, Hc2, Hc1; exact Hch).
    destruct (step_spec _ _ _ _ _ _ Hl4 Hc4' Hst)
      as (_ & _ & _ & [(f & _ & _ & Hd5) | (_ & d & m & Hrun & Hd5)]).
    + rewrite Hd5, Hd4, Hd3, Hd2, Hd1. reflexivity.
    + cbn [prog binds] in Hrun.
      assert (d = db_at (path c) w4) by (eapply run_not_done; eauto). subst d.
      assert (Hdb : db_at (path c) w4 = db_at (path c) w)
        by (unfold db_at; rewrite Hd4, Hd3, Hd2, Hd1; reflexivity).
      rewrite Hd5, Hdb, Hd4, Hd3, Hd2, Hd1. apply insert_id, table_on_disk. auto.
  - destruct (finalize_frame _ _ _ _ Hfin) as (_ & Hc6 & _ & He6 & _ & Hk6).
    split; [simpl; rewrite Hc6, Hc5, Hc4, Hc3, Hc2, Hc1; reflexivity |].
    split; [simpl; rewrite He6, He5, He4, He3, He2, He1; reflexivity |].
    split; [intros Hk; unfold calm; simpl; apply Hk6; auto 10 |].
    intros Hne. contradiction.
Qed.

End WriterFrames.

Lemma insertData_frame dbConn name age w r w' :
  insertData dbConn name age w = (r, w') ->
  conns w' = conns w /\ cerr w' = cerr w /\ (calm w -> calm w') /\
  (r <> Ok tt -> disk w' = disk w /\ cout w' = cout w).
Proof.
  unfold insertData. destruct (validateInput name age) as [[] | e].
  - rewrite run_lift_ok. apply executePreparedSQL_frame.
  - rewrite run_lift_throw. intros H; inversion H; subst. repeat split; auto.
Qed.



(** ** The operations when nothing disturbs them *)

Section Undisturbed.

(** With both placeholders bound and an id left, the insert appends. *)
Lemma run_insert_bound b d t n a :
  users d = Some t ->
  b !! 1 = Some (VText n) -> b !! 2 = Some (VInt a) ->
  Z.max (seq t) (max_id (rows t)) + 1 <= INT64_MAX ->
  exists d' m, run PInsertUser b d = (SQLITE_DONE, d', m).
Proof.
  intros Hu H1 H2 Hi. unfold run. rewrite Hu, H1, H2.
  replace (INT64_MAX <? _) with false by (symmetry; apply Z.ltb_ge; exact Hi).
  eauto.
Qed.

Lemma insertData_calm_ok dbConn name age w h c t :
  validateInput name age = Ok tt ->
  lookup_conn (get dbConn) w = Some (h, c) ->
  users (db_at (path c) w) = Some t ->
  Z.max (seq t) (max_id (rows t)) + 1 <= INT64_MAX ->
  calm w ->
  exists w', insertData dbConn name age w = (Ok tt, w').
Proof.
  intros Hv Hc Hu Hi Hcalm.
  destruct (insertData dbConn name age w) as [r w'] eqn:H.
  exists w'. f_equal.
  unfold insertData in H. rewrite Hv, run_lift_ok in H.
  apply executePreparedSQL_flow in H as (rc & stmt & w1 & Hp & Hcases).
  assert (Hrc : rc = SQLITE_OK).
  { apply (prepare_calm (get dbConn) (c_str sql_insert) (-1) w h c PInsertUser rc stmt w1
             Hc Hcalm); [vm_compute; reflexivity | | exact Hp].
    intros _. unfold has_table. rewrite Hu. reflexivity. }
  subst rc.
  destruct Hcases as [(Hne & _) | (_ & Hrest)]; [contradiction |].
  destruct Hrest as (rc1 & w2 & rc2 & w3 & rc3 & w4 & Hb1 & Hb2 & Hst & Hend).
  destruct (prepare_frame _ _ _ _ _ _ _ Hp) as (Hd1 & Hc1 & _ & _ & _ & Hk1).
  destruct (prepare_ok _ _ _ _ _ _ Hp)
    as (h' & c' & p & s & Hc' & _ & Hcomp & _ & -> & Hfresh & Hs1).
  rewrite Hc in Hc'. inversion Hc'; subst h' c'; clear Hc'.
  vm_compute in Hcomp. inversion Hcomp; subst p; clear Hcomp.
  assert (Hl1 : stmts w1 !! s = Some {| owner := h; prog := PInsertUser; binds := ∅ |})
    by (live_after Hs1).
  assert (Hrc1 : rc1 = SQLITE_OK)
    by (eapply bind_text_calm; [exact Hl1 | | | exact Hb1]; [auto | simpl; lia]).
  destruct (bind_text_spec _ _ _ _ _ _ _ _ Hl1 Hb1)
    as (Hd2 & (Hc2 & _ & _ & _ & Hk2) & b1 & Hs2 & Hv1).
  destruct Hv1 as [(_ & ->) | (? & _)]; [| contradiction].
  assert (Hl2 : stmts w2 !! s =
                Some {| owner := h; prog := PInsertUser;
                        binds := <[1 := VText (text_arg (c_str name) (-1))]> ∅ |})
    by (live_after Hs2).
  assert (Hrc2 : rc2 = SQLITE_OK)
    by (eapply bind_int_calm; [exact Hl2 | | | exact Hb2]; [auto | simpl; lia]).
  destruct (bind_int_spec _ _ _ _ _ _ _ Hl2 Hb2)
    as (Hd3 & (Hc3 & _ & _ & _ & Hk3) & b2 & Hs3 & Hv2).
  destruct Hv2 as [(_ & ->) | (? & _)]; [| contradiction].
  cbn [binds] in Hs3.
  assert (Hl3 : stmts w3 !! s =
                Some {| owner := h; prog := PInsertUser;
                        binds := <[2 := VInt age]>
                                   (<[1 := VText (text_arg (c_str name) (-1))]> ∅) |})
    by (live_after Hs3).
  destruct (lookup_conn_Some _ _ _ _ Hc) as (_ & Hch & _).
  assert (Hc3' : conns w3 !! h = Some c) by (rewrite Hc3, Hc2, Hc1; exact Hch).
  destruct (step_spec _ _ _ _ _ _ Hl3 Hc3' Hst)
    as (_ & _ & _ & [(f & Hf & _) | (_ & d' & m & Hrun & _)]).
  { rewrite calm_next in Hf by auto. discriminate. }
  cbn [prog binds] in Hrun.
  assert (Hdb : db_at (path c) w3 = db_at (path c) w)
    by (unfold db_at; rewrite Hd3, Hd2, Hd1; reflexivity).
  rewrite Hdb in Hrun.
  destruct (run_insert_bound
              (<[2 := VInt age]> (<[1 := VText (text_arg (c_str name) (-1))]> ∅))
              (db_at (path c) w) t (text_arg (c_str name) (-1)) age Hu)
    as (d'' & m'' & Hrun'); [simplify_map_eq; reflexivity .. | exact Hi |].
  rewrite Hrun' in Hrun. inversion Hrun; subst rc3.
  destruct Hend as [(Hne & _) | (_ & rc4 & w5 & _ & _ & ->)]; [contradiction | reflexivity].
Qed.

Lemma updateData_calm_ok dbConn id name age w h c t :
  validateInput name age = Ok tt ->
  lookup_conn (get dbConn) w = Some (h, c) ->
  users (db_at (path c) w) = Some t ->
  calm w ->
  exists w', updateData dbConn id name age w = (Ok tt, w').
Proof.
  intros Hv Hc Hu Hcalm.
  destruct (updateData dbConn id name age w) as [r w'] eqn:H.
  exists w'. f_equal.
  apply (updateData_flow _ _ _ _ _ _ _ Hv) in H as (rc & stmt & w1 & Hp & Hcases).
  assert (Hrc : rc = SQLITE_OK).
  { apply (prepare_calm (get dbConn) (c_str sql_update) (-1) w h c PUpdateUser rc stmt w1
             Hc Hcalm); [vm_compute; reflexivity | | exact Hp].
    intros _. unfold has_table. rewrite Hu. reflexivity. }
  subst rc.
  destruct Hcases as [(Hne & _) | (_ & Hrest)]; [contradiction |].
  destruct Hrest as (rc1 & w2 & rc2 & w3 & rc3 & w4 & rc4 & w5 & Hb1 & Hb2 & Hb3 & Hst & Hend).
  destruct (prepare_frame _ _ _ _ _ _ _ Hp) as (Hd1 & Hc1 & _ & _ & _ & Hk1).
  destruct (prepare_ok _ _ _ _ _ _ Hp)
    as (h' & c' & p & s & Hc' & _ & Hcomp & _ & -> & Hfresh & Hs1).
  rewrite Hc in Hc'. inversion Hc'; subst h' c'; clear Hc'.
  vm_compute in Hcomp. inversion Hcomp; subst p; clear Hcomp.
  assert (Hl1 : stmts w1 !! s = Some {| owner := h; prog := PUpdateUser; binds := ∅ |})
    by (live_after Hs1).
  assert (Hrc1 : rc1 = SQLITE_OK)
    by (eapply bind_text_calm; [exact Hl1 | | | exact Hb1]; [auto | simpl; lia]).
  destruct (bind_text_spec _ _ _ _ _ _ _ _ Hl1 Hb1)
    as (Hd2 & (Hc2 & _ & _ & _ & Hk2) & b1 & Hs2 & Hv1).
  destruct Hv1 as [(_ & ->) | (? & _)]; [| contradiction].
  assert (Hl2 : stmts w2 !! s =
                Some {| owner := h; prog := PUpdateUser;
                        binds := <[1 := VText (text_arg (c_str name) (-1))]> ∅ |})
    by (live_after Hs2).
  assert (Hrc2 : rc2 = SQLITE_OK)
    by (eapply bind_int_calm; [exact Hl2 | | | exact Hb2]; [auto | simpl; lia]).
  destruct (bind_int_spec _ _ _ _ _ _ _ Hl2 Hb2)
    as (Hd3 & (Hc3 & _ & _ & _ & Hk3) & b2 & Hs3 & Hv2).
  destruct Hv2 as [(_ & ->) | (? & _)]; [| contradiction].
  cbn [binds] in Hs3.
  assert (Hl3 : stmts w3 !! s =
                Some {| owner := h; prog := PUpdateUser;
                        binds := <[2 := VInt age]>
                                   (<[1 := VText (text_arg (c_str name) (-1))]> ∅) |})
    by (live_after Hs3).
  assert (Hrc3 : rc3 = SQLITE_OK)
    by (eapply bind_int_calm; [exact Hl3 | | | exact Hb3]; [auto 10 | simpl; lia]).
  destruct (bind_int_spec _ _ _ _ _ _ _ Hl3 Hb3)
    as (Hd4 & (Hc4 & _ & _ & _ & Hk4) & b3 & Hs4 & Hv3).
  destruct Hv3 as [(_ & ->) | (? & _)]; [| contradiction].
  cbn [binds] in Hs4.
  assert (Hl4 : stmts w4 !! s =
                Some {| owner := h; prog := PUpdateUser;
                        binds := <[3 := VInt id]>
                                   (<[2 := VInt age]>
                                      (<[1 := VText (text_arg (c_str name) (-1))]> ∅)) |})
    by (live_after Hs4).
  destruct (lookup_conn_Some _ _ _ _ Hc) as (_ & Hch & _).
  assert (Hc4' : conns w4 !! h = Some c) by (rewrite Hc4, Hc3, Hc2, Hc1; exact Hch).
  destruct (step_spec _ _ _ _ _ _ Hl4 Hc4' Hst)
    as (_ & _ & _ & [(f & Hf & _) | (_ & d' & m & Hrun & _)]).
  { rewrite calm_next in Hf by auto 10. discriminate. }
  cbn [prog binds] in Hrun.
  assert (Hdb : db_at (path c) w4 = db_at (path c) w)
    by (unfold db_at; rewrite Hd4, Hd3, Hd2, Hd1; reflexivity).
  rewrite Hdb in Hrun.
  destruct (run_update_bound
              (<[3 := VInt id]>
                 (<[2 := VInt age]> (<[1 := VText (text_arg (c_str name) (-1))]> ∅)))
              (db_at (path c) w) t id (text_arg (c_str name) (-1)) age Hu)
    as (m'' & Hrun'); [simplify_map_eq; reflexivity .. |].
  rewrite Hrun' in Hrun. inversion Hrun; subst rc4.
  destruct Hend as [(Hne & _) | (_ & rc5 & w6 & _ & _ & ->)]; [contradiction | reflexivity].
Qed.

End Undisturbed.

(** ** Reading and creating, in every outcome *)

Section ReadCreate.

Lemma scan_callback_rest (rs : list Row) (w w' : World) rc :
  scan (Some callback) rs w = (rc, w') -> cerr w' = cerr w.
Proof.
  revert w. induction rs as [| r rs IH]; intros w; simpl.
  - intros H; inversion H; reflexivity.
  - unfold callback at 1. simpl. intros H. apply IH in H. rewrite H. reflexivity.
Qed.

(** [readData] in every outcome: it writes to no file and moves no
    handle; when it throws it has printed nothing. *)
Lemma readData_inv dbConn w r w' :
  readData dbConn w = (r, w') ->
  disk w' = disk w /\ conns w' = conns w /\ stmts w' = stmts w /\
  cerr w' = cerr w /\ (calm w -> calm w') /\
  (r <> Ok tt ->
   cout w' = cout w /\ exists m, r = Throw (runtime_error ("Failed to read data: " +:+ m))).
Proof.
  unfold readData. rewrite run_call.
  unfold sqlite3_exec, take_fault.
  destruct (lookup_conn (get dbConn) w) as [[h c] |] eqn:Hc.
  2:{ simpl. intros H; inversion H; subst. simpl. repeat split; eauto. }
  destruct (next_fault w) as [f |].
  { simpl. rewrite fault_code_not_ok. simpl. intros H; inversion H; subst. simpl.
    repeat split; eauto. intros Hk. eapply calm_tl; [| exact Hk]. reflexivity. }
  replace (compile (until_nul (c_str sql_select))) with (Some PSelectUsers)
    by (vm_compute; reflexivity).
  change (db_at (path c) (set_faults (tail (faults w)) w)) with (db_at (path c) w).
  destruct (users (db_at (path c) w)) as [t |] eqn:Hu.
  2:{ simpl. intros H; inversion H; subst. simpl. repeat split; eauto.
      intros Hk. eapply calm_tl; [| exact Hk]. reflexivity. }
  destruct (scan_callback (rows t) (set_faults (tail (faults w)) w))
    as (w1 & E & G1 & G2 & G3 & G4 & G5 & G6).
  rewrite E. simpl. intros H; inversion H; subst. simpl.
  rewrite G2, G3, G4, (scan_callback_rest _ _ _ _ E). simpl.
  split; [reflexivity |]. split; [reflexivity |]. split; [reflexivity |].
  split; [reflexivity |].
  split; [| intros Hne; contradiction].
  intros Hk. eapply calm_tl; [| exact Hk]. simpl. rewrite G5. reflexivity.
Qed.

Lemma readData_calm_ok dbConn w h c t :
  lookup_conn (get dbConn) w = Some (h, c) ->
  users (db_at (path c) w) = Some t ->
  calm w ->
  exists w', readData dbConn w = (Ok tt, w').
Proof.
  intros Hc Hu Hcalm. unfold readData. rewrite run_call.
  unfold sqlite3_exec, take_fault. rewrite Hc, (calm_next _ Hcalm).
  replace (compile (until_nul (c_str sql_select))) with (Some PSelectUsers)
    by (vm_compute; reflexivity).
  change (db_at (path c) (set_faults (tail (faults w)) w)) with (db_at (path c) w).
  rewrite Hu.
  destruct (scan_callback (rows t) (set_faults (tail (faults w)) w)) as (w1 & E & _).
  rewrite E. simpl. eauto.
Qed.

(** [createTable] in every outcome. *)
Lemma createTable_inv db w r w' :
  createTable db w = (r, w') ->
  conns w' = conns w /\ stmts w' = stmts w /\ cerr w' = cerr w /\ (calm w -> calm w') /\
  (r <> Ok tt ->
   disk w' = disk w /\ cout w' = cout w /\
   exists m, r = Throw (runtime_error ("Failed to create table: " +:+ m))) /\
  (r = Ok tt ->
   cout w' = cout w ++ ["Table created successfully!"] /\
   exists h c d',
     lookup_conn db w = Some (h, c) /\
     disk w' = <[path c := d']> (disk w) /\
     (has_table (db_at (path c) w) = true -> d' = db_at (path c) w) /\
     (has_table (db_at (path c) w) = false ->
      d' = {| users := Some {| rows := []; seq := 0 |} |})).
Proof.
  unfold createTable. rewrite run_call.
  unfold sqlite3_exec, take_fault.
  assert (Hkeep : forall w0, faults w0 = tl (faults w) -> calm w -> calm w0)
    by (intros w0 E Hk; eapply calm_tl; eauto).
  destruct (lookup_conn db w) as [[h c] |] eqn:Hc.
  2:{ simpl. intros H; inversion H; subst. simpl.
      do 3 (split; [reflexivity |]). split; [auto |].
      split; [| discriminate]. intros _. do 2 (split; [reflexivity |]). eauto. }
  destruct (next_fault w) as [f |].
  { simpl. rewrite fault_code_not_ok. simpl. intros H; inversion H; subst. simpl.
    do 3 (split; [reflexivity |]). split; [apply Hkeep; reflexivity |].
    split; [| discriminate]. intros _. do 2 (split; [reflexivity |]). eauto. }
  replace (compile (until_nul (c_str sql_create))) with (Some PCreateUsers)
    by (vm_compute; reflexivity).
  change (db_at (path c) (set_faults (tail (faults w)) w)) with (db_at (path c) w).
  unfold run, has_table.
  destruct (users (db_at (path c) w)) as [t |] eqn:Hu; simpl;
    intros H; inversion H; subst; simpl;
    (do 3 (split; [reflexivity |])); (split; [apply Hkeep; reflexivity |]);
    (split; [intros Hne; contradiction |]); intros _; (split; [reflexivity |]).
  - exists h, c, (db_at (path c) w).
    split; [reflexivity |]. split; [reflexivity |].
    split; [reflexivity | intros E; rewrite Hu in E; discriminate E].
  - exists h, c, {| users := Some {| rows := []; seq := 0 |} |}.
    split; [reflexivity |]. split; [reflexivity |].
    split; [intros E; rewrite Hu in E; discriminate E | reflexivity].
Qed.

Lemma createTable_calm_ok db w h c :
  lookup_conn db w = Some (h, c) -> calm w ->
  exists w', createTable db w = (Ok tt, w').
Proof.
  intros Hc Hcalm. destruct (createTable_calm db w h c Hc Hcalm) as (d' & w' & H & _).
  eauto.
Qed.

End ReadCreate.

(** ** Undisturbed operations as steps on one file *)

Section Steps.

Lemma steps_to_trans p d1 d2 l1 l2 w w1 w2 :
  steps_to p d1 l1 w w1 -> steps_to p d2 l2 w1 w2 -> steps_to p d2 (l1 ++ l2) w w2.
Proof.
  intros (H1 & H2 & H3 & H4 & H5 & _) (G1 & G2 & G3 & G4 & G5 & G6).
  repeat split; try congruence.
  - rewrite G1, H1. apply insert_insert_eq.
  - rewrite G4, H4, app_assoc. reflexivity.
Qed.

Lemma steps_to_next db p d l w w' h c :
  steps_to p d l w w' -> lookup_conn db w = Some (h, c) ->
  lookup_conn db w' = Some (h, c) /\ disk w' !! p = Some d /\ calm w'.
Proof.
  intros (H1 & H2 & _ & _ & _ & H6) Hc. split; [| split; [| exact H6]].
  - rewrite (lookup_conn_same _ _ _ H2). exact Hc.
  - rewrite H1. apply lookup_insert_eq.
Qed.

Lemma cout_line_steps s p d w :
  disk w !! p = Some d -> calm w ->
  cout_line s w = (Ok tt, print s w) /\ steps_to p d [s] w (print s w).
Proof.
  intros Hd Hk. split; [reflexivity |].
  repeat split; auto. simpl. symmetry. apply insert_id. exact Hd.
Qed.

Lemma db_at_disk p w d : disk w !! p = Some d -> db_at p w = d.
Proof. unfold db_at. intros ->. reflexivity. Qed.

Lemma createTable_steps db w h c d :
  lookup_conn db w = Some (h, c) -> disk w !! path c = Some d -> calm w ->
  exists w',
    createTable db w = (Ok tt, w') /\
    steps_to (path c)
      (if has_table d then d else {| users := Some {| rows := []; seq := 0 |} |})
      ["Table created successfully!"] w w'.
Proof.
  intros Hc Hd Hk.
  destruct (createTable_calm_ok db w h c Hc Hk) as (w' & H).
  exists w'. split; [exact H |].
  destruct (createTable_inv _ _ _ _ H) as (H2 & H3 & H5 & H6 & _ & Hok).
  destruct Hok as (H4 & h' & c' & d' & Hc' & H1 & Hsame & Hnew); [reflexivity |].
  rewrite Hc in Hc'. inversion Hc'; subst h' c'.
  rewrite (db_at_disk _ _ _ Hd) in Hsame, Hnew.
  repeat split; auto.
  rewrite H1. destruct (has_table d); [rewrite Hsame | rewrite Hnew]; reflexivity.
Qed.

Lemma insertData_steps dbConn name age w h c d t :
  validateInput name age = Ok tt ->
  lookup_conn (get dbConn) w = Some (h, c) ->
  disk w !! path c = Some d -> users d = Some t ->
  Z.max (seq t) (max_id (rows t)) + 1 <= INT64_MAX ->
  calm w ->
  exists w',
    insertData dbConn name age w = (Ok tt, w') /\
    steps_to (path c)
      {| users := Some {| rows := rows t ++ [{| ID := Z.max (seq t) (max_id (rows t)) + 1;
                                                Name := until_nul (c_str name);
                                                Age := age |}];
                          seq := Z.max (seq t) (max_id (rows t)) + 1 |} |}
      ["Operation completed successfully!"] w w'.
Proof.
  intros Hv Hc Hd Hu Hi Hk.
  assert (Hu' : users (db_at (path c) w) = Some t) by (rewrite (db_at_disk _ _ _ Hd); exact Hu).
  destruct (insertData_calm_ok dbConn name age w h c t Hv Hc Hu' Hi Hk) as (w' & H).
  exists w'. split; [exact H |].
  destruct (insertData_frame _ _ _ _ _ _ H) as (_ & H5 & H6 & _).
  apply insertData_ok_inv in H
    as (h' & c' & t' & s & Hc' & Hu'' & _ & H1 & H2 & H3 & H4 & _).
  rewrite Hc in Hc'. inversion Hc'; subst h' c'.
  rewrite Hu' in Hu''. inversion Hu''; subst t'.
  repeat split; auto.
Qed.

Lemma updateData_ok_cout dbConn id name age w w' :
  updateData dbConn id name age w = (Ok tt, w') ->
  cout w' = cout w ++ ["Record updated successfully!"].
Proof.
  intros H.
  assert (Hv : validateInput name age = Ok tt).
  { unfold updateData in H. destruct (validateInput name age) as [[] | e]; [reflexivity |].
    rewrite run_lift_throw in H. discriminate. }
  apply (updateData_flow _ _ _ _ _ _ _ Hv) in H
    as (rc & stmt & w1 & Hp & [(_ & _ & ?) | (-> & H)]); [discriminate |].
  destruct H as (rc1 & w2 & rc2 & w3 & rc3 & w4 & rc4 & w5 & Hb1 & Hb2 & Hb3 & Hst & H).
  destruct H as [(_ & _ & ?) | (-> & rc5 & w6 & Hfin & -> & _)]; [discriminate |].
  destruct (prepare_frame _ _ _ _ _ _ _ Hp) as (_ & _ & Ho1 & _).
  destruct (bind_text_frame _ _ _ _ _ _ _ Hb1) as (_ & _ & Ho2 & _).
  destruct (bind_int_frame _ _ _ _ _ _ Hb2) as (_ & _ & Ho3 & _).
  destruct (bind_int_frame _ _ _ _ _ _ Hb3) as (_ & _ & Ho4 & _).
  destruct (step_frame _ _ _ _ Hst) as (_ & _ & Ho5 & _).
  destruct (finalize_frame _ _ _ _ Hfin) as (_ & _ & Ho6 & _).
  simpl. rewrite Ho6, Ho5, Ho4, Ho3, Ho2, Ho1. reflexivity.
Qed.

Lemma updateData_steps dbConn id name age w h c d t :
  validateInput name age = Ok tt ->
  lookup_conn (get dbConn) w = Some (h, c) ->
  disk w !! path c = Some d -> users d = Some t ->
  calm w ->
  exists w',
    updateData dbConn id name age w = (Ok tt, w') /\
    steps_to (path c)
      {| users := Some {| rows := map (set_row id (until_nul (c_str name)) age) (rows t);
                          seq := seq t |} |}
      ["Record updated successfully!"] w w'.
Proof.
  intros Hv Hc Hd Hu Hk.
  assert (Hu' : users (db_at (path c) w) = Some t) by (rewrite (db_at_disk _ _ _ Hd); exact Hu).
  destruct (updateData_calm_ok dbConn id name age w h c t Hv Hc Hu' Hk) as (w' & H).
  exists w'. split; [exact H |].
  destruct (updateData_frame _ _ _ _ _ _ _ H) as (_ & H5 & H6 & _).
  pose proof (updateData_ok_cout _ _ _ _ _ _ H) as H4.
  apply updateData_ok_inv in H
    as (h' & c' & t' & d' & Hc' & Hu'' & H1 & _ & Hd' & H2 & H3).
  rewrite Hc in Hc'. inversion Hc'; subst h' c'.
  rewrite Hu' in Hu''. inversion Hu''; subst t'.
  rewrite (Hd' Hk) in H1.
  repeat split; auto.
Qed.

Lemma readData_steps dbConn w h c d t :
  lookup_conn (get dbConn) w = Some (h, c) ->
  disk w !! path c = Some d -> users d = Some t ->
  calm w ->
  exists w',
    readData dbConn w = (Ok tt, w') /\
    steps_to (path c) d (flat_map show_row (rows t)) w w'.
Proof.
  intros Hc Hd Hu Hk.
  assert (Hu' : users (db_at (path c) w) = Some t) by (rewrite (db_at_disk _ _ _ Hd); exact Hu).
  destruct (readData_calm_ok dbConn w h c t Hc Hu' Hk) as (w' & H).
  exists w'. split; [exact H |].
  destruct (readData_inv _ _ _ _ H) as (H1 & H2 & H3 & H5 & H6 & _).
  apply readData_ok_inv in H as (h' & c' & t' & Hc' & Hu'' & H4 & _).
  rewrite Hc in Hc'. inversion Hc'; subst h' c'.
  rewrite Hu' in Hu''. inversion Hu''; subst t'.
  repeat split; auto.
  rewrite H1. symmetry. apply insert_id. exact Hd.
Qed.

End Steps.

(** ** Opening and closing *)

Section OpenClose.

(** The constructor in every outcome. *)
Lemma DatabaseConnection_ctor_inv dbName w r w' :
  DatabaseConnection_ctor dbName w = (r, w') ->
  stmts w' = stmts w /\ cerr w' = cerr w /\ (calm w -> calm w') /\
  (forall p d, disk w !! p = Some d -> disk w' !! p = Some d) /\
  match r with
  | Ok dbConn =>
      exists h,
        db dbConn = Some h /\ conns w !! h = None /\ next_fault w = None /\
        conns w' = <[h := {| path := until_nul (c_str dbName); usable := true |}]> (conns w) /\
        cout w' = cout w ++ ["Database opened successfully!"] /\
        disk w' = match disk w !! until_nul (c_str dbName) with
                  | Some _ => disk w
                  | None => <[until_nul (c_str dbName) := empty_db]> (disk w)
                  end
  | Throw e =>
      exists f,
        next_fault w = Some f /\
        e = runtime_error ("Failed to open database: " +:+ fault_msg f) /\
        disk w' = disk w /\ cout w' = cout w
  end.
Proof.
  unfold DatabaseConnection_ctor. rewrite run_call.
  unfold sqlite3_open, take_fault.
  assert (Hkeep : forall w0, faults w0 = tl (faults w) -> calm w -> calm w0)
    by (intros w0 E Hk; eapply calm_tl; eauto).
  destruct (next_fault w) as [f |] eqn:Hf.
  - destruct f; simpl; intros H; inversion H; subst; simpl;
      (split; [reflexivity |]); (split; [reflexivity |]);
      (split; [apply Hkeep; reflexivity |]); (split; [auto |]);
      eexists; (split; [reflexivity |]); (split; [| split; reflexivity]);
      try reflexivity; rewrite lookup_insert_eq; reflexivity.
  - simpl. intros H; inversion H; subst; simpl.
    split; [reflexivity |]. split; [reflexivity |].
    split; [apply Hkeep; reflexivity |].
    split.
    { intros p d Hd. destruct (disk w !! until_nul (c_str dbName)) eqn:E; [exact Hd |].
      rewrite lookup_insert_ne; [exact Hd | congruence]. }
    exists (fresh (dom (conns w))). repeat split; auto.
    apply not_elem_of_dom, is_fresh.
Qed.

Lemma has_stmt_of_none h w :
  (forall s st, stmts w !! s = Some st -> owner st <> h) -> has_stmt_of h w = false.
Proof.
  intros H. unfold has_stmt_of.
  apply not_true_is_false. intros E. apply existsb_exists in E as ([s st] & Hin & Ho).
  apply list_elem_of_In, elem_of_map_to_list in Hin.
  apply Nat.eqb_eq in Ho. exact (H s st Hin Ho).
Qed.

(** The destructor in every outcome: it always returns, and writes to
    no file. *)
Lemma DatabaseConnection_dtor_inv this w :
  exists w',
    DatabaseConnection_dtor this w = (Ok tt, w') /\
    disk w' = disk w /\ stmts w' = stmts w /\ cerr w' = cerr w /\
    cout w' = cout w ++ ["Database closed successfully!"] /\
    faults w' = faults w.
Proof.
  unfold DatabaseConnection_dtor. rewrite run_call. unfold sqlite3_close.
  destruct (db this) as [h |]; [| simpl; eexists; repeat split].
  destruct (conns w !! h); [| simpl; eexists; repeat split].
  destruct (has_stmt_of h w); simpl; eexists; repeat split.
Qed.

(** The destructor on a connection none of whose statements is live. *)
Lemma DatabaseConnection_dtor_releases this h c w w' :
  db this = Some h -> conns w !! h = Some c ->
  (forall s st, stmts w !! s = Some st -> owner st <> h) ->
  DatabaseConnection_dtor this w = (Ok tt, w') ->
  conns w' = delete h (conns w) /\ trace w' = trace w ++ [EClose (Some h) SQLITE_OK].
Proof.
  intros Hdb Hc Hs. unfold DatabaseConnection_dtor. rewrite run_call. unfold sqlite3_close.
  rewrite Hdb, Hc, (has_stmt_of_none _ _ Hs). simpl.
  intros H; inversion H; subst. split; reflexivity.
Qed.

End OpenClose.

(** ** Properties kept along a computation *)

Section Preserves.
Context (P : World -> Prop).

Lemma preserves_bind {A B : Type} (m : M A) (k : A -> M B) :
  preserves P m -> (forall a, preserves P (k a)) -> preserves P (m ≫= k).
Proof.
  intros Hm Hk w r w'. rewrite run_bind.
  destruct (m w) as [[a | e] w1] eqn:E.
  - intros H Hw. eapply Hk; [exact H |]. eapply Hm; eauto.
  - intros H Hw. inversion H; subst. eapply Hm; eauto.
Qed.

Lemma preserves_ret {A : Type} (a : A) : preserves P (mret a).
Proof. intros w r w' H Hw. inversion H; subst. exact Hw. Qed.

Lemma preserves_try_catch (body : M unit) (handler : exn -> M unit) :
  preserves P body -> (forall e, preserves P (handler e)) ->
  preserves P (try_catch body handler).
Proof.
  intros Hb Hh w r w'. unfold try_catch.
  destruct (body w) as [[[] | e] w1] eqn:E.
  - intros H Hw. inversion H; subst. eapply Hb; eauto.
  - intros H Hw. eapply Hh; [exact H |]. eapply Hb; eauto.
Qed.

Lemma preserves_block {A : Type} dbName (body : DatabaseConnection -> M A) :
  preserves P (DatabaseConnection_ctor dbName) ->
  (forall c, preserves P (body c)) ->
  (forall c, preserves P (DatabaseConnection_dtor c)) ->
  preserves P (with_DatabaseConnection dbName body).
Proof.
  intros Hc Hb Hd w r w'. unfold with_DatabaseConnection.
  destruct (DatabaseConnection_ctor dbName w) as [[c | e] w1] eqn:E1.
  - destruct (body c w1) as [r2 w2] eqn:E2.
    destruct (DatabaseConnection_dtor c w2) as [r3 w3] eqn:E3.
    intros H Hw. inversion H; subst.
    eapply Hd; [exact E3 |]. eapply Hb; [exact E2 |]. eapply Hc; eauto.
  - intros H Hw. inversion H; subst. eapply Hc; eauto.
Qed.

End Preserves.

(** ** The store stays well-formed *)

Section StoreOk.

Lemma until_nul_c_str_length (s : string) :
  (String.length (until_nul (c_str s)) <= String.length s)%nat.
Proof.
  unfold c_str. induction s as [| a s IH]; simpl; [lia |].
  destruct (Ascii.eqb a NUL); simpl; lia.
Qed.

Lemma store_ok_same w w' : disk w' = disk w -> store_ok w -> store_ok w'.
Proof. unfold store_ok. intros ->. auto. Qed.

Lemma store_ok_write w w' p d :
  disk w' = <[p := d]> (disk w) ->
  (forall t, users d = Some t -> table_ok t) ->
  store_ok w -> store_ok w'.
Proof.
  unfold store_ok. intros -> Hd Hw q d' t Hq Hu.
  destruct (decide (p = q)) as [-> | Hne].
  - rewrite lookup_insert_eq in Hq. inversion Hq; subst. auto.
  - rewrite lookup_insert_ne in Hq by exact Hne. eauto.
Qed.

Lemma store_ok_table w p t :
  store_ok w -> users (db_at p w) = Some t -> table_ok t.
Proof.
  intros Hw Hu. apply (Hw p (db_at p w) t); [| exact Hu].
  apply table_on_disk. unfold has_table. rewrite Hu. reflexivity.
Qed.

Lemma table_ok_append t n a :
  table_ok t -> 0 <= a <= 150 -> (String.length n <= 100)%nat ->
  table_ok {| rows := rows t ++ [{| ID := Z.max (seq t) (max_id (rows t)) + 1;
                                    Name := n; Age := a |}];
              seq := Z.max (seq t) (max_id (rows t)) + 1 |}.
Proof.
  intros (Hr & Hn & Hs) Ha Hl. unfold table_ok. simpl. split; [| split].
  - apply Forall_app. split; [exact Hr |]. constructor; [| constructor]. split; auto.
  - rewrite map_app. apply NoDup_app. split; [exact Hn |]. split.
    + intros x Hx Hx'. simpl in Hx'. apply list_elem_of_singleton in Hx'. subst x.
      apply list_elem_of_In, in_map_iff in Hx as (r & Hid & Hin).
      pose proof (max_id_upper (rows t)) as Hm. rewrite Forall_forall in Hm.
      apply list_elem_of_In in Hin. specialize (Hm r Hin). simpl in Hm. lia.
    + simpl. apply NoDup_singleton.
  - apply Forall_app. split.
    + eapply Forall_impl; [exact Hs |]. simpl. intros; lia.
    + constructor; [simpl; lia | constructor].
Qed.

Lemma table_ok_set_row t i n a :
  table_ok t -> 0 <= a <= 150 -> (String.length n <= 100)%nat ->
  table_ok {| rows := map (set_row i n a) (rows t); seq := seq t |}.
Proof.
  intros (Hr & Hn & Hs) Ha Hl. unfold table_ok. simpl.
  assert (Hid : map ID (map (set_row i n a) (rows t)) = map ID (rows t)).
  { rewrite map_map. apply map_ext. intros r. unfold set_row.
    destruct (ID r =? i); reflexivity. }
  split; [| split].
  - apply Forall_forall. intros x Hx.
    apply list_elem_of_In, in_map_iff in Hx as (r & <- & Hin).
    rewrite Forall_forall in Hr. apply list_elem_of_In in Hin. specialize (Hr r Hin).
    unfold set_row. destruct (ID r =? i); [split; simpl; auto | exact Hr].
  - rewrite Hid. exact Hn.
  - apply Forall_forall. intros x Hx.
    apply list_elem_of_In, in_map_iff in Hx as (r & <- & Hin).
    rewrite Forall_forall in Hs. apply list_elem_of_In in Hin. specialize (Hs r Hin).
    unfold set_row. destruct (ID r =? i); simpl; exact Hs.
Qed.

Lemma insertData_ok_valid dbConn name age w w' :
  insertData dbConn name age w = (Ok tt, w') -> validateInput name age = Ok tt.
Proof.
  unfold insertData. destruct (validateInput name age) as [[] | e]; [reflexivity |].
  rewrite run_lift_throw. discriminate.
Qed.

Lemma updateData_ok_valid dbConn id name age w w' :
  updateData dbConn id name age w = (Ok tt, w') -> validateInput name age = Ok tt.
Proof.
  unfold updateData. destruct (validateInput name age) as [[] | e]; [reflexivity |].
  rewrite run_lift_throw. discriminate.
Qed.

Lemma valid_bound_text name age :
  validateInput name age = Ok tt ->
  0 <= age <= 150 /\ (String.length (until_nul (c_str name)) <= 100)%nat.
Proof.
  intros H. apply validateInput_ok in H as (Ha & Hn). split; [exact Ha |].
  pose proof (until_nul_c_str_length name). lia.
Qed.

Lemma insertData_store_ok dbConn name age : preserves store_ok (insertData dbConn name age).
Proof.
  intros w r w' H Hw. destruct r as [[] | e].
  - destruct (valid_bound_text _ _ (insertData_ok_valid _ _ _ _ _ H)) as (Ha & Hn).
    apply insertData_ok_inv in H as (h & c & t & s & _ & Hu & _ & Hd & _).
    eapply store_ok_write; [exact Hd | | exact Hw].
    simpl. intros t' E. inversion E; subst t'.
    apply table_ok_append; auto. eapply store_ok_table; eauto.
  - apply insertData_frame in H as (_ & _ & _ & Hd).
    destruct Hd as (Hd & _); [discriminate |]. eapply store_ok_same; eauto.
Qed.

Lemma updateData_store_ok dbConn id name age :
  preserves store_ok (updateData dbConn id name age).
Proof.
  intros w r w' H Hw. destruct r as [[] | e].
  - destruct (valid_bound_text _ _ (updateData_ok_valid _ _ _ _ _ _ H)) as (Ha & Hn).
    apply updateData_ok_inv in H as (h & c & t & d' & _ & Hu & Hd & Hd' & _).
    pose proof (store_ok_table _ _ _ Hw Hu) as Ht.
    eapply store_ok_write; [exact Hd | | exact Hw].
    destruct Hd' as [-> | ->].
    + intros t' E. rewrite Hu in E. inversion E; subst t'. exact Ht.
    + simpl. intros t' E. inversion E; subst t'. apply table_ok_set_row; auto.
  - apply updateData_frame in H as (_ & _ & _ & Hd).
    destruct Hd as (Hd & _); [discriminate |]. eapply store_ok_same; eauto.
Qed.

Lemma createTable_store_ok db : preserves store_ok (createTable db).
Proof.
  intros w r w' H Hw.
  destruct (createTable_inv _ _ _ _ H) as (_ & _ & _ & _ & Hfail & Hok).
  destruct r as [[] | e].
  - destruct Hok as (_ & h & c & d' & _ & Hd & Hsame & Hnew); [reflexivity |].
    eapply store_ok_write; [exact Hd | | exact Hw].
    destruct (has_table (db_at (path c) w)) eqn:E.
    + rewrite Hsame by reflexivity. intros t Hu. eapply store_ok_table; eauto.
    + rewrite Hnew by reflexivity. simpl. intros t Hu. inversion Hu; subst t.
      repeat split; simpl; constructor.
  - destruct Hfail as (Hd & _); [discriminate |]. eapply store_ok_same; eauto.
Qed.

Lemma readData_store_ok dbConn : preserves store_ok (readData dbConn).
Proof.
  intros w r w' H Hw. apply readData_inv in H as (Hd & _). eapply store_ok_same; eauto.
Qed.

Lemma cout_line_store_ok s : preserves store_ok (cout_line s).
Proof. intros w r w' H Hw. inversion H; subst. exact Hw. Qed.

Lemma cerr_line_store_ok s : preserves store_ok (cerr_line s).
Proof. intros w r w' H Hw. inversion H; subst. exact Hw. Qed.

Lemma ctor_store_ok dbName : preserves store_ok (DatabaseConnection_ctor dbName).
Proof.
  intros w r w' H Hw.
  destruct (DatabaseConnection_ctor_inv _ _ _ _ H) as (_ & _ & _ & _ & Hr).
  destruct r as [c | e].
  - destruct Hr as (h & _ & _ & _ & _ & _ & Hd).
    destruct (disk w !! until_nul (c_str dbName)).
    + eapply store_ok_same; eauto.
    + eapply store_ok_write; [exact Hd | | exact Hw]. discriminate.
  - destruct Hr as (f & _ & _ & Hd & _). eapply store_ok_same; eauto.
Qed.

Lemma dtor_store_ok c : preserves store_ok (DatabaseConnection_dtor c).
Proof.
  intros w r w' H Hw.
  destruct (DatabaseConnection_dtor_inv c w) as (w1 & E & Hd & _).
  rewrite E in H. inversion H; subst. eapply store_ok_same; eauto.
Qed.

End StoreOk.

(** ** The sample run *)

Section SampleRun.

Lemma run_seq {A B : Type} (m : M A) (k : A -> M B) (w w1 : World) (a : A) :
  m w = (Ok a, w1) -> (m ≫= k) w = k a w1.
Proof. intros H. rewrite run_bind, H. reflexivity. Qed.

(** A property every operation keeps is kept by the block of [main]. *)
Lemma main_block_preserves (P : World -> Prop) :
  (forall n, preserves P (DatabaseConnection_ctor n)) ->
  (forall c, preserves P (DatabaseConnection_dtor c)) ->
  (forall h, preserves P (createTable h)) ->
  (forall c n a, preserves P (insertData c n a)) ->
  (forall c, preserves P (readData c)) ->
  (forall c i n a, preserves P (updateData c i n a)) ->
  (forall s, preserves P (cout_line s)) ->
  preserves P
    (with_DatabaseConnection "test.db" (fun dbConn =>
       createTable (get dbConn);;
       insertData dbConn "Alice" 25;;
       insertData dbConn "Bob" 30;;
       cout_line "Current Records:";;
       readData dbConn;;
       cout_line "Updating Bob's age to 35:";;
       updateData dbConn 2 "Bob" 35;;
       cout_line "Records After Update:";;
       readData dbConn)).
Proof.
  intros Hctor Hdtor Hcreate Hins Hread Hupd Hout.
  apply preserves_block; [apply Hctor | | apply Hdtor].
  intros c.
  apply preserves_bind; [apply Hcreate | intros _].
  apply preserves_bind; [apply Hins | intros _].
  apply preserves_bind; [apply Hins | intros _].
  apply preserves_bind; [apply Hout | intros _].
  apply preserves_bind; [apply Hread | intros _].
  apply preserves_bind; [apply Hout | intros _].
  apply preserves_bind; [apply Hupd | intros _].
  apply preserves_bind; [apply Hout | intros _].
  apply Hread.
Qed.

Lemma main_store_ok : preserves store_ok main.
Proof.
  unfold main. apply preserves_bind; [| intros; apply preserves_ret].
  apply preserves_try_catch; [| intros; apply cerr_line_store_ok].
  apply main_block_preserves; intros.
  - apply ctor_store_ok.
  - apply dtor_store_ok.
  - apply createTable_store_ok.
  - apply insertData_store_ok.
  - apply readData_store_ok.
  - apply updateData_store_ok.
  - apply cout_line_store_ok.
Qed.

(** Nothing but the handler of [main] writes to [std::cerr]. *)
Lemma main_block_cerr (l : list string) :
  preserves (fun w => cerr w = l)
    (with_DatabaseConnection "test.db" (fun dbConn =>
       createTable (get dbConn);;
       insertData dbConn "Alice" 25;;
       insertData dbConn "Bob" 30;;
       cout_line "Current Records:";;
       readData dbConn;;
       cout_line "Updating Bob's age to 35:";;
       updateData dbConn 2 "Bob" 35;;
       cout_line "Records After Update:";;
       readData dbConn)).
Proof.
  apply main_block_preserves.
  - intros n w r w' H Hw.
    apply DatabaseConnection_ctor_inv in H as (_ & E & _). congruence.
  - intros c w r w' H Hw.
    destruct (DatabaseConnection_dtor_inv c w) as (w1 & E1 & _ & _ & E & _).
    rewrite E1 in H. inversion H; subst. congruence.
  - intros h w r w' H Hw. apply createTable_inv in H as (_ & _ & E & _). congruence.
  - intros c n a w r w' H Hw. apply insertData_frame in H as (_ & E & _). congruence.
  - intros c w r w' H Hw. apply readData_inv in H as (_ & _ & _ & E & _). congruence.
  - intros c i n a w r w' H Hw. apply updateData_frame in H as (_ & E & _). congruence.
  - intros s w r w' H Hw. inversion H; subst r w'. exact Hw.
Qed.

(** The operations of the block of [main], undisturbed, on a file that
    has no table yet. *)
Lemma main_body_steps dbConn w h c d :
  lookup_conn (get dbConn) w = Some (h, c) ->
  disk w !! path c = Some d -> users d = None -> calm w ->
  exists w',
    (createTable (get dbConn);;
     insertData dbConn "Alice" 25;;
     insertData dbConn "Bob" 30;;
     cout_line "Current Records:";;
     readData dbConn;;
     cout_line "Updating Bob's age to 35:";;
     updateData dbConn 2 "Bob" 35;;
     cout_line "Records After Update:";;
     readData dbConn) w = (Ok tt, w') /\
    steps_to (path c) {| users := Some alice_bob35 |}
      ["Table created successfully!";
       "Operation completed successfully!"; "Operation completed successfully!";
       "Current Records:";
       "ID: 1"; "Name: Alice"; "Age: 25"; "-----------------------";
       "ID: 2"; "Name: Bob"; "Age: 30"; "-----------------------";
       "Updating Bob's age to 35:"; "Record updated successfully!";
       "Records After Update:";
       "ID: 1"; "Name: Alice"; "Age: 25"; "-----------------------";
       "ID: 2"; "Name: Bob"; "Age: 35"; "-----------------------"] w w'.
Proof.
  intros Hc Hd Hu Hk.
  set (T0 := {| rows := []; seq := 0 |}).
  set (T1 := {| rows := [{| ID := 1; Name := "Alice"; Age := 25 |}]; seq := 1 |}).
  destruct (createTable_steps _ _ _ _ _ Hc Hd Hk) as (w1 & E1 & S1).
  replace (has_table d) with false in S1 by (unfold has_table; rewrite Hu; reflexivity).
  destruct (steps_to_next _ _ _ _ _ _ _ _ S1 Hc) as (Hc1 & Hd1 & Hk1).
  destruct (insertData_steps dbConn "Alice" 25 w1 h c {| users := Some T0 |} T0
              eq_refl Hc1 Hd1 eq_refl) as (w2 & E2 & S2);
    [unfold INT64_MAX; simpl; lia | exact Hk1 |].
  change (steps_to (path c) {| users := Some T1 |}
            ["Operation completed successfully!"] w1 w2) in S2.
  destruct (steps_to_next _ _ _ _ _ _ _ _ S2 Hc1) as (Hc2 & Hd2 & Hk2).
  destruct (insertData_steps dbConn "Bob" 30 w2 h c {| users := Some T1 |} T1
              eq_refl Hc2 Hd2 eq_refl) as (w3 & E3 & S3);
    [unfold INT64_MAX; simpl; lia | exact Hk2 |].
  change (steps_to (path c) {| users := Some alice_bob |}
            ["Operation completed successfully!"] w2 w3) in S3.
  destruct (steps_to_next _ _ _ _ _ _ _ _ S3 Hc2) as (Hc3 & Hd3 & Hk3).
  destruct (cout_line_steps "Current Records:" _ _ _ Hd3 Hk3) as (E4 & S4).
  destruct (steps_to_next _ _ _ _ _ _ _ _ S4 Hc3) as (Hc4 & Hd4 & Hk4).
  destruct (readData_steps dbConn _ h c _ alice_bob Hc4 Hd4 eq_refl Hk4) as (w5 & E5 & S5).
  destruct (steps_to_next _ _ _ _ _ _ _ _ S5 Hc4) as (Hc5 & Hd5 & Hk5).
  destruct (cout_line_steps "Updating Bob's age to 35:" _ _ _ Hd5 Hk5) as (E6 & S6).
  destruct (steps_to_next _ _ _ _ _ _ _ _ S6 Hc5) as (Hc6 & Hd6 & Hk6).
  destruct (updateData_steps dbConn 2 "Bob" 35 _ h c _ alice_bob eq_refl Hc6 Hd6 eq_refl Hk6)
    as (w7 & E7 & S7).
  change (steps_to (path c) {| users := Some alice_bob35 |}
            ["Record updated successfully!"] (print "Updating Bob's age to 35:" w5) w7) in S7.
  destruct (steps_to_next _ _ _ _ _ _ _ _ S7 Hc6) as (Hc7 & Hd7 & Hk7).
  destruct (cout_line_steps "Records After Update:" _ _ _ Hd7 Hk7) as (E8 & S8).
  destruct (steps_to_next _ _ _ _ _ _ _ _ S8 Hc7) as (Hc8 & Hd8 & Hk8).
  destruct (readData_steps dbConn _ h c _ alice_bob35 Hc8 Hd8 eq_refl Hk8) as (w9 & E9 & S9).
  exists w9. split.
  - rewrite (run_seq _ _ _ _ _ E1), (run_seq _ _ _ _ _ E2), (run_seq _ _ _ _ _ E3),
      (run_seq _ _ _ _ _ E4), (run_seq _ _ _ _ _ E5), (run_seq _ _ _ _ _ E6),
      (run_seq _ _ _ _ _ E7), (run_seq _ _ _ _ _ E8).
    exact E9.
  - exact (steps_to_trans _ _ _ _ _ _ _ _ S1
            (steps_to_trans _ _ _ _ _ _ _ _ S2
            (steps_to_trans _ _ _ _ _ _ _ _ S3
            (steps_to_trans _ _ _ _ _ _ _ _ S4
            (steps_to_trans _ _ _ _ _ _ _ _ S5
            (steps_to_trans _ _ _ _ _ _ _ _ S6
            (steps_to_trans _ _ _ _ _ _ _ _ S7
            (steps_to_trans _ _ _ _ _ _ _ _ S8 S9)))))))).
Qed.

End SampleRun.

(** ** Properties of the operations *)

(** X2.  An undisturbed insert goes through: on an open connection whose
    file holds the table, with a valid name and age and an id still to
    hand out, [insertData] returns normally; the table gains exactly one
    row at its end, holding the next id, the name up to its first zero
    byte and the age; the handles are as before and one line is
    printed. *)
Theorem insertData_undisturbed
    (dbConn : DatabaseConnection) (name : string) (age : Z) (w : World)
    (h : nat) (c : Conn) (d : Database) (t : Table) :
  validateInput name age = Ok tt ->
  lookup_conn (get dbConn) w = Some (h, c) ->
  disk w !! path c = Some d -> users d = Some t ->
  Z.max (seq t) (max_id (rows t)) + 1 <= INT64_MAX ->
  calm w ->
  exists w',
    insertData dbConn name age w = (Ok tt, w') /\
    disk w' =
      <[path c :=
          {| users := Some {| rows := rows t ++
                                      [{| ID := Z.max (seq t) (max_id (rows t)) + 1;
                                          Name := until_nul (c_str name); Age := age |}];
                              seq := Z.max (seq t) (max_id (rows t)) + 1 |} |}]> (disk w) /\
    conns w' = conns w /\ stmts w' = stmts w /\
    cout w' = cout w ++ ["Operation completed successfully!"].
Proof.
  intros Hv Hc Hd Hu Hi Hk.
  destruct (insertData_steps dbConn name age w h c d t Hv Hc Hd Hu Hi Hk)
    as (w' & E & H1 & H2 & H3 & H4 & _).
  exists w'. auto.
Qed.

Lemma insertData_undisturbed_witness :
  exists w',
    insertData conn0 "Carol" 41 (ready alice_bob []) = (Ok tt, w') /\
    disk w' =
      <[path {| path := "test.db"; usable := true |} :=
          {| users := Some {| rows := rows alice_bob ++
                                      [{| ID := Z.max (seq alice_bob) (max_id (rows alice_bob)) + 1;
                                          Name := until_nul (c_str "Carol"); Age := 41 |}];
                              seq := Z.max (seq alice_bob) (max_id (rows alice_bob)) + 1 |} |}]>
        (disk (ready alice_bob [])) /\
    conns w' = conns (ready alice_bob []) /\ stmts w' = stmts (ready alice_bob []) /\
    cout w' = cout (ready alice_bob []) ++ ["Operation completed successfully!"].
Proof.
  apply (insertData_undisturbed conn0 "Carol" 41 (ready alice_bob []) 0%nat
           {| path := "test.db"; usable := true |} {| users := Some alice_bob |} alice_bob).
  - reflexivity.
  - vm_compute. reflexivity.
  - vm_compute. reflexivity.
  - reflexivity.
  - vm_compute. discriminate.
  - constructor.
Defined.

Lemma set_row_twice (i : Z) (n : string) (a : Z) (rs : list Row) :
  map (set_row i n a) (map (set_row i n a) rs) = map (set_row i n a) rs.
Proof.
  rewrite map_map. apply map_ext. intros r. unfold set_row.
  destruct (ID r =? i) eqn:E; simpl; rewrite E; reflexivity.
Qed.



(** X13.  Updating twice is updating once: when nothing disturbs the
    calls, a second [updateData] with the same id, name and age returns
    normally and leaves the store as the first one left it. *)
Theorem updateData_twice
    (dbConn : DatabaseConnection) (id : Z) (name : string) (age : Z) (w : World)
    (h : nat) (c : Conn) (d : Database) (t : Table) :
  validateInput name age = Ok tt ->
  lookup_conn (get dbConn) w = Some (h, c) ->
  disk w !! path c = Some d -> users d = Some t ->
  calm w ->
  exists w1 w2,
    updateData dbConn id name age w = (Ok tt, w1) /\
    updateData dbConn id name age w1 = (Ok tt, w2) /\
    disk w2 = disk w1.
Proof.
  intros Hv Hc Hd Hu Hk.
  destruct (updateData_steps dbConn id name age w h c d t Hv Hc Hd Hu Hk) as (w1 & E1 & S1).
  destruct (steps_to_next _ _ _ _ _ _ _ _ S1 Hc) as (Hc1 & Hd1 & Hk1).
  destruct (updateData_steps dbConn id name age w1 h c _ _ Hv Hc1 Hd1 eq_refl Hk1)
    as (w2 & E2 & S2).
  exists w1, w2. split; [exact E1 |]. split; [exact E2 |].
  destruct S1 as (G1 & _). destruct S2 as (G2 & _).
  rewrite G2, G1. simpl. rewrite set_row_twice. apply insert_insert_eq.
Qed.

Lemma updateData_twice_witness :
  exists w1 w2,
    updateData conn0 2 "Bob" 35 (ready alice_bob []) = (Ok tt, w1) /\
    updateData conn0 2 "Bob" 35 w1 = (Ok tt, w2) /\
    disk w2 = disk w1.
Proof.
  apply (updateData_twice conn0 2 "Bob" 35 (ready alice_bob []) 0%nat
           {| path := "test.db"; usable := true |} {| users := Some alice_bob |} alice_bob).
  - reflexivity.
  - vm_compute. reflexivity.
  - vm_compute. reflexivity.
  - reflexivity.
  - constructor.
Defined.

(** X4.  Without the table nothing works and nothing breaks: on an open
    connection whose file has no table [Users], with the environment
    calm and a valid name and age, [insertData] and [updateData] throw
    at the preparation and [readData] throws at the query, each naming
    the missing table; no file changes and no statement stays live. *)
Theorem missing_table_is_reported
    (dbConn : DatabaseConnection) (id : Z) (name : string) (age : Z) (w : World)
    (h : nat) (c : Conn) :
  validateInput name age = Ok tt ->
  lookup_conn (get dbConn) w = Some (h, c) ->
  users (db_at (path c) w) = None ->
  calm w ->
  (insertData dbConn name age w).1 =
    Throw (runtime_error "Failed to prepare statement: no such table: Users") /\
  (updateData dbConn id name age w).1 =
    Throw (runtime_error "Failed to prepare update statement: no such table: Users") /\
  (readData dbConn w).1 =
    Throw (runtime_error "Failed to read data: no such table: Users") /\
  disk (insertData dbConn name age w).2 = disk w /\
  disk (updateData dbConn id name age w).2 = disk w /\
  disk (readData dbConn w).2 = disk w /\
  stmts (insertData dbConn name age w).2 = stmts w /\
  stmts (updateData dbConn id name age w).2 = stmts w /\
  stmts (readData dbConn w).2 = stmts w.
Proof.
  intros Hv Hc Hu Hk.
  destruct (lookup_conn_Some _ _ _ _ Hc) as (Hdb & _ & _).
  assert (Hi : insertData dbConn name age w =
               (Throw (runtime_error "Failed to prepare statement: no such table: Users"),
                log (EPrepare (get dbConn) sql_insert SQLITE_ERROR None)
                    (set_errmsg h msg_no_table (set_faults (tl (faults w)) w)))).
  { unfold insertData, executePreparedSQL. rewrite Hv, run_lift_ok, run_call.
    unfold sqlite3_prepare_v2, take_fault. rewrite Hc, (calm_next _ Hk).
    replace (compile (until_nul (text_arg (c_str sql_insert) (-1)))) with (Some PInsertUser)
      by (vm_compute; reflexivity).
    change (db_at (path c) (set_faults (tail (faults w)) w)) with (db_at (path c) w).
    unfold has_table. rewrite Hu. simpl. rewrite run_peek.
    unfold sqlite3_errmsg. rewrite Hdb. simpl. rewrite lookup_insert_eq. reflexivity. }
  assert (Hup : updateData dbConn id name age w =
               (Throw (runtime_error
                         "Failed to prepare update statement: no such table: Users"),
                log (EPrepare (get dbConn) sql_update SQLITE_ERROR None)
                    (set_errmsg h msg_no_table (set_faults (tl (faults w)) w)))).
  { unfold updateData. rewrite Hv, run_lift_ok, run_call.
    unfold sqlite3_prepare_v2, take_fault. rewrite Hc, (calm_next _ Hk).
    replace (compile (until_nul (text_arg (c_str sql_update) (-1)))) with (Some PUpdateUser)
      by (vm_compute; reflexivity).
    change (db_at (path c) (set_faults (tail (faults w)) w)) with (db_at (path c) w).
    unfold has_table. rewrite Hu. simpl. rewrite run_peek.
    unfold sqlite3_errmsg. rewrite Hdb. simpl. rewrite lookup_insert_eq. reflexivity. }
  assert (Hr : readData dbConn w =
               (Throw (runtime_error "Failed to read data: no such table: Users"),
                log (EExec (get dbConn) sql_select SQLITE_ERROR)
                    (set_errmsg h msg_no_table (set_faults (tl (faults w)) w)))).
  { unfold readData. rewrite run_call.
    unfold sqlite3_exec, take_fault. rewrite Hc, (calm_next _ Hk).
    replace (compile (until_nul (c_str sql_select))) with (Some PSelectUsers)
      by (vm_compute; reflexivity).
    change (db_at (path c) (set_faults (tail (faults w)) w)) with (db_at (path c) w).
    rewrite Hu. reflexivity. }
  rewrite Hi, Hup, Hr. simpl. repeat split.
Qed.

Lemma missing_table_is_reported_witness :
  (insertData conn0 "Alice" 25 (snd (DatabaseConnection_ctor "test.db" world0))).1 =
    Throw (runtime_error "Failed to prepare statement: no such table: Users") /\
  (updateData conn0 2 "Bob" 35 (snd (DatabaseConnection_ctor "test.db" world0))).1 =
    Throw (runtime_error "Failed to prepare update statement: no such table: Users") /\
  (readData conn0 (snd (DatabaseConnection_ctor "test.db" world0))).1 =
    Throw (runtime_error "Failed to read data: no such table: Users").
Proof.
  destruct (missing_table_is_reported conn0 2 "Alice" 25
              (snd (DatabaseConnection_ctor "test.db" world0))
              0%nat {| path := "test.db"; usable := true |}) as (H1 & _ & _);
    [reflexivity | vm_compute; reflexivity | vm_compute; reflexivity | constructor |].
  destruct (missing_table_is_reported conn0 2 "Bob" 35
              (snd (DatabaseConnection_ctor "test.db" world0))
              0%nat {| path := "test.db"; usable := true |}) as (_ & H2 & H3 & _);
    [reflexivity | vm_compute; reflexivity | vm_compute; reflexivity | constructor |].
  auto.
Defined.



Lemma show_row_lines (r : Row) :
  show_row r = ["ID: " +:+ dec (ID r); "Name: " +:+ Name r; "Age: " +:+ dec (Age r);
                "-----------------------"].
Proof. reflexivity. Qed.









(** X9.  The block that owns a connection gives the handle back: when
    the open succeeds, every live statement belongs to a held
    connection, and the body moves no handle (whether it returns or
    throws), then after the block the held connections and the live
    statements are the ones from before it, and its last engine call
    was a close that succeeded. *)
Theorem block_releases_connection {A : Type}
    (dbName : string) (body : DatabaseConnection -> M A) (w : World) (r : result A) (w' : World) :
  next_fault w = None ->
  owned_ok w ->
  (forall c w1 r1 w2, body c w1 = (r1, w2) -> conns w2 = conns w1 /\ stmts w2 = stmts w1) ->
  with_DatabaseConnection dbName body w = (r, w') ->
  conns w' = conns w /\ stmts w' = stmts w /\
  exists tr h, trace w' = tr ++ [EClose (Some h) SQLITE_OK].
Proof.
  intros Hf Hown Hbody. unfold with_DatabaseConnection.
  destruct (DatabaseConnection_ctor dbName w) as [[dbConn | e] w1] eqn:Hctor.
  2:{ destruct (DatabaseConnection_ctor_inv _ _ _ _ Hctor) as (_ & _ & _ & _ & f & Hf' & _).
      congruence. }
  destruct (DatabaseConnection_ctor_inv _ _ _ _ Hctor)
    as (Hs1 & _ & _ & _ & h & Hdb & Hfresh & _ & Hc1 & _).
  destruct (body dbConn w1) as [r2 w2] eqn:Hb.
  destruct (Hbody _ _ _ _ Hb) as (Hc2 & Hs2).
  destruct (DatabaseConnection_dtor_inv dbConn w2) as (w3 & Hd & _ & Hs3 & _).
  rewrite Hd. intros H; inversion H; subst r2 w3.
  assert (Hnone : forall s st, stmts w2 !! s = Some st -> owner st <> h).
  { intros s st Hst Ho. rewrite Hs2, Hs1 in Hst. destruct (Hown s st Hst) as (c' & Hc').
    rewrite Ho, Hfresh in Hc'. discriminate. }
  assert (Hheld : conns w2 !! h =
                  Some {| path := until_nul (c_str dbName); usable := true |})
    by (rewrite Hc2, Hc1; apply lookup_insert_eq).
  destruct (DatabaseConnection_dtor_releases _ _ _ _ _ Hdb Hheld Hnone Hd) as (Hc3 & Ht3).
  split; [| split].
  - rewrite Hc3, Hc2, Hc1. apply delete_insert_id. exact Hfresh.
  - rewrite Hs3, Hs2, Hs1. reflexivity.
  - eauto.
Qed.

Lemma block_releases_connection_witness :
  conns (with_DatabaseConnection "test.db" readData world0).2 = conns world0 /\
  stmts (with_DatabaseConnection "test.db" readData world0).2 = stmts world0 /\
  exists tr h,
    trace (with_DatabaseConnection "test.db" readData world0).2 =
      tr ++ [EClose (Some h) SQLITE_OK].
Proof.
  apply (block_releases_connection "test.db" readData world0
           (with_DatabaseConnection "test.db" readData world0).1).
  - reflexivity.
  - intros s st Hst. cbn in Hst. rewrite lookup_empty in Hst. discriminate.
  - intros c w1 r1 w2 H. apply readData_inv in H as (_ & H2 & H3 & _). auto.
  - destruct (with_DatabaseConnection "test.db" readData world0). reflexivity.
Defined.

(** ** Properties of the whole program *)

Lemma alice_bob_ok : table_ok alice_bob.
Proof.
  unfold table_ok, row_ok. simpl. split; [| split].
  - repeat constructor; simpl; lia.
  - apply NoDup_cons. split; [| apply NoDup_singleton].
    intros H. apply list_elem_of_singleton in H. discriminate.
  - repeat constructor; simpl; lia.
Qed.

Lemma ready_store_ok fs : store_ok (ready alice_bob fs).
Proof.
  intros p d t Hd Hu. simpl in Hd. apply lookup_singleton_Some in Hd as (_ & <-).
  simpl in Hu. inversion Hu; subst. apply alice_bob_ok.
Qed.

(** X10.  The store stays well-formed.  If in every table on disk the
    ids are pairwise distinct and not above the id counter, the ages lie
    in [0,150] and the names are at most 100 bytes long, then the same
    holds after [createTable], [insertData], [readData], [updateData]
    and after a whole run of [main], whichever way they leave and
    whatever the environment does. *)
Theorem store_stays_well_formed
    (dbConn : DatabaseConnection) (db : option nat) (id : Z) (name : string) (age : Z)
    (w : World) :
  store_ok w ->
  store_ok (createTable db w).2 /\
  store_ok (insertData dbConn name age w).2 /\
  store_ok (readData dbConn w).2 /\
  store_ok (updateData dbConn id name age w).2 /\
  store_ok (main w).2.
Proof.
  intros Hw. split; [| split; [| split; [| split]]].
  - destruct (createTable db w) as [r w'] eqn:H. exact (createTable_store_ok _ _ _ _ H Hw).
  - destruct (insertData dbConn name age w) as [r w'] eqn:H.
    exact (insertData_store_ok _ _ _ _ _ _ H Hw).
  - destruct (readData dbConn w) as [r w'] eqn:H. exact (readData_store_ok _ _ _ _ H Hw).
  - destruct (updateData dbConn id name age w) as [r w'] eqn:H.
    exact (updateData_store_ok _ _ _ _ _ _ _ H Hw).
  - destruct (main w) as [r w'] eqn:H. exact (main_store_ok _ _ _ H Hw).
Qed.

Lemma store_stays_well_formed_witness :
  store_ok (createTable (Some 0%nat) (ready alice_bob [])).2 /\
  store_ok (insertData conn0 name_with_nul 150 (ready alice_bob [])).2 /\
  store_ok (readData conn0 (ready alice_bob [])).2 /\
  store_ok (updateData conn0 2 "Bob" 35 (ready alice_bob [None; None; Some F_NOMEM])).2 /\
  store_ok (main (ready alice_bob [])).2.
Proof.
  destruct (store_stays_well_formed conn0 (Some 0%nat) 2 name_with_nul 150
              (ready alice_bob []) (ready_store_ok [])) as (H1 & H2 & H3 & _ & H5).
  destruct (store_stays_well_formed conn0 (Some 0%nat) 2 "Bob" 35
              (ready alice_bob [None; None; Some F_NOMEM])
              (ready_store_ok [None; None; Some F_NOMEM])) as (_ & _ & _ & H4 & _).
  auto.
Defined.

(** X11.  [main] swallows every failure: in every world it returns 0;
    it writes to [std::cerr] nothing at all, or exactly one line that
    starts with "Error: ". *)
Theorem main_always_returns_0 (w : World) :
  (main w).1 = Ok 0 /\
  (cerr (main w).2 = cerr w \/ exists m, cerr (main w).2 = cerr w ++ ["Error: " +:+ m]).
Proof.
  unfold main. rewrite run_bind. unfold try_catch.
  match goal with
  | |- context [with_DatabaseConnection ?n ?b w] =>
      destruct (with_DatabaseConnection n b w) as [[[] | e] w1] eqn:E
  end.
  - simpl. split; [reflexivity |]. left.
    exact (main_block_cerr (cerr w) _ _ _ E eq_refl).
  - simpl. split; [reflexivity |]. right. exists (what e).
    rewrite (main_block_cerr (cerr w) _ _ _ E eq_refl). reflexivity.
Qed.

(** X12.  The sample run.  In a calm world where [test.db] is absent or
    holds no table and every live statement belongs to a held
    connection, [main] returns 0 and leaves in [test.db] the table with
    the rows (1, Alice, 25) and (2, Bob, 35) and id counter 2; all other
    files, the held connections and the live statements are as before;
    the 25 lines of [main_output] went to [std::cout] and nothing to
    [std::cerr]. *)
Theorem main_on_fresh_file (w : World) :
  calm w ->
  owned_ok w ->
  users (db_at "test.db" w) = None ->
  exists w',
    main w = (Ok 0, w') /\
    disk w' = <["test.db" := {| users := Some alice_bob35 |}]> (disk w) /\
    conns w' = conns w /\ stmts w' = stmts w /\
    cout w' = cout w ++ main_output /\
    cerr w' = cerr w.
Proof.
  intros Hk Hown Hu.
  unfold main. rewrite run_bind. unfold try_catch, with_DatabaseConnection.
  destruct (DatabaseConnection_ctor "test.db" w) as [[dbConn | e] w1] eqn:Hctor.
  2:{ destruct (DatabaseConnection_ctor_inv _ _ _ _ Hctor) as (_ & _ & _ & _ & f & Hf & _).
      rewrite calm_next in Hf by exact Hk. discriminate. }
  destruct (DatabaseConnection_ctor_inv _ _ _ _ Hctor)
    as (Hs1 & He1 & Hk1 & _ & h & Hdb & Hfresh & _ & Hc1 & Ho1 & Hd1).
  change (until_nul (c_str "test.db")) with "test.db" in Hc1, Hd1.
  assert (Hc : lookup_conn (get dbConn) w1 =
               Some (h, {| path := "test.db"; usable := true |})).
  { unfold lookup_conn, get. rewrite Hdb, Hc1, lookup_insert_eq. reflexivity. }
  assert (Hfile : exists d, disk w1 !! "test.db" = Some d /\ users d = None /\
                            <["test.db" := {| users := Some alice_bob35 |}]> (disk w1) =
                            <["test.db" := {| users := Some alice_bob35 |}]> (disk w)).
  { rewrite Hd1. unfold db_at in Hu. destruct (disk w !! "test.db") as [d |] eqn:E.
    - exists d. rewrite E. auto.
    - exists empty_db. rewrite lookup_insert_eq, insert_insert_eq. auto. }
  destruct Hfile as (d & Hd & Hud & Hins).
  destruct (main_body_steps dbConn w1 h _ d Hc Hd Hud (Hk1 Hk))
    as (w2 & E2 & H1 & H2 & H3 & H4 & H5 & _).
  cbn [path] in H1.
  rewrite E2.
  destruct (DatabaseConnection_dtor_inv dbConn w2) as (w3 & E3 & G1 & G3 & G5 & G4 & _).
  rewrite E3. simpl.
  assert (Hnone : forall s st, stmts w2 !! s = Some st -> owner st <> h).
  { intros s st Hst Ho. rewrite H3, Hs1 in Hst. destruct (Hown s st Hst) as (c' & Hc').
    rewrite Ho, Hfresh in Hc'. discriminate. }
  assert (Hheld : conns w2 !! h = Some {| path := "test.db"; usable := true |})
    by (rewrite H2, Hc1; apply lookup_insert_eq).
  destruct (DatabaseConnection_dtor_releases _ _ _ _ _ Hdb Hheld Hnone E3) as (G2 & _).
  exists w3. split; [reflexivity |]. split; [| split; [| split; [| split]]].
  - rewrite G1, H1. exact Hins.
  - rewrite G2, H2, Hc1. apply delete_insert_id. exact Hfresh.
  - rewrite G3, H3, Hs1. reflexivity.
  - rewrite G4, H4, Ho1, <- !app_assoc. reflexivity.
  - rewrite G5, H5, He1. reflexivity.
Qed.

Lemma main_on_fresh_file_witness :
  exists w',
    main world0 = (Ok 0, w') /\
    disk w' = <["test.db" := {| users := Some alice_bob35 |}]> (disk world0) /\
    conns w' = conns world0 /\ stmts w' = stmts world0 /\
    cout w' = cout world0 ++ main_output /\
    cerr w' = cerr world0.
Proof.
  apply (main_on_fresh_file world0).
  - constructor.
  - intros s st Hst. cbn in Hst. rewrite lookup_empty in Hst. discriminate.
  - reflexivity.
Defined.

(** X14.  The four operations move no connection and never write to
    [std::cerr]: however [createTable], [insertData], [readData] and
    [updateData] leave, the held connections and the error stream are
    the ones from before the call. *)
Theorem operations_move_no_connection
    (dbConn : DatabaseConnection) (db : option nat) (id : Z) (name : string) (age : Z)
    (w : World) :
  (conns (createTable db w).2 = conns w /\ cerr (createTable db w).2 = cerr w) /\
  (conns (insertData dbConn name age w).2 = conns w /\
   cerr (insertData dbConn name age w).2 = cerr w) /\
  (conns (readData dbConn w).2 = conns w /\ cerr (readData dbConn w).2 = cerr w) /\
  (conns (updateData dbConn id name age w).2 = conns w /\
   cerr (updateData dbConn id name age w).2 = cerr w).
Proof.
  split; [| split; [| split]].
  - destruct (createTable db w) as [r w'] eqn:H.
    apply createTable_inv in H as (H1 & _ & H2 & _). auto.
  - destruct (insertData dbConn name age w) as [r w'] eqn:H.
    apply insertData_frame in H as (H1 & H2 & _). auto.
  - destruct (readData dbConn w) as [r w'] eqn:H.
    apply readData_inv in H as (_ & H1 & _ & H2 & _). auto.
  - destruct (updateData dbConn id name age w) as [r w'] eqn:H.
    apply updateData_frame in H as (H1 & H2 & _). auto.
Qed.

(** X15.  The lower bound of the validation does not reach the store: a
    name that starts with a zero byte and is at most 100 bytes long
    passes [validateInput], and an undisturbed [insertData] of it
    returns normally and stores a row whose name is the empty text. *)
Theorem insertData_stores_empty_name
    (dbConn : DatabaseConnection) (rest : string) (age : Z) (w : World)
    (h : nat) (c : Conn) (d : Database) (t : Table) :
  (String.length rest < 100)%nat ->
  0 <= age <= 150 ->
  lookup_conn (get dbConn) w = Some (h, c) ->
  disk w !! path c = Some d -> users d = Some t ->
  Z.max (seq t) (max_id (rows t)) + 1 <= INT64_MAX ->
  calm w ->
  validateInput (String NUL rest) age = Ok tt /\
  exists w',
    insertData dbConn (String NUL rest) age w = (Ok tt, w') /\
    disk w' =
      <[path c :=
          {| users := Some {| rows := rows t ++
                                      [{| ID := Z.max (seq t) (max_id (rows t)) + 1;
                                          Name := ""; Age := age |}];
                              seq := Z.max (seq t) (max_id (rows t)) + 1 |} |}]> (disk w).
Proof.
  intros Hl Ha Hc Hd Hu Hi Hk.
  assert (Hv : validateInput (String NUL rest) age = Ok tt).
  { unfold validateInput.
    replace (age <? 0) with false by (symmetry; apply Z.ltb_ge; lia).
    replace (age >? 150) with false by (symmetry; rewrite Z.gtb_ltb; apply Z.ltb_ge; lia).
    change (String.length (String NUL rest)) with (S (String.length rest)).
    replace (100 <? S (String.length rest))%nat with false
      by (symmetry; apply Nat.ltb_ge; lia).
    reflexivity. }
  split; [exact Hv |].
  destruct (insertData_steps dbConn (String NUL rest) age w h c d t Hv Hc Hd Hu Hi Hk)
    as (w' & E & H1 & _).
  exists w'. split; [exact E | exact H1].
Qed.

Lemma insertData_stores_empty_name_witness :
  validateInput (String NUL "Bob") 30 = Ok tt /\
  exists w',
    insertData conn0 (String NUL "Bob") 30 (ready alice_bob []) = (Ok tt, w') /\
    disk w' =
      <[path {| path := "test.db"; usable := true |} :=
          {| users := Some {| rows := rows alice_bob ++
                                      [{| ID := Z.max (seq alice_bob) (max_id (rows alice_bob)) + 1;
                                          Name := ""; Age := 30 |}];
                              seq := Z.max (seq alice_bob) (max_id (rows alice_bob)) + 1 |} |}]>
        (disk (ready alice_bob [])).
Proof.
  apply (insertData_stores_empty_name conn0 "Bob" 30 (ready alice_bob []) 0%nat
           {| path := "test.db"; usable := true |} {| users := Some alice_bob |} alice_bob).
  - simpl. lia.
  - lia.
  - vm_compute. reflexivity.
  - vm_compute. reflexivity.
  - reflexivity.
  - vm_compute. discriminate.
  - constructor.
Defined.
